(** * WarehouseOrderPicker: the product search widget of static/js/ui-utils.js

    A shallow embedding of the second script of [static/js/ui-utils.js]
    (the IIFE that defines [window.WarehouseOrderPicker]) and the proofs of
    its specification.

    Conventions of the embedding.
    - A JavaScript string is a [string]: a sequence of code units below 256
      (the Latin-1 range). On such strings [toLowerCase], [trim] and
      [parseInt] are the exact functions defined below.
    - What [parseInt] returns is a [Z], [None] for NaN, exact for
      magnitudes a double holds without rounding; a clock reading, a
      status and a row number are [Z] as well. A number that comes with a
      product is a [JS.Number], which keeps the digits and the decimal
      point [String] prints.
    - [undefined] and [null] are [None].
    - The event loop is a transition function on [State]: one [Event] is
      one task (a DOM event, a timer that fires, a promise that settles). *)

From Stdlib Require Import ZArith Ascii String List Bool Lia.
From Stdlib Require Import DecimalString DecimalZ.
From stdpp Require Import base option list strings gmap.
Import ListNotations.

Local Open Scope Z_scope.

(** ** JavaScript primitives *)

Module JS.

Definition code (c : ascii) : N := N_of_ascii c.

(** [String.prototype.length]. *)
Definition length (s : string) : Z := Z.of_nat (String.length s).

(** Truthiness of a string: the empty string is falsy. *)
Definition truthy (s : string) : bool :=
  match s with EmptyString => false | String _ _ => true end.

(** [v || d] on a string that may be undefined or null. *)
Definition or_else (v : option string) (d : string) : string :=
  match v with
  | Some s => if truthy s then s else d
  | None => d
  end.

(** [String.prototype.toLowerCase] on one code unit below 256:
    A-Z and the accented capitals U+00C0..U+00DE (but not the
    multiplication sign U+00D7) move up by 32. *)
Definition lower_char (c : ascii) : ascii :=
  let n := code c in
  if ((65 <=? n) && (n <=? 90))%N then ascii_of_N (n + 32)
  else if ((192 <=? n) && (n <=? 222) && negb (n =? 215))%N
       then ascii_of_N (n + 32)
  else c.

Fixpoint toLowerCase (s : string) : string :=
  match s with
  | EmptyString => EmptyString
  | String c s' => String (lower_char c) (toLowerCase s')
  end.

Fixpoint startsWith (s p : string) {struct p} : bool :=
  match p, s with
  | EmptyString, _ => true
  | String _ _, EmptyString => false
  | String a p', String b s' => Ascii.eqb a b && startsWith s' p'
  end.

(** [String.prototype.includes]: [needle] occurs in [s]. *)
Fixpoint includes (s needle : string) : bool :=
  startsWith s needle ||
  match s with
  | EmptyString => false
  | String _ s' => includes s' needle
  end.

(** White space and line terminators below 256:
    TAB, LF, VT, FF, CR, SPACE and NBSP. *)
Definition is_space (c : ascii) : bool :=
  let n := code c in
  (((9 <=? n) && (n <=? 13)) || (n =? 32) || (n =? 160))%N.

Fixpoint trimStart (s : string) : string :=
  match s with
  | EmptyString => EmptyString
  | String c s' => if is_space c then trimStart s' else s
  end.

Fixpoint trimEnd (s : string) : string :=
  match s with
  | EmptyString => EmptyString
  | String c s' =>
      let t := trimEnd s' in
      if is_space c && negb (truthy t) then EmptyString else String c t
  end.

(** [String.prototype.trim]. *)
Definition trim (s : string) : string := trimEnd (trimStart s).

Definition digit (c : ascii) : option Z :=
  let n := code c in
  if ((48 <=? n) && (n <=? 57))%N then Some (Z.of_N n - 48) else None.

(** The longest prefix of decimal digits, read left to right;
    [None] when there is no digit at all. *)
Fixpoint digits (s : string) (acc : option Z) : option Z :=
  match s with
  | EmptyString => acc
  | String c s' =>
      match digit c with
      | Some d => digits s' (Some (10 * default 0 acc + d))
      | None => acc
      end
  end.

(** [parseInt(s, 10)]: leading white space, an optional sign, then
    digits; anything after the digits is ignored. [None] is NaN. *)
Definition parseInt (s : string) : option Z :=
  match trimStart s with
  | String "-"%char r => Z.opp <$> digits r None
  | String "+"%char r => digits r None
  | r => digits r None
  end.

(** [parseInt(v || "0", 10) || 0]: NaN and 0 both give 0. *)
Definition parseInt_or0 (v : option string) : Z :=
  default 0 (parseInt (or_else v "0")).

(** [String(n)] for an integer [n] of at most 21 digits, which is printed
    by its digits: a clock reading, a status, a row number, a bound or a
    quantity read by [parseInt]. *)
Definition String_of (n : Z) : string :=
  NilZero.string_of_int (Z.to_int n).

(** A finite number the way [Number::toString] takes it apart: zero, or a
    sign, the digits [s] of the shortest decimal that reads back as the
    number (no zero at either end) and the position [n] of the decimal
    point, the value being 0.s x 10^n. So 5 is "5" at 1, 2.5 is "25" at 1,
    0.5 is "5" at 0, 100 is "1" at 3 and 10^21 is "1" at 22. *)
Inductive Number :=
  | Zero
  | Finite (negative : bool) (s : string) (n : Z).

(** Truthiness of a number: 0 is falsy. *)
Definition Number_truthy (x : Number) : bool :=
  match x with Zero => false | Finite _ _ _ => true end.

(** [v || 0] on a number that may be undefined or null. *)
Definition or_zero (v : option Number) : Number :=
  match v with
  | Some x => if Number_truthy x then x else Zero
  | None => Zero
  end.

Fixpoint zeros (n : nat) : string :=
  match n with O => "" | S n' => String "0" (zeros n') end.

Fixpoint take_chars (n : nat) (s : string) : string :=
  match n, s with
  | S n', String c s' => String c (take_chars n' s')
  | _, _ => ""
  end.

Fixpoint drop_chars (n : nat) (s : string) : string :=
  match n, s with
  | S n', String _ s' => drop_chars n' s'
  | _, _ => s
  end.

(** [Number::toString(x)] in radix 10: with [k] digits and the point at
    [n], the digits padded with zeros for [k <= n <= 21], the digits with a
    point inside for [0 < n <= 21], "0." and zeros before the digits for
    [-6 < n <= 0], and the exponent form with [n - 1] otherwise. *)
Definition Number_toString (x : Number) : string :=
  match x with
  | Zero => "0"
  | Finite negative s n =>
      let k := length s in
      (if negative then "-" else "") +:+
      (if (k <=? n) && (n <=? 21) then s +:+ zeros (Z.to_nat (n - k))
       else if (0 <? n) && (n <=? 21)
            then take_chars (Z.to_nat n) s +:+ "." +:+ drop_chars (Z.to_nat n) s
       else if (-6 <? n) && (n <=? 0)
            then "0." +:+ zeros (Z.to_nat (- n)) +:+ s
       else
         let e := (if 0 <=? n - 1 then "+" else "-") +:+
                  String_of (Z.abs (n - 1)) in
         if k =? 1 then s +:+ "e" +:+ e
         else take_chars 1 s +:+ "." +:+ drop_chars 1 s +:+ "e" +:+ e)
  end.

(** The digits of an integer without the zeros at their end. *)
Fixpoint strip_zeros (s : string) : string :=
  match s with
  | EmptyString => EmptyString
  | String c s' =>
      let t := strip_zeros s' in
      if Ascii.eqb c "0" && negb (truthy t) then EmptyString else String c t
  end.

(** The number whose value is the integer [z]. *)
Definition of_Z (z : Z) : Number :=
  if z =? 0 then Zero
  else Finite (z <? 0) (strip_zeros (String_of (Z.abs z)))
         (length (String_of (Z.abs z))).

(** *** Values given to form fields

    A field keeps what the value sanitization algorithm of its type makes
    of a value the script assigns. *)

(** A text field drops the line breaks U+000A and U+000D. *)
Fixpoint strip_newlines (s : string) : string :=
  match s with
  | EmptyString => EmptyString
  | String c s' =>
      if ((code c =? 10) || (code c =? 13))%N then strip_newlines s'
      else String c (strip_newlines s')
  end.

Definition is_digit (c : ascii) : bool :=
  ((48 <=? code c) && (code c <=? 57))%N.

(** The digits a string starts with, counted, and what follows them. *)
Fixpoint span_digits (s : string) : nat * string :=
  match s with
  | String c s' =>
      if is_digit c
      then let '(n, r) := span_digits s' in (S n, r)
      else (O, s)
  | EmptyString => (O, EmptyString)
  end.

(** A valid floating-point number: an optional "-", then digits, or
    digits, "." and digits, or "." and digits, then optionally "e" or "E",
    an optional sign and digits. *)
Definition valid_float (s : string) : bool :=
  let s := match s with String "-"%char r => r | _ => s end in
  let '(a, r) := span_digits s in
  let '(mantissa, r) :=
    match r with
    | String "."%char r1 =>
        let '(b, r2) := span_digits r1 in (Nat.ltb 0 b, r2)
    | _ => (Nat.ltb 0 a, r)
    end in
  mantissa &&
  match r with
  | EmptyString => true
  | String c r1 =>
      (Ascii.eqb c "e" || Ascii.eqb c "E") &&
      let r2 := match r1 with
                | String "-"%char r | String "+"%char r => r
                | _ => r1
                end in
      let '(n, r3) := span_digits r2 in
      Nat.ltb 0 n && negb (truthy r3)
  end.

(** A number field keeps a valid floating-point number and turns every
    other value into the empty string. *)
Definition sanitize_number (s : string) : string :=
  if valid_float s then s else "".

(** The number a string of digits stands for. *)
Definition digits_value (s : string) : Z := default 0 (digits s None).

Definition leap_year (y : Z) : bool :=
  (y mod 400 =? 0) || ((y mod 4 =? 0) && negb (y mod 100 =? 0)).

Definition days_in_month (y m : Z) : Z :=
  if (m =? 4) || (m =? 6) || (m =? 9) || (m =? 11) then 30
  else if m =? 2 then (if leap_year y then 29 else 28)
  else 31.

(** A valid date string: a year of four or more digits that is not 0, "-",
    a month of two digits, "-", a day of two digits of that month. *)
Definition valid_date (s : string) : bool :=
  let '(a, r) := span_digits s in
  let y := digits_value (take_chars a s) in
  Nat.leb 4 a && (0 <? y) &&
  match r with
  | String "-"%char r1 =>
      let '(b, r2) := span_digits r1 in
      let m := digits_value (take_chars b r1) in
      Nat.eqb b 2 && (1 <=? m) && (m <=? 12) &&
      match r2 with
      | String "-"%char r3 =>
          let '(c, r4) := span_digits r3 in
          let d := digits_value (take_chars c r3) in
          Nat.eqb c 2 && (1 <=? d) && (d <=? days_in_month y m) &&
          negb (truthy r4)
      | _ => false
      end
  | _ => false
  end.

(** A date field keeps a valid date string and turns every other value
    into the empty string. *)
Definition sanitize_date (s : string) : string :=
  if valid_date s then s else "".

(** [Array.prototype.slice(0, n)]. *)
Definition slice0 {A} (n : nat) (l : list A) : list A := firstn n l.

(** [Array.prototype.join(sep)] on strings. *)
Fixpoint join (sep : string) (l : list string) : string :=
  match l with
  | [] => ""
  | [x] => x
  | x :: l' => x +:+ sep +:+ join sep l'
  end.

End JS.

(** ** Data model *)

(** A product object as the two endpoints return it. *)
Record Product := mkProduct {
  _id : option string;
  name : option string;
  sku : option string;
  tag : option string;
  qty_available : option JS.Number;
  image_url : option string
}.

Definition API_SEARCH : string := "/manager/orders/products".
Definition API_PREFETCH : string := "/manager/orders/products_prefetch".
Definition PREFETCH_LIMIT : Z := 300.
Definition DISPLAY_LIMIT : nat := 30.

(** U+00B7, the middle dot of [formatMetaText]. *)
Definition middle_dot : string := String (ascii_of_N 183) "".

Definition formatMetaText (p : Product) : string :=
  let parts :=
    match qty_available p with
    | Some q => ["Available: " +:+ JS.Number_toString q]
    | None => []
    end ++
    (if JS.truthy (JS.or_else (tag p) "") then [JS.or_else (tag p) ""] else []) ++
    (if JS.truthy (JS.or_else (sku p) "")
     then ["SKU: " +:+ JS.or_else (sku p) ""] else [])
  in JS.join (" " +:+ middle_dot +:+ " ") parts.

(** ** The local filter *)

(** The text a product is matched on: lower-cased name, SKU and tag,
    joined by single spaces. *)
Definition combined (p : Product) : string :=
  JS.join " "
    (map JS.toLowerCase
       [JS.or_else (name p) ""; JS.or_else (sku p) ""; JS.or_else (tag p) ""]).

(** The [for ... of] loop of [filterLocalProducts]: [matches] is kept in
    reverse, [n] is its length. *)
Fixpoint filter_loop (needle : string) (cache : list Product)
    (matches : list Product) (n : nat) : list Product :=
  match cache with
  | [] => rev matches
  | p :: rest =>
      if JS.includes (combined p) needle then
        if (DISPLAY_LIMIT <=? S n)%nat then rev (p :: matches)
        else filter_loop needle rest (p :: matches) (S n)
      else filter_loop needle rest matches n
  end.

Definition filterLocalProducts (prefetchCache : list Product) (query : string)
    : list Product :=
  match prefetchCache with
  | [] => []
  | _ =>
      if negb (JS.truthy query) then JS.slice0 DISPLAY_LIMIT prefetchCache
      else filter_loop (JS.toLowerCase query) prefetchCache [] 0
  end.


(** ** The DOM of one row

    One [<tr class="warehouse-order-row">] as [createRow] builds it, together
    with the two closure variables [attachRowListeners] keeps for it. *)

(** A child of the suggestion box: a message [<div>] or a suggestion
    [<button>] whose click selects its product. *)
Inductive BoxItem :=
  | MessageItem (text : string)
  | SuggestionItem (p : Product).

(** [.suggest-box]: its children and whether it carries [d-none]. *)
Record SuggestBox := mkBox {
  box_items : list BoxItem;
  box_hidden : bool
}.

Record Row := mkRow {
  search_value : string;            (* .product-search value *)
  product_id_value : string;        (* .product-id value *)
  meta_text : string;               (* .product-meta textContent *)
  qty_value : string;               (* .qty value *)
  qty_maxQty : option string;       (* .qty dataset.maxQty *)
  qty_max : option string;          (* .qty max attribute *)
  availability_text : string;       (* .availability-msg textContent *)
  availability_hidden : bool;       (* .availability-msg has d-none *)
  expected_date_value : string;     (* .expected-date value *)
  notes_value : string;             (* .notes value *)
  productTag : option string;       (* row.dataset.productTag *)
  remoteRequestId : option string;  (* row.dataset.remoteRequestId *)
  suggest_box : SuggestBox;         (* .suggest-box *)
  hideTimer : option positive;      (* let hideTimer *)
  localTimer : option positive      (* let localTimer *)
}.

(** The row markup of [createRow]. *)
Definition blank_row : Row :=
  {| search_value := ""; product_id_value := ""; meta_text := "";
     qty_value := "1"; qty_maxQty := None; qty_max := None;
     availability_text := ""; availability_hidden := true;
     expected_date_value := ""; notes_value := "";
     productTag := None; remoteRequestId := None;
     suggest_box := mkBox [] true;
     hideTimer := None; localTimer := None |}.

(** Every write the script makes to a row's elements. *)
Inductive DomWrite :=
  | SetSearch (v : string)             (* input.value = v *)
  | SetProductId (v : string)          (* hidden.value = v *)
  | SetMeta (v : string)               (* meta.textContent = v *)
  | SetQty (v : string)                (* qtyInput.value = v *)
  | SetMaxQty (v : string)             (* qtyInput.dataset.maxQty = v *)
  | SetMaxAttr (v : string)            (* qtyInput.setAttribute("max", v) *)
  | RemoveMaxAttr                      (* qtyInput.removeAttribute("max") *)
  | SetAvailabilityText (v : string)   (* availability.textContent = v *)
  | ShowAvailability                   (* availability.classList.remove("d-none") *)
  | HideAvailability                   (* availability.classList.add("d-none") *)
  | SetExpectedDate (v : string)
  | SetNotes (v : string)
  | SetProductTag (v : string)         (* row.dataset.productTag = v *)
  | SetRemoteRequestId (v : string)    (* row.dataset.remoteRequestId = v *)
  | ClearBox                           (* box.innerHTML = "" *)
  | AppendBox (i : BoxItem)            (* box.appendChild(i) *)
  | ShowBox                            (* box.classList.remove("d-none") *)
  | HideBox.                           (* box.classList.add("d-none") *)

Definition set_box (b : SuggestBox) (r : Row) : Row :=
  mkRow (search_value r) (product_id_value r) (meta_text r) (qty_value r)
    (qty_maxQty r) (qty_max r) (availability_text r) (availability_hidden r)
    (expected_date_value r) (notes_value r) (productTag r) (remoteRequestId r)
    b (hideTimer r) (localTimer r).

Definition set_hideTimer (t : option positive) (r : Row) : Row :=
  mkRow (search_value r) (product_id_value r) (meta_text r) (qty_value r)
    (qty_maxQty r) (qty_max r) (availability_text r) (availability_hidden r)
    (expected_date_value r) (notes_value r) (productTag r) (remoteRequestId r)
    (suggest_box r) t (localTimer r).

Definition set_localTimer (t : option positive) (r : Row) : Row :=
  mkRow (search_value r) (product_id_value r) (meta_text r) (qty_value r)
    (qty_maxQty r) (qty_max r) (availability_text r) (availability_hidden r)
    (expected_date_value r) (notes_value r) (productTag r) (remoteRequestId r)
    (suggest_box r) (hideTimer r) t.

Definition apply_write (w : DomWrite) (r : Row) : Row :=
  match w with
  | SetSearch v =>
      mkRow v (product_id_value r) (meta_text r) (qty_value r)
        (qty_maxQty r) (qty_max r) (availability_text r) (availability_hidden r)
        (expected_date_value r) (notes_value r) (productTag r)
        (remoteRequestId r) (suggest_box r) (hideTimer r) (localTimer r)
  | SetProductId v =>
      mkRow (search_value r) v (meta_text r) (qty_value r)
        (qty_maxQty r) (qty_max r) (availability_text r) (availability_hidden r)
        (expected_date_value r) (notes_value r) (productTag r)
        (remoteRequestId r) (suggest_box r) (hideTimer r) (localTimer r)
  | SetMeta v =>
      mkRow (search_value r) (product_id_value r) v (qty_value r)
        (qty_maxQty r) (qty_max r) (availability_text r) (availability_hidden r)
        (expected_date_value r) (notes_value r) (productTag r)
        (remoteRequestId r) (suggest_box r) (hideTimer r) (localTimer r)
  | SetQty v =>
      mkRow (search_value r) (product_id_value r) (meta_text r) v
        (qty_maxQty r) (qty_max r) (availability_text r) (availability_hidden r)
        (expected_date_value r) (notes_value r) (productTag r)
        (remoteRequestId r) (suggest_box r) (hideTimer r) (localTimer r)
  | SetMaxQty v =>
      mkRow (search_value r) (product_id_value r) (meta_text r) (qty_value r)
        (Some v) (qty_max r) (availability_text r) (availability_hidden r)
        (expected_date_value r) (notes_value r) (productTag r)
        (remoteRequestId r) (suggest_box r) (hideTimer r) (localTimer r)
  | SetMaxAttr v =>
      mkRow (search_value r) (product_id_value r) (meta_text r) (qty_value r)
        (qty_maxQty r) (Some v) (availability_text r) (availability_hidden r)
        (expected_date_value r) (notes_value r) (productTag r)
        (remoteRequestId r) (suggest_box r) (hideTimer r) (localTimer r)
  | RemoveMaxAttr =>
      mkRow (search_value r) (product_id_value r) (meta_text r) (qty_value r)
        (qty_maxQty r) None (availability_text r) (availability_hidden r)
        (expected_date_value r) (notes_value r) (productTag r)
        (remoteRequestId r) (suggest_box r) (hideTimer r) (localTimer r)
  | SetAvailabilityText v =>
      mkRow (search_value r) (product_id_value r) (meta_text r) (qty_value r)
        (qty_maxQty r) (qty_max r) v (availability_hidden r)
        (expected_date_value r) (notes_value r) (productTag r)
        (remoteRequestId r) (suggest_box r) (hideTimer r) (localTimer r)
  | ShowAvailability =>
      mkRow (search_value r) (product_id_value r) (meta_text r) (qty_value r)
        (qty_maxQty r) (qty_max r) (availability_text r) false
        (expected_date_value r) (notes_value r) (productTag r)
        (remoteRequestId r) (suggest_box r) (hideTimer r) (localTimer r)
  | HideAvailability =>
      mkRow (search_value r) (product_id_value r) (meta_text r) (qty_value r)
        (qty_maxQty r) (qty_max r) (availability_text r) true
        (expected_date_value r) (notes_value r) (productTag r)
        (remoteRequestId r) (suggest_box r) (hideTimer r) (localTimer r)
  | SetExpectedDate v =>
      mkRow (search_value r) (product_id_value r) (meta_text r) (qty_value r)
        (qty_maxQty r) (qty_max r) (availability_text r) (availability_hidden r)
        v (notes_value r) (productTag r)
        (remoteRequestId r) (suggest_box r) (hideTimer r) (localTimer r)
  | SetNotes v =>
      mkRow (search_value r) (product_id_value r) (meta_text r) (qty_value r)
        (qty_maxQty r) (qty_max r) (availability_text r) (availability_hidden r)
        (expected_date_value r) v (productTag r)
        (remoteRequestId r) (suggest_box r) (hideTimer r) (localTimer r)
  | SetProductTag v =>
      mkRow (search_value r) (product_id_value r) (meta_text r) (qty_value r)
        (qty_maxQty r) (qty_max r) (availability_text r) (availability_hidden r)
        (expected_date_value r) (notes_value r) (Some v)
        (remoteRequestId r) (suggest_box r) (hideTimer r) (localTimer r)
  | SetRemoteRequestId v =>
      mkRow (search_value r) (product_id_value r) (meta_text r) (qty_value r)
        (qty_maxQty r) (qty_max r) (availability_text r) (availability_hidden r)
        (expected_date_value r) (notes_value r) (productTag r)
        (Some v) (suggest_box r) (hideTimer r) (localTimer r)
  | ClearBox => set_box (mkBox [] (box_hidden (suggest_box r))) r
  | AppendBox i =>
      set_box (mkBox (box_items (suggest_box r) ++ [i])
                     (box_hidden (suggest_box r))) r
  | ShowBox => set_box (mkBox (box_items (suggest_box r)) false) r
  | HideBox => set_box (mkBox (box_items (suggest_box r)) true) r
  end.

Definition apply_writes (ws : list DomWrite) (r : Row) : Row :=
  fold_left (fun r w => apply_write w r) ws r.

(** ** Rendering and selection, as the writes they make to a row *)

(** [createMessageItem] and [renderMessage]. *)
Definition renderMessage (message : string) : list DomWrite :=
  [ClearBox;
   AppendBox (MessageItem (JS.or_else (Some message) "No matching products"));
   ShowBox].

(** [renderSuggestions(items, box, {limit, emptyMessage}, row)]. A
    suggestion's click handler selects into [row]: see [Click] below. *)
Definition renderSuggestions (items : list Product) (limit : option nat)
    (emptyMessage : option string) : list DomWrite :=
  let limit := match limit with Some (S n) => S n | _ => DISPLAY_LIMIT end in
  let subset := JS.slice0 limit items in
  ClearBox ::
  match subset with
  | [] => renderMessage (JS.or_else emptyMessage "No products found.")
  | _ => map (fun p => AppendBox (SuggestionItem p)) subset ++ [ShowBox]
  end.

(** [selectProduct(row, product)]. The search box is a text field, which
    drops line breaks from the name it is given. *)
Definition selectProduct (row : Row) (product : Product) : list DomWrite :=
  [SetProductId (JS.or_else (_id product) "");
   SetSearch (JS.strip_newlines (JS.or_else (name product) ""));
   SetMeta (formatMetaText product);
   SetProductTag (JS.or_else (tag product) "Warehouse")] ++
  (let maxQty := JS.or_zero (qty_available product) in
   if JS.Number_truthy maxQty then
     [SetMaxQty (JS.Number_toString maxQty);
      SetMaxAttr (JS.Number_toString maxQty)] ++
     (if negb (JS.truthy (qty_value row)) ||
         match JS.parseInt (qty_value row) with
         | Some n => (n <? 1)%Z
         | None => false
         end
      then [SetQty "1"] else [])
   else [SetMaxQty ""; RemoveMaxAttr]) ++
  [HideAvailability].

(** [updateAvailabilityMessage(row)]. *)
Definition updateAvailabilityMessage (row : Row) : list DomWrite :=
  let maxQty := JS.parseInt_or0 (qty_maxQty row) in
  let value := JS.parseInt_or0 (Some (qty_value row)) in
  if negb (maxQty =? 0)%Z && (maxQty <? value)%Z then
    let tag := JS.or_else (productTag row) "this product" in
    [SetAvailabilityText
       ("Only " +:+ JS.String_of maxQty +:+ " units available from " +:+ tag
        +:+ ".");
     ShowAvailability]
  else [HideAvailability].

(** ** Collecting the order lines *)

Record Item := mkItem {
  product_id : string;
  qty : Z;
  expected_date : option string;
  notes : string
}.

(** What the [forEach] callback of [gatherItems] does with one row. *)
Inductive RowResult :=
  | Skipped
  | Error (message : string)
  | Gathered (item : Item).

Definition gather_row (index : nat) (row : Row) : RowResult :=
  let productId := JS.trim (product_id_value row) in
  let expected :=
    if JS.truthy (expected_date_value row)
    then Some (expected_date_value row) else None in
  let notes := JS.trim (notes_value row) in
  let qty := JS.parseInt_or0 (Some (qty_value row)) in
  let maxQty := JS.parseInt_or0 (qty_maxQty row) in
  let n := JS.String_of (Z.of_nat index + 1) in
  if negb (JS.truthy productId) then
    if (0 <? qty)%Z || JS.truthy (JS.trim (search_value row))
    then Error ("Row " +:+ n +:+ ": select a warehouse product.")
    else Skipped
  else if (qty <=? 0)%Z then
    Error ("Row " +:+ n +:+ ": quantity must be at least 1.")
  else if negb (maxQty =? 0)%Z && (maxQty <? qty)%Z then
    Error ("Row " +:+ n +:+ ": requested quantity (" +:+ JS.String_of qty
           +:+ ") exceeds available stock (" +:+ JS.String_of maxQty +:+ ").")
  else Gathered (mkItem productId qty expected notes).

(** The result object [{ items, errors }]. *)
Record Gather := mkGather {
  items : list Item;
  errors : list string
}.

Definition push_result (g : Gather) (r : RowResult) : Gather :=
  match r with
  | Skipped => g
  | Error e => mkGather (items g) (errors g ++ [e])
  | Gathered i => mkGather (items g ++ [i]) (errors g)
  end.

(** [rows.forEach((row, index) => ...)] from [index] on. *)
Fixpoint gather_from (index : nat) (rows : list Row) (g : Gather) : Gather :=
  match rows with
  | [] => g
  | row :: rest =>
      gather_from (S index) rest (push_result g (gather_row index row))
  end.

(** [gatherItems(container)], on the rows of the container in document
    order. *)
Definition gatherItems (rows : list Row) : Gather :=
  gather_from 0 rows (mkGather [] []).

(** ** The page: shared cache, rows, timers and requests in flight *)

(** The two GET requests of the script. *)
Inductive Request :=
  | GetSearch (query : string)   (* API_SEARCH?q=encodeURIComponent(query) *)
  | GetPrefetch (limit : Z).     (* API_PREFETCH?limit=limit *)

Definition hex_digit (n : N) : ascii :=
  if (n <? 10)%N then ascii_of_N (48 + n) else ascii_of_N (55 + n).

Definition percent (byte : N) : string :=
  String "%"%char (String (hex_digit (byte / 16)) (String (hex_digit (byte mod 16)) "")).

Definition unreserved (c : ascii) : bool :=
  let n := JS.code c in
  (((48 <=? n) && (n <=? 57)) || ((65 <=? n) && (n <=? 90)) ||
   ((97 <=? n) && (n <=? 122)))%N ||
  JS.includes "-_.!~*'()" (String c "").

(** [encodeURIComponent] on code units below 256: the UTF-8 bytes of every
    character that is not unreserved, percent-encoded. *)
Fixpoint encodeURIComponent (s : string) : string :=
  match s with
  | EmptyString => EmptyString
  | String c s' =>
      let n := JS.code c in
      (if unreserved c then String c ""
       else if (n <? 128)%N then percent n
       else percent (192 + n / 64) +:+ percent (128 + n mod 64))
      +:+ encodeURIComponent s'
  end.

Definition url_of (req : Request) : string :=
  match req with
  | GetSearch query => API_SEARCH +:+ "?q=" +:+ encodeURIComponent query
  | GetPrefetch limit => API_PREFETCH +:+ "?limit=" +:+ JS.String_of limit
  end.

(** How the promise of [fetch(url)] settles. [res.ok] is the status being
    in 200..299. *)
Inductive FetchOutcome :=
  | FetchRejected
  | FetchResponse (status : Z).

Definition ok (status : Z) : bool := (200 <=? status)%Z && (status <=? 299)%Z.

(** How the promise of [res.json()] settles: it rejects, or it yields
    [null], or an object whose [results] is absent or an array. *)
Inductive JsonOutcome :=
  | JsonRejected
  | JsonNull
  | JsonObject (results : option (list Product)).

(** What a pending [setTimeout] callback will do. *)
Inductive TimerTask :=
  | Debounce (r : nat) (query requestId : string)  (* fetchRemoteProducts(...) *)
  | HideSuggest (r : nat).                         (* add d-none to the box *)

(** Where an asynchronous function is suspended. *)
Inductive Stage := AwaitFetch | AwaitJson.

(** A call of [fetchRemoteProducts] suspended at an [await]. *)
Record SearchCall := mkCall {
  call_row : nat;
  call_query : string;
  call_requestId : string;
  call_stage : Stage
}.

(** The promise held in [prefetchPromise]. *)
Inductive Load :=
  | LoadPending (stage : Stage)
  | LoadSettled.

Inductive Settlement := Fulfilled | Rejected.

Inductive Async :=
  | SearchAsync (call : positive)
  | PrefetchAsync.

(** What the script does to the world outside its variables. *)
Inductive Effect :=
  | EffDom (r : nat) (w : DomWrite)
  | EffFetch (req : Request)
  | EffSetTimeout (id : positive) (delay : Z)
  | EffClearTimeout (id : positive)
  | EffSettled (a : Async) (o : Settlement).

Record State := mkState {
  prefetchCache : list Product;          (* let prefetchCache *)
  prefetchPromise : option Load;         (* let prefetchPromise; None is null *)
  waiters : list nat;                    (* rows whose openPrefetch awaits it *)
  rows : gmap nat Row;                   (* every row created so far *)
  container : list nat;                  (* the rows attached, in order *)
  next_row : nat;
  activeElement : option nat;            (* the row whose search box has focus *)
  timers : gmap positive TimerTask;      (* timeouts not yet fired or cleared *)
  next_timer : positive;
  calls : gmap positive SearchCall;      (* suspended fetchRemoteProducts calls *)
  next_call : positive;
  effects : list Effect                  (* oldest first *)
}.

Definition set_prefetchCache (v : list Product) (s : State) : State :=
  mkState v (prefetchPromise s) (waiters s) (rows s) (container s) (next_row s)
    (activeElement s) (timers s) (next_timer s) (calls s) (next_call s)
    (effects s).

Definition set_prefetchPromise (v : option Load) (s : State) : State :=
  mkState (prefetchCache s) v (waiters s) (rows s) (container s) (next_row s)
    (activeElement s) (timers s) (next_timer s) (calls s) (next_call s)
    (effects s).

Definition set_waiters (v : list nat) (s : State) : State :=
  mkState (prefetchCache s) (prefetchPromise s) v (rows s) (container s)
    (next_row s) (activeElement s) (timers s) (next_timer s) (calls s)
    (next_call s) (effects s).

Definition set_rows (v : gmap nat Row) (s : State) : State :=
  mkState (prefetchCache s) (prefetchPromise s) (waiters s) v (container s)
    (next_row s) (activeElement s) (timers s) (next_timer s) (calls s)
    (next_call s) (effects s).

Definition set_container (v : list nat) (s : State) : State :=
  mkState (prefetchCache s) (prefetchPromise s) (waiters s) (rows s) v
    (next_row s) (activeElement s) (timers s) (next_timer s) (calls s)
    (next_call s) (effects s).

Definition set_next_row (v : nat) (s : State) : State :=
  mkState (prefetchCache s) (prefetchPromise s) (waiters s) (rows s)
    (container s) v (activeElement s) (timers s) (next_timer s) (calls s)
    (next_call s) (effects s).

Definition set_activeElement (v : option nat) (s : State) : State :=
  mkState (prefetchCache s) (prefetchPromise s) (waiters s) (rows s)
    (container s) (next_row s) v (timers s) (next_timer s) (calls s)
    (next_call s) (effects s).

Definition set_timers (v : gmap positive TimerTask) (n : positive) (s : State)
    : State :=
  mkState (prefetchCache s) (prefetchPromise s) (waiters s) (rows s)
    (container s) (next_row s) (activeElement s) v n (calls s) (next_call s)
    (effects s).

Definition set_calls (v : gmap positive SearchCall) (n : positive) (s : State)
    : State :=
  mkState (prefetchCache s) (prefetchPromise s) (waiters s) (rows s)
    (container s) (next_row s) (activeElement s) (timers s) (next_timer s) v n
    (effects s).

Definition emit (es : list Effect) (s : State) : State :=
  mkState (prefetchCache s) (prefetchPromise s) (waiters s) (rows s)
    (container s) (next_row s) (activeElement s) (timers s) (next_timer s)
    (calls s) (next_call s) (effects s ++ es).

(** The script makes the writes [ws] to row [r], in order. *)
Definition dom_writes (r : nat) (ws : list DomWrite) (s : State) : State :=
  emit (map (EffDom r) ws) (set_rows (alter (apply_writes ws) r (rows s)) s).

(** A change of a row that is not a write of the script: the user's typing,
    or an assignment to a closure variable. *)
Definition update_row (r : nat) (f : Row -> Row) (s : State) : State :=
  set_rows (alter f r (rows s)) s.

(** [clearTimeout(id)]. *)
Definition clearTimeout (id : positive) (s : State) : State :=
  emit [EffClearTimeout id] (set_timers (delete id (timers s)) (next_timer s) s).

(** [setTimeout(task, delay)]: the handle is a fresh positive integer. *)
Definition setTimeout (task : TimerTask) (delay : Z) (s : State)
    : positive * State :=
  let id := next_timer s in
  (id, emit [EffSetTimeout id delay]
         (set_timers (<[id := task]> (timers s)) (Pos.succ id) s)).

(** The page before the script runs. *)
Definition empty_page : State :=
  mkState [] None [] ∅ [] 0 None ∅ 1%positive ∅ 1%positive [].

(** ** Asynchronous functions

    An [async] function runs in stretches: from its call or from the
    settlement of the promise it awaits, up to its next [await], its return,
    or an exception that leaves it. *)

Inductive Completion :=
  | Returned
  | Thrown
  | Suspended (at_stage : Stage).

(** [try { body } catch (err) { handler }] around one stretch. *)
Definition try_catch (body : State * Completion)
    (handler : State -> State * Completion) : State * Completion :=
  match body with
  | (s, Thrown) => handler s
  | _ => body
  end.

(** *** [loadPrefetch] *)

(** [loadPrefetch()]: a pending or settled promise is handed back as it is;
    otherwise the inner function starts and runs up to [await fetch(url)]. *)
Definition loadPrefetch (s : State) : State :=
  match prefetchPromise s with
  | Some _ => s
  | None =>
      emit [EffFetch (GetPrefetch PREFETCH_LIMIT)]
        (set_prefetchPromise (Some (LoadPending AwaitFetch)) s)
  end.

(** From [await fetch(url)] to [await res.json()]. *)
Definition prefetch_after_fetch (o : FetchOutcome) (s : State)
    : State * Completion :=
  match o with
  | FetchRejected => (s, Thrown)
  | FetchResponse status =>
      if negb (ok status) then (s, Thrown) else (s, Suspended AwaitJson)
  end.

(** From [await res.json()] to the end of the [try] block. *)
Definition prefetch_after_json (o : JsonOutcome) (s : State)
    : State * Completion :=
  match o with
  | JsonRejected => (s, Thrown)
  | JsonNull => (set_prefetchCache [] s, Returned)
  | JsonObject results => (set_prefetchCache (default [] results) s, Returned)
  end.

Definition prefetch_catch (s : State) : State * Completion :=
  (set_prefetchCache [] s, Returned).

(** The [then] callback of [openPrefetch] for row [r]. *)
Definition prefetch_then (r : nat) (s : State) : State :=
  if bool_decide (activeElement s = Some r) then
    dom_writes r
      (renderSuggestions (JS.slice0 DISPLAY_LIMIT (prefetchCache s)) None
         (Some "No products loaded yet.")) s
  else s.

(** The inner function of [loadPrefetch] after one stretch: it stays
    suspended, or its promise settles and the callbacks waiting on a
    fulfilment run in order. *)
Definition finish_prefetch (sc : State * Completion) : State :=
  match sc with
  | (s, Suspended st) => set_prefetchPromise (Some (LoadPending st)) s
  | (s, Returned) =>
      let s := emit [EffSettled PrefetchAsync Fulfilled]
                 (set_prefetchPromise (Some LoadSettled) s) in
      fold_left (fun s r => prefetch_then r s) (waiters s) (set_waiters [] s)
  | (s, Thrown) =>
      emit [EffSettled PrefetchAsync Rejected]
        (set_waiters [] (set_prefetchPromise (Some LoadSettled) s))
  end.

(** *** [fetchRemoteProducts] *)

(** [requestId !== row.dataset.remoteRequestId]. *)
Definition stale (c : SearchCall) (s : State) : bool :=
  match rows s !! call_row c with
  | Some row =>
      match remoteRequestId row with
      | Some current => negb (String.eqb (call_requestId c) current)
      | None => true
      end
  | None => true
  end.

(** From [await fetch(url)] to [await res.json()]. *)
Definition search_after_fetch (c : SearchCall) (o : FetchOutcome) (s : State)
    : State * Completion :=
  match o with
  | FetchRejected => (s, Thrown)
  | FetchResponse status =>
      if stale c s then (s, Returned)
      else if negb (ok status) then
        (dom_writes (call_row c)
           (renderMessage ("Search failed (" +:+ JS.String_of status +:+ ")")) s,
         Returned)
      else (s, Suspended AwaitJson)
  end.

(** From [await res.json()] to the end of the [try] block. Reading
    [json.results] of [null] throws. *)
Definition search_after_json (c : SearchCall) (o : JsonOutcome) (s : State)
    : State * Completion :=
  match o with
  | JsonRejected => (s, Thrown)
  | JsonNull => (s, Thrown)
  | JsonObject results =>
      let results := default [] results in
      if stale c s then (s, Returned)
      else
        match results with
        | [] =>
            (dom_writes (call_row c) (renderMessage "No products found") s,
             Returned)
        | _ =>
            (dom_writes (call_row c)
               (renderSuggestions results (Some DISPLAY_LIMIT) None) s,
             Returned)
        end
  end.

Definition search_catch (c : SearchCall) (s : State) : State * Completion :=
  if stale c s then (s, Returned)
  else (dom_writes (call_row c) (renderMessage "Search failed") s, Returned).

(** A call of [fetchRemoteProducts] after one stretch. *)
Definition finish_search (id : positive) (c : SearchCall)
    (sc : State * Completion) : State :=
  match sc with
  | (s, Suspended st) =>
      set_calls
        (<[id := mkCall (call_row c) (call_query c) (call_requestId c) st]>
           (calls s)) (next_call s) s
  | (s, Returned) =>
      emit [EffSettled (SearchAsync id) Fulfilled]
        (set_calls (delete id (calls s)) (next_call s) s)
  | (s, Thrown) =>
      emit [EffSettled (SearchAsync id) Rejected]
        (set_calls (delete id (calls s)) (next_call s) s)
  end.

(** [fetchRemoteProducts(query, box, row, requestId)] up to its first
    [await]: nothing for a query shorter than 2, else the request is sent. *)
Definition fetchRemoteProducts (query : string) (r : nat) (requestId : string)
    (s : State) : State :=
  let id := next_call s in
  let s := set_calls (calls s) (Pos.succ id) s in
  if (JS.length query <? 2)%Z then
    finish_search id (mkCall r query requestId AwaitFetch) (s, Returned)
  else
    finish_search id (mkCall r query requestId AwaitFetch)
      (emit [EffFetch (GetSearch query)] s, Suspended AwaitFetch).

(** ** The listeners of a row *)

(** [openPrefetch()], the body of the focus listener. *)
Definition openPrefetch (r : nat) (s : State) : State :=
  match prefetchCache s with
  | _ :: _ =>
      dom_writes r
        (renderSuggestions (JS.slice0 DISPLAY_LIMIT (prefetchCache s)) None
           (Some "No products loaded yet.")) s
  | [] =>
      let s := dom_writes r (renderMessage "Loading warehouse products...") s in
      let s := loadPrefetch s in
      match prefetchPromise s with
      | Some LoadSettled => prefetch_then r s
      | _ => set_waiters (waiters s ++ [r]) s
      end
  end.

(** [handleSearchInput()], the body of the input listener; [now] is what
    [Date.now()] returns. *)
Definition handleSearchInput (r : nat) (now : Z) (s : State) : State :=
  match rows s !! r with
  | None => s
  | Some row =>
      let query := JS.trim (search_value row) in
      let s := dom_writes r [SetProductId ""; SetMaxQty ""; RemoveMaxAttr] s in
      let s := match localTimer row with
               | Some id => clearTimeout id s
               | None => s
               end in
      let matches := filterLocalProducts (prefetchCache s) query in
      let s := dom_writes r
                 (renderSuggestions matches None
                    (Some (if JS.truthy query then "No local matches"
                           else "No products yet."))) s in
      if (2 <=? JS.length query)%Z then
        let requestId := JS.String_of now in
        let s := dom_writes r [SetRemoteRequestId requestId] s in
        let '(id, s) := setTimeout (Debounce r query requestId) 220 s in
        update_row r (set_localTimer (Some id)) s
      else s
  end.

(** The focus listener. *)
Definition on_focus (r : nat) (s : State) : State :=
  match rows s !! r with
  | None => s
  | Some row =>
      let s := match hideTimer row with
               | Some id => clearTimeout id s
               | None => s
               end in
      openPrefetch r s
  end.

(** The blur listener. *)
Definition on_blur (r : nat) (s : State) : State :=
  let '(id, s) := setTimeout (HideSuggest r) 150 s in
  update_row r (set_hideTimer (Some id)) s.

(** The input listener of the quantity field. *)
Definition on_qty_input (r : nat) (s : State) : State :=
  match rows s !! r with
  | None => s
  | Some row => dom_writes r (updateAvailabilityMessage row) s
  end.

(** The click listener of a suggestion of row [r] for [product]. *)
Definition on_select (r : nat) (product : Product) (s : State) : State :=
  match rows s !! r with
  | None => s
  | Some row => dom_writes r (selectProduct row product ++ [HideBox]) s
  end.

(** A timeout fires. *)
Definition run_timer (task : TimerTask) (s : State) : State :=
  match task with
  | Debounce r query requestId => fetchRemoteProducts query r requestId s
  | HideSuggest r => dom_writes r [HideBox] s
  end.

(** ** Rows of the order table *)

(** A property of [defaults] that is tested with [typeof]: missing, [null],
    or a value, taken as the string an assignment to a field makes of it. *)
Inductive Given :=
  | Undefined
  | Null
  | Value (text : string).

(** The [defaults] argument of [createRow]: the product, if there is one;
    the quantity; the expected date and the notes, as strings, [None]
    standing for a missing or null one. *)
Record Defaults := mkDefaults {
  d_product : option Product;
  d_qty : Given;
  d_expected_date : option string;
  d_notes : option string
}.

Definition no_defaults : Defaults := mkDefaults None Undefined None None.

(** [createRow(defaults)]; the new row gets the next free index. The
    quantity is assigned unless it is undefined, [null] giving the empty
    string; the quantity field is a number field, the date field a date
    field and the notes field a text field, and each keeps what its
    sanitization makes of the value. *)
Definition createRow (d : Defaults) (s : State) : nat * State :=
  let r := next_row s in
  let s := set_next_row (S r) (set_rows (<[r := blank_row]> (rows s)) s) in
  let s := match d_product d with
           | Some p => dom_writes r (selectProduct blank_row p) s
           | None => s
           end in
  let s := match d_qty d with
           | Undefined => s
           | Null => dom_writes r [SetQty ""] s
           | Value q => dom_writes r [SetQty (JS.sanitize_number q)] s
           end in
  let s := if JS.truthy (JS.or_else (d_expected_date d) "")
           then dom_writes r
                  [SetExpectedDate
                     (JS.sanitize_date (JS.or_else (d_expected_date d) ""))] s
           else s in
  let s := if JS.truthy (JS.or_else (d_notes d) "")
           then dom_writes r
                  [SetNotes (JS.strip_newlines (JS.or_else (d_notes d) ""))] s
           else s in
  (r, s).

(** [addRow(container, defaults)]. *)
Definition addRow (d : Defaults) (s : State) : State :=
  let '(r, s) := createRow d s in
  set_container (container s ++ [r]) s.

(** The rows of the container, in document order. *)
Definition container_rows (s : State) : list Row :=
  omap (fun r => rows s !! r) (container s).

(** ** The event loop *)

Inductive Event :=
  | AddRow (d : Defaults)                    (* WarehouseOrderPicker.addRow *)
  | RemoveRow (r : nat)                      (* click on .remove-row *)
  | Focus (r : nat)                          (* focus on .product-search *)
  | Blur (r : nat)                           (* blur on .product-search *)
  | Input (r : nat) (text : string) (now : Z)   (* input on .product-search *)
  | QtyInput (r : nat) (text : string)       (* input on .qty *)
  | Click (r : nat) (i : nat)                (* click on the i-th box child *)
  | Timer (id : positive)                    (* a timeout fires *)
  | SearchFetched (call : positive) (o : FetchOutcome)
  | SearchParsed (call : positive) (o : JsonOutcome)
  | PrefetchFetched (o : FetchOutcome)
  | PrefetchParsed (o : JsonOutcome).

Definition step (s : State) (e : Event) : State :=
  match e with
  | AddRow d => addRow d s
  | RemoveRow r =>
      let s := set_container (filter (fun x => x ≠ r) (container s)) s in
      if bool_decide (activeElement s = Some r)
      then set_activeElement None s else s
  | Focus r =>
      match rows s !! r with
      | Some _ => on_focus r (set_activeElement (Some r) s)
      | None => s
      end
  | Blur r =>
      match rows s !! r with
      | Some _ =>
          on_blur r
            (if bool_decide (activeElement s = Some r)
             then set_activeElement None s else s)
      | None => s
      end
  | Input r text now =>
      handleSearchInput r now (update_row r (apply_write (SetSearch text)) s)
  | QtyInput r text =>
      on_qty_input r (update_row r (apply_write (SetQty text)) s)
  | Click r i =>
      match rows s !! r with
      | Some row =>
          match box_items (suggest_box row) !! i with
          | Some (SuggestionItem p) => on_select r p s
          | _ => s
          end
      | None => s
      end
  | Timer id =>
      match timers s !! id with
      | Some task =>
          run_timer task (set_timers (delete id (timers s)) (next_timer s) s)
      | None => s
      end
  | SearchFetched id o =>
      match calls s !! id with
      | Some c =>
          match call_stage c with
          | AwaitFetch =>
              finish_search id c
                (try_catch (search_after_fetch c o s) (search_catch c))
          | AwaitJson => s
          end
      | None => s
      end
  | SearchParsed id o =>
      match calls s !! id with
      | Some c =>
          match call_stage c with
          | AwaitJson =>
              finish_search id c
                (try_catch (search_after_json c o s) (search_catch c))
          | AwaitFetch => s
          end
      | None => s
      end
  | PrefetchFetched o =>
      match prefetchPromise s with
      | Some (LoadPending AwaitFetch) =>
          finish_prefetch (try_catch (prefetch_after_fetch o s) prefetch_catch)
      | _ => s
      end
  | PrefetchParsed o =>
      match prefetchPromise s with
      | Some (LoadPending AwaitJson) =>
          finish_prefetch (try_catch (prefetch_after_json o s) prefetch_catch)
      | _ => s
      end
  end.

Definition run (s : State) (es : list Event) : State := fold_left step es s.

(** The page once the script has run: its last statement is
    [loadPrefetch()]. *)
Definition init : State := loadPrefetch empty_page.

(** ** Vocabulary of the specification *)

(** [field] contains [x] when case is ignored. *)
Definition contains_ci (field : option string) (x : string) : bool :=
  JS.includes (JS.toLowerCase (JS.or_else field "")) (JS.toLowerCase x).

(** The name, the SKU or the tag of [p] contains [x], case ignored. *)
Definition field_contains (p : Product) (x : string) : bool :=
  contains_ci (name p) x || contains_ci (sku p) x || contains_ci (tag p) x.

(** The test [filterLocalProducts] makes on a product. *)
Definition matches_query (x : string) (p : Product) : bool :=
  JS.includes (combined p) (JS.toLowerCase x).

(** A small catalogue used in the examples. *)
Definition blue_pen : Product :=
  mkProduct (Some "p1") (Some "Blue Pen") (Some "BP1") None (Some (JS.of_Z 5)) None.
Definition red_pen : Product :=
  mkProduct (Some "p2") (Some "Red Pen") None None None None.
Definition pens : list Product := [blue_pen; red_pen].

(** The page with the catalogue loaded, one row added and its search box
    focused: the box lists [blue_pen] then [red_pen]. *)
Definition focused_page : State :=
  run init
    [PrefetchFetched (FetchResponse 200); PrefetchParsed (JsonObject (Some pens));
     AddRow no_defaults; Focus 0%nat].

Definition focused_row : Row :=
  Eval vm_compute in default blank_row (rows focused_page !! 0%nat).

(** *** What [gatherItems] owes for each row

    [bounded m] says when a stored bound [m] limits the quantity. *)
Section Verdicts.

Variable bounded : Z -> bool.

Inductive verdict (index : nat) (row : Row) : RowResult -> Prop :=
  | unselected_error :
      JS.trim (product_id_value row) = "" ->
      0 < JS.parseInt_or0 (Some (qty_value row)) \/
      JS.trim (search_value row) <> "" ->
      verdict index row
        (Error ("Row " +:+ JS.String_of (Z.of_nat index + 1) +:+
                ": select a warehouse product."))
  | unselected_skipped :
      JS.trim (product_id_value row) = "" ->
      JS.parseInt_or0 (Some (qty_value row)) <= 0 ->
      JS.trim (search_value row) = "" ->
      verdict index row Skipped
  | quantity_error :
      JS.trim (product_id_value row) <> "" ->
      JS.parseInt_or0 (Some (qty_value row)) < 1 ->
      verdict index row
        (Error ("Row " +:+ JS.String_of (Z.of_nat index + 1) +:+
                ": quantity must be at least 1."))
  | stock_error :
      JS.trim (product_id_value row) <> "" ->
      1 <= JS.parseInt_or0 (Some (qty_value row)) ->
      bounded (JS.parseInt_or0 (qty_maxQty row)) = true ->
      JS.parseInt_or0 (qty_maxQty row) < JS.parseInt_or0 (Some (qty_value row)) ->
      verdict index row
        (Error ("Row " +:+ JS.String_of (Z.of_nat index + 1) +:+
                ": requested quantity (" +:+
                JS.String_of (JS.parseInt_or0 (Some (qty_value row))) +:+
                ") exceeds available stock (" +:+
                JS.String_of (JS.parseInt_or0 (qty_maxQty row)) +:+ ")."))
  | accepted :
      JS.trim (product_id_value row) <> "" ->
      1 <= JS.parseInt_or0 (Some (qty_value row)) ->
      bounded (JS.parseInt_or0 (qty_maxQty row)) = false \/
      JS.parseInt_or0 (Some (qty_value row)) <= JS.parseInt_or0 (qty_maxQty row) ->
      verdict index row
        (Gathered
           (mkItem (JS.trim (product_id_value row))
              (JS.parseInt_or0 (Some (qty_value row)))
              (if JS.truthy (expected_date_value row)
               then Some (expected_date_value row) else None)
              (JS.trim (notes_value row)))).

(** One verdict per row, the rows numbered from [index] in document
    order. *)
Inductive verdicts : nat -> list Row -> list RowResult -> Prop :=
  | verdicts_nil index : verdicts index [] []
  | verdicts_cons index row rows v vs :
      verdict index row v -> verdicts (S index) rows vs ->
      verdicts index (row :: rows) (v :: vs).

Definition item_of (v : RowResult) : option Item :=
  match v with Gathered i => Some i | _ => None end.

Definition error_of (v : RowResult) : option string :=
  match v with Error e => Some e | _ => None end.


End Verdicts.



(** *** Requests sent *)

Definition is_prefetch_request (e : Effect) : bool :=
  match e with EffFetch (GetPrefetch _) => true | _ => false end.

(** How many requests have gone to the prefetch endpoint. *)
Definition prefetch_requests (s : State) : nat :=
  length (List.filter is_prefetch_request (effects s)).

(** The queries sent to the search endpoint, oldest first. *)
Definition search_requests (s : State) : list string :=
  omap (fun e => match e with EffFetch (GetSearch q) => Some q | _ => None end)
       (effects s).

(** Between two tasks any code of the script may call [loadPrefetch()]. *)
Inductive Action :=
  | Call_loadPrefetch
  | Task (e : Event).

Definition perform (s : State) (a : Action) : State :=
  match a with
  | Call_loadPrefetch => loadPrefetch s
  | Task e => step s e
  end.

Definition perform_all (s : State) (acts : list Action) : State :=
  fold_left perform acts s.

(** *** Failures of the network *)

(** The prefetch of page [s] fails with task [e]: [fetch] rejects, the
    status is not a success, or the body cannot be read. *)
Inductive prefetch_failure (s : State) : Event -> Prop :=
  | prefetch_rejected :
      prefetchPromise s = Some (LoadPending AwaitFetch) ->
      prefetch_failure s (PrefetchFetched FetchRejected)
  | prefetch_bad_status status :
      prefetchPromise s = Some (LoadPending AwaitFetch) ->
      ok status = false ->
      prefetch_failure s (PrefetchFetched (FetchResponse status))
  | prefetch_body_rejected :
      prefetchPromise s = Some (LoadPending AwaitJson) ->
      prefetch_failure s (PrefetchParsed JsonRejected).

(** The search call [id], suspended as [c], fails with task [e]; [message]
    is the placeholder the script has for that failure. *)
Inductive search_failure (id : positive) (c : SearchCall)
    : Event -> string -> Prop :=
  | search_rejected :
      call_stage c = AwaitFetch ->
      search_failure id c (SearchFetched id FetchRejected) "Search failed"
  | search_bad_status status :
      call_stage c = AwaitFetch ->
      ok status = false ->
      search_failure id c (SearchFetched id (FetchResponse status))
        ("Search failed (" +:+ JS.String_of status +:+ ")")
  | search_body_rejected :
      call_stage c = AwaitJson ->
      search_failure id c (SearchParsed id JsonRejected) "Search failed".

Definition is_dom_write (e : Effect) : Prop := exists r w, e = EffDom r w.

Definition is_rejection (e : Effect) : Prop := exists a, e = EffSettled a Rejected.

(** The page with one row whose query "ab" (typed at clock reading 1000)
    has been sent to the search endpoint as call 1. *)
Definition searching_page : State :=
  run init [AddRow no_defaults; Input 0%nat "ab" 1000; Timer 1%positive].

(** The same page after a click on the first suggestion. *)
Definition selected_page : State := step focused_page (Click 0 0).

Definition selected_row : Row :=
  Eval vm_compute in default blank_row (rows selected_page !! 0%nat).

(** *** Tokens and debounce timers of a row *)

(** The token a write gives row [r], if it is one. *)
Definition token_written (r : nat) (e : Effect) : option string :=
  match e with
  | EffDom r' (SetRemoteRequestId t) =>
      if bool_decide (r' = r) then Some t else None
  | _ => None
  end.

(** Every token row [r] has been given so far, oldest first. *)
Definition tokens_of (r : nat) (s : State) : list string :=
  omap (token_written r) (effects s).

(** The clock readings of the text changes of row [r] in a run. *)
Definition readings_of (r : nat) (es : list Event) : list Z :=
  omap (fun e => match e with
                 | Input r' _ now => if bool_decide (r' = r) then Some now else None
                 | _ => None
                 end) es.

(** Timeout [id] is pending and will start a remote lookup for row [r]. *)
Definition pending_debounce (s : State) (r : nat) (id : positive) : Prop :=
  exists query requestId, timers s !! id = Some (Debounce r query requestId).

(** The page with one row where "ab" was typed at clock reading 1000. *)
Definition typed_page : State :=
  run init [AddRow no_defaults; Input 0%nat "ab" 1000].

Definition typed_row : Row :=
  Eval vm_compute in default blank_row (rows typed_page !! 0%nat).

(** *** A response that arrives late *)

Definition pencil : Product :=
  mkProduct (Some "p7") (Some "Pencil") None None None None.

(** The catalogue is loaded and a row is added; "pe" is typed at clock
    reading 1000, its debounce timer fires and the lookup is sent as call 1;
    then the text is replaced by "r" at reading 5000; only then the response
    to the lookup for "pe" arrives and is parsed. *)
Definition late_response : list Event :=
  [PrefetchFetched (FetchResponse 200); PrefetchParsed (JsonObject (Some pens));
   AddRow no_defaults;
   Input 0%nat "pe" 1000; Timer 1%positive;
   Input 0%nat "r" 5000;
   SearchFetched 1%positive (FetchResponse 200);
   SearchParsed 1%positive (JsonObject (Some [pencil]))].

(** ** Invariants and frames used in the proofs *)

(** Rendering writes to the suggestion box and to nothing else. *)
Definition box_only (w : DomWrite) : bool :=
  match w with
  | ClearBox | AppendBox _ | ShowBox | HideBox => true
  | _ => false
  end.

(** Only [handleSearchInput] writes a request token. *)
Definition is_token_write (w : DomWrite) : bool :=
  match w with SetRemoteRequestId _ => true | _ => false end.

Definition plain (ws : list DomWrite) : Prop :=
  Forall (fun w => is_token_write w = false) ws.

(** [s'] has the cache and the prefetch promise of [s]. *)
Definition same_prefetch (s s' : State) : Prop :=
  prefetchCache s' = prefetchCache s /\ prefetchPromise s' = prefetchPromise s /\
  waiters s' = waiters s.

(** Apart from the focus listener and the settlement of the prefetch
    itself, no task touches the cache, its promise or the callbacks waiting
    on it. *)
Definition touches_prefetch (e : Event) : bool :=
  match e with
  | Focus _ | PrefetchFetched _ | PrefetchParsed _ => true
  | _ => false
  end.

Definition no_prefetch_request (e : Effect) : Prop :=
  is_prefetch_request e = false.

(** While the prefetch is pending the cache is still empty. *)
Definition pending_empty (s : State) : Prop :=
  forall stage, prefetchPromise s = Some (LoadPending stage) -> prefetchCache s = [].

Definition long_enough (e : Effect) : Prop :=
  forall q, e = EffFetch (GetSearch q) -> 2 <= JS.length q.

(** Row indices are fresh, and a pending debounce timer of a row is the one
    its [localTimer] names. *)
Definition timers_tracked (s : State) : Prop :=
  (forall r row, rows s !! r = Some row -> (r < next_row s)%nat) /\
  (forall id r q t,
      timers s !! id = Some (Debounce r q t) ->
      exists row, rows s !! r = Some row /\ localTimer row = Some id).

(** [s'] has no debounce timer that [s] has not, the same row counter and
    the same [localTimer] in every row. *)
Definition quiet (s s' : State) : Prop :=
  (forall id r q t,
      timers s' !! id = Some (Debounce r q t) ->
      timers s !! id = Some (Debounce r q t)) /\
  next_row s' = next_row s /\
  (forall r, localTimer <$> rows s' !! r = localTimer <$> rows s !! r).

(** Every token of row [r] is the reading of one of its text changes. *)
Definition token_from (r : nat) (readings : list Z) (e : Effect) : Prop :=
  forall t, token_written r e = Some t ->
            exists z, In z readings /\ t = JS.String_of z.

(** [s'] has the effects of [s] and then some that satisfy [P]. *)
Definition adds_only (P : Effect -> Prop) (s s' : State) : Prop :=
  exists new, effects s' = effects s ++ new /\ Forall P new.

(** ** The order page that uses the picker

    The page script that calls [WarehouseOrderPicker.addRow] and
    [WarehouseOrderPicker.gatherItems]: its notes field, its alert box and
    [submitWarehouseOrder]. *)

(** [#alertBox] inside [#alertWrap]. *)
Record Alert := mkAlert {
  alert_class : string;     (* box.className *)
  alert_text : string;      (* box.textContent *)
  alert_visible : bool      (* wrap.style.display is not "none" *)
}.

(** The body of the POST to [/manager/orders/create]. *)
Record Payload := mkPayload {
  payload_notes : string;
  payload_items : list Item
}.

Record OrderPage := mkOrderPage {
  picker : State;               (* the picker script and the rows of #rows *)
  notes_field : string;         (* notesField.value *)
  alert : Alert;
  alert_timeouts : nat;         (* timeouts of showMessage not yet fired *)
  posts : list Payload          (* orders posted, oldest first *)
}.

(** [showMessage(msg, type)]: the alert is shown and a timeout of 4 s is set
    to hide it. *)
Definition showMessage (msg type : string) (p : OrderPage) : OrderPage :=
  mkOrderPage (picker p) (notes_field p)
    (mkAlert ("alert alert-" +:+ type) msg true)
    (S (alert_timeouts p)) (posts p).

(** A timeout of [showMessage] fires. *)
Definition hide_alert (p : OrderPage) : OrderPage :=
  match alert_timeouts p with
  | O => p
  | S n =>
      mkOrderPage (picker p) (notes_field p)
        (mkAlert (alert_class (alert p)) (alert_text (alert p)) false)
        n (posts p)
  end.

(** [submitWarehouseOrder()] up to [await fetch(...)]: the first error of
    [gatherItems] or the lack of items is shown and nothing is sent;
    otherwise the order is posted. *)
Definition submitWarehouseOrder (p : OrderPage) : OrderPage :=
  let g := gatherItems (container_rows (picker p)) in
  match errors g with
  | e :: _ => showMessage e "danger" p
  | [] =>
      match items g with
      | [] => showMessage "Add at least one valid warehouse product." "danger" p
      | _ :: _ =>
          mkOrderPage (picker p) (notes_field p) (alert p) (alert_timeouts p)
            (posts p ++ [mkPayload (JS.trim (notes_field p)) (items g)])
      end
  end.

(** How the request and the reading of its body end: with an exception
    (a rejected [fetch] or [res.json()], or a body that is [null]) whose
    [message] the engine provides, or with an object whose [ok] is truthy or
    not and whose [message] may be absent. *)
Inductive PostOutcome :=
  | PostFailed (message : string)
  | PostAnswered (ok : bool) (message : option string).

(** [rows.innerHTML = ""]: every row leaves the document, and with it the
    focus any of their search boxes had. *)
Definition clear_rows (s : State) : State :=
  set_activeElement None (set_container [] s).

(** The rest of [submitWarehouseOrder()] once the answer is there. *)
Definition submit_settled (o : PostOutcome) (p : OrderPage) : OrderPage :=
  match o with
  | PostAnswered true _ =>
      showMessage "Order submitted successfully and sent to Inventory." "success"
        (mkOrderPage (addRow no_defaults (clear_rows (picker p))) ""
           (alert p) (alert_timeouts p) (posts p))
  | PostAnswered false message =>
      showMessage
        (JS.or_else (Some (JS.or_else message "Failed to create order."))
           "Failed to submit order.")
        "danger" p
  | PostFailed message =>
      showMessage (JS.or_else (Some message) "Failed to submit order.") "danger" p
  end.

(** The order page when its script has run: the picker is loaded, the notes
    are empty and one row has been added; [a] is the alert of the markup. *)
Definition order_page (a : Alert) : OrderPage :=
  mkOrderPage (addRow no_defaults init) "" a 0 [].

(** ** What an order line is read from *)

(** The writes to the fields [gatherItems] reads. *)
Definition form_write (w : DomWrite) : bool :=
  match w with
  | SetSearch _ | SetProductId _ | SetQty _ | SetMaxQty _
  | SetExpectedDate _ | SetNotes _ => true
  | _ => false
  end.

(** Two rows agree on the fields [gatherItems] reads. *)
Definition same_form (a b : Row) : Prop :=
  search_value a = search_value b /\
  product_id_value a = product_id_value b /\
  qty_value a = qty_value b /\
  qty_maxQty a = qty_maxQty b /\
  expected_date_value a = expected_date_value b /\
  notes_value a = notes_value b.


(** The one row a task can write to: the row it creates, the row of the
    listener, of the timer or of the suspended call, and for the settlement
    of the prefetch the row whose search box has the focus. *)
Definition touched (s : State) (e : Event) : option nat :=
  match e with
  | AddRow _ => Some (next_row s)
  | RemoveRow _ => None
  | Focus r | Blur r | Input r _ _ | QtyInput r _ | Click r _ => Some r
  | Timer id =>
      match timers s !! id with
      | Some (Debounce r _ _) | Some (HideSuggest r) => Some r
      | None => None
      end
  | SearchFetched id _ | SearchParsed id _ => call_row <$> calls s !! id
  | PrefetchFetched _ | PrefetchParsed _ => activeElement s
  end.

(** The tasks that stand for the user editing the order: adding or removing
    a row, typing into it, clicking a suggestion. *)
Definition user_edit (e : Event) : bool :=
  match e with
  | AddRow _ | RemoveRow _ | Input _ _ _ | QtyInput _ _ | Click _ _ => true
  | _ => false
  end.

(** [s'] differs from [s] in row [r] at most, and there in nothing that
    [gatherItems] reads. *)
Definition only_box (r : option nat) (s s' : State) : Prop :=
  container s' = container s /\
  (forall r', r <> Some r' -> rows s' !! r' = rows s !! r') /\
  (forall r', option_Forall2 same_form (rows s !! r') (rows s' !! r')).

(** The row [createRow(defaults)] returns. *)
Definition created_row (d : Defaults) : Row :=
  let row := blank_row in
  let row := match d_product d with
             | Some p => apply_writes (selectProduct blank_row p) row
             | None => row
             end in
  let row := match d_qty d with
             | Undefined => row
             | Null => apply_writes [SetQty ""] row
             | Value q => apply_writes [SetQty (JS.sanitize_number q)] row
             end in
  let row := if JS.truthy (JS.or_else (d_expected_date d) "")
             then apply_writes
                    [SetExpectedDate
                       (JS.sanitize_date (JS.or_else (d_expected_date d) ""))]
                    row
             else row in
  if JS.truthy (JS.or_else (d_notes d) "")
  then apply_writes
         [SetNotes (JS.strip_newlines (JS.or_else (d_notes d) ""))] row
  else row.

(** The rows attached to the table were created before. *)
Definition attached_known (s : State) : Prop :=
  forall r, r ∈ container s -> (r < next_row s)%nat.


(** *** Rows as the order page sees them *)

(** A row with nothing in it: no product, no text, no positive quantity. *)
Definition is_blank (row : Row) : bool :=
  negb (JS.truthy (JS.trim (product_id_value row))) &&
  negb (JS.truthy (JS.trim (search_value row))) &&
  (JS.parseInt_or0 (Some (qty_value row)) <=? 0).

(** A row that is an order line: a product, a quantity of at least 1 that
    does not exceed a stored bound other than 0. *)
Definition is_line (row : Row) : bool :=
  JS.truthy (JS.trim (product_id_value row)) &&
  (1 <=? JS.parseInt_or0 (Some (qty_value row))) &&
  ((JS.parseInt_or0 (qty_maxQty row) =? 0) ||
   (JS.parseInt_or0 (Some (qty_value row)) <=? JS.parseInt_or0 (qty_maxQty row))).

(** The order line read from a row. *)
Definition line_of (row : Row) : Item :=
  mkItem (JS.trim (product_id_value row))
    (JS.parseInt_or0 (Some (qty_value row)))
    (if JS.truthy (expected_date_value row)
     then Some (expected_date_value row) else None)
    (JS.trim (notes_value row)).

(** The order page with [rows] in its table and [notes] in its notes
    field. *)
Definition page_with (s : State) (notes : string) : OrderPage :=
  mkOrderPage s notes (mkAlert "" "" false) 0 [].

(** * Proofs *)

(** ** Strings *)

Lemma append_cons (x : ascii) (a b : string) :
  String x a +:+ b = String x (a +:+ b).
Proof. reflexivity. Qed.


Lemma append_assoc (a b c : string) : (a +:+ b) +:+ c = a +:+ (b +:+ c).
Proof.
  induction a as [|x a IH]; [reflexivity |].
  rewrite !append_cons. now f_equal.
Qed.

Lemma append_nil_r (a : string) : a +:+ "" = a.
Proof.
  induction a as [|x a IH]; [reflexivity |].
  rewrite append_cons. now f_equal.
Qed.

Lemma startsWith_spec (s p : string) :
  JS.startsWith s p = true <-> exists t, s = p +:+ t.
Proof.
  revert s. induction p as [|a p IH]; intros s; simpl.
  - split; [intros _; now exists s | reflexivity].
  - destruct s as [|b s]; simpl.
    + split; [discriminate | intros [t Ht]; discriminate].
    + rewrite andb_true_iff, Ascii.eqb_eq, IH. split.
      * intros [-> [t ->]]. now exists t.
      * intros [t Ht]. rewrite append_cons in Ht. injection Ht as -> ->.
        split; [reflexivity | now exists t].
Qed.

Lemma includes_spec (s needle : string) :
  JS.includes s needle = true <-> exists pre post, s = pre +:+ needle +:+ post.
Proof.
  induction s as [|a s IH].
  - simpl. rewrite orb_false_r, startsWith_spec. split.
    + intros [t Ht]. now exists "", t.
    + intros (pre & post & H). destruct pre; [now exists post | discriminate].
  - cbn [JS.includes]. rewrite orb_true_iff, startsWith_spec, IH. split.
    + intros [[t Ht] | (pre & post & Hs)].
      * now exists "", t.
      * exists (String a pre), post. rewrite append_cons. now rewrite Hs.
    + intros (pre & post & H). destruct pre as [|b pre].
      * left. now exists post.
      * right. rewrite append_cons in H. injection H as _ ->.
        now exists pre, post.
Qed.

Lemma includes_app_l (s t needle : string) :
  JS.includes s needle = true -> JS.includes (s +:+ t) needle = true.
Proof.
  rewrite !includes_spec. intros (pre & post & ->).
  exists pre, (post +:+ t). now rewrite !append_assoc.
Qed.

Lemma includes_app_r (s t needle : string) :
  JS.includes t needle = true -> JS.includes (s +:+ t) needle = true.
Proof.
  rewrite !includes_spec. intros (pre & post & ->).
  exists (s +:+ pre), post. now rewrite !append_assoc.
Qed.

(** ** The local filter *)

Lemma combined_eq (p : Product) :
  combined p =
  JS.toLowerCase (JS.or_else (name p) "") +:+ " " +:+
  JS.toLowerCase (JS.or_else (sku p) "") +:+ " " +:+
  JS.toLowerCase (JS.or_else (tag p) "").
Proof. reflexivity. Qed.

(** A match inside one field is a match of the joined text. *)
Lemma field_contains_matches (p : Product) (x : string) :
  field_contains p x = true -> matches_query x p = true.
Proof.
  unfold field_contains, contains_ci, matches_query. rewrite combined_eq.
  rewrite !orb_true_iff. intros [[H | H] | H].
  - now apply includes_app_l.
  - apply includes_app_r. now apply includes_app_r, includes_app_l.
  - now do 4 apply includes_app_r.
Qed.

Lemma firstn_exact {A} (n : nat) (l1 l2 : list A) :
  length l1 = n -> firstn n (l1 ++ l2) = l1.
Proof.
  intros <-. rewrite firstn_app, Nat.sub_diag, firstn_all.
  cbn [firstn]. apply app_nil_r.
Qed.

Lemma filter_loop_spec (needle : string) (cache acc : list Product) :
  (length acc < DISPLAY_LIMIT)%nat ->
  filter_loop needle cache acc (length acc) =
  firstn DISPLAY_LIMIT
    (rev acc ++ List.filter (fun p => JS.includes (combined p) needle) cache).
Proof.
  revert acc.
  induction cache as [|p rest IH]; intros acc Hlt; cbn [filter_loop List.filter].
  - rewrite app_nil_r, firstn_all2; [reflexivity | rewrite length_rev; lia].
  - destruct (JS.includes (combined p) needle).
    + destruct (Nat.leb_spec DISPLAY_LIMIT (S (length acc))) as [Hfull | Hroom].
      * cbn [rev].
        replace (rev acc ++
                 p :: List.filter (fun p0 => JS.includes (combined p0) needle) rest)
          with ((rev acc ++ [p]) ++
                List.filter (fun p0 => JS.includes (combined p0) needle) rest)
          by now rewrite <- app_assoc.
        symmetry. apply firstn_exact.
        rewrite length_app, length_rev. cbn [length]. lia.
      * change (S (length acc)) with (length (p :: acc)).
        rewrite IH by (cbn [length]; lia).
        cbn [rev]. now rewrite <- app_assoc.
    + now apply IH.
Qed.

Lemma filterLocalProducts_nonempty (cache : list Product) (x : string) :
  x <> "" ->
  filterLocalProducts cache x =
  firstn DISPLAY_LIMIT (List.filter (matches_query x) cache).
Proof.
  intros Hx. unfold filterLocalProducts. destruct cache as [|p cache].
  - reflexivity.
  - destruct x as [|c x]; [congruence |]. cbn [JS.truthy negb].
    exact (filter_loop_spec (JS.toLowerCase (String c x)) (p :: cache) []
             ltac:(unfold DISPLAY_LIMIT; cbn [length]; lia)).
Qed.

Lemma filterLocalProducts_empty (cache : list Product) :
  filterLocalProducts cache "" = firstn DISPLAY_LIMIT cache.
Proof. destruct cache; reflexivity. Qed.

Lemma handleSearchInput_cache (r : nat) (now : Z) (s : State) :
  prefetchCache (handleSearchInput r now s) = prefetchCache s.
Proof.
  unfold handleSearchInput.
  destruct (rows s !! r) as [row|]; [| reflexivity].
  destruct (localTimer row); destruct (2 <=? _); reflexivity.
Qed.

(** C2, as the specification words it, fails: a query with a space in it
    can match across the boundary between two fields. The query "pen bp1"
    returns the product named "Blue Pen" with SKU "BP1", though neither its
    name, its SKU nor its tag contains "pen bp1". *)
Lemma filter_matches_across_fields :
  ~ (forall (cache : list Product) (x : string) (p : Product),
        x <> "" -> In p (filterLocalProducts cache x) ->
        field_contains p x = true).
Proof.
  intros H.
  specialize (H pens "pen bp1" blue_pen ltac:(discriminate)
                ltac:(vm_compute; left; reflexivity)).
  vm_compute in H. discriminate.
Qed.

(** C2 (amended): for every cache and query, [filter("")] is the first 30
    cached entries in their order; for a non-empty [x], [filter(x)] is, in
    cache order and capped at 30, the entries whose lower-cased name, SKU and
    tag joined by single spaces contain lower-cased [x]; every entry whose
    name, SKU or tag contains [x] with case ignored is such an entry; and
    the cache is left as it was. *)
Theorem filterLocalProducts_spec (cache : list Product) (x : string) :
  filterLocalProducts cache "" = firstn DISPLAY_LIMIT cache /\
  (x <> "" ->
   filterLocalProducts cache x =
   firstn DISPLAY_LIMIT (List.filter (matches_query x) cache)) /\
  (forall p, field_contains p x = true -> matches_query x p = true) /\
  (length (filterLocalProducts cache x) <= DISPLAY_LIMIT)%nat /\
  (forall s r now, prefetchCache (handleSearchInput r now s) = prefetchCache s).
Proof.
  split; [apply filterLocalProducts_empty |].
  split; [apply filterLocalProducts_nonempty |].
  split; [intros p; apply field_contains_matches |].
  split; [| intros; apply handleSearchInput_cache].
  destruct x as [|c x].
  - rewrite filterLocalProducts_empty. apply firstn_le_length.
  - rewrite filterLocalProducts_nonempty by discriminate. apply firstn_le_length.
Qed.

Lemma filterLocalProducts_spec_witness :
  filterLocalProducts pens "blu" =
  firstn DISPLAY_LIMIT (List.filter (matches_query "blu") pens).
Proof.
  exact (proj1 (proj2 (filterLocalProducts_spec pens "blu"))
           ltac:(discriminate)).
Defined.

(** ** [parseInt] reads back what [String] prints *)

Lemma digits_uint_acc (d : Decimal.uint) (acc : positive) :
  JS.digits (NilEmpty.string_of_uint d) (Some (Z.pos acc)) =
  Some (Z.pos (Pos.of_uint_acc d acc)).
Proof.
  revert acc.
  induction d as [|d IH|d IH|d IH|d IH|d IH|d IH|d IH|d IH|d IH|d IH];
    intros acc; [reflexivity | ..];
    cbn [NilEmpty.string_of_uint JS.digits Pos.of_uint_acc];
    match goal with
    | |- context [JS.digit ?c] =>
        let v := eval vm_compute in (JS.digit c) in
        change (JS.digit c) with v
    end;
    cbn [from_option id]; rewrite <- IH; do 2 f_equal; lia.
Qed.

Lemma digits_uint_zero (d : Decimal.uint) :
  JS.digits (NilEmpty.string_of_uint d) (Some 0) = Some (Z.of_N (Pos.of_uint d)).
Proof.
  induction d as [|d IH|d IH|d IH|d IH|d IH|d IH|d IH|d IH|d IH|d IH];
    [reflexivity | ..];
    cbn [NilEmpty.string_of_uint JS.digits Pos.of_uint];
    match goal with
    | |- context [JS.digit ?c] =>
        let v := eval vm_compute in (JS.digit c) in
        change (JS.digit c) with v
    end;
    cbn [from_option id]; [exact IH | ..];
    (etransitivity; [apply (digits_uint_acc d) |]); reflexivity.
Qed.

(** The digits of a positive number: no sign, no leading white space. *)
Lemma digits_to_uint (p : positive) (acc : option Z) :
  default 0 acc = 0 ->
  JS.digits (NilEmpty.string_of_uint (Pos.to_uint p)) acc = Some (Z.pos p).
Proof.
  intros Hacc.
  pose proof (DecimalPos.Unsigned.of_to p) as Hp.
  pose proof (DecimalPos.Unsigned.to_uint_nonnil p) as Hnil.
  assert (H0 : JS.digits (NilEmpty.string_of_uint (Pos.to_uint p)) (Some 0)
               = Some (Z.pos p))
    by (rewrite digits_uint_zero, Hp; reflexivity).
  destruct (Pos.to_uint p); [congruence | ..];
    cbn [NilEmpty.string_of_uint JS.digits] in *;
    match goal with
    | |- context [JS.digit ?c] =>
        let v := eval vm_compute in (JS.digit c) in
        change (JS.digit c) with v in *
    end;
    cbn [from_option id] in *; rewrite Hacc; exact H0.
Qed.

Lemma parseInt_unsigned (d : Decimal.uint) :
  d <> Decimal.Nil ->
  JS.parseInt (NilEmpty.string_of_uint d) =
  JS.digits (NilEmpty.string_of_uint d) None.
Proof. destruct d; [congruence | reflexivity ..]. Qed.

Lemma string_of_uint_nonnil (d : Decimal.uint) :
  d <> Decimal.Nil -> NilZero.string_of_uint d = NilEmpty.string_of_uint d.
Proof. destruct d; [congruence | reflexivity ..]. Qed.

Theorem parseInt_String_of (n : Z) : JS.parseInt (JS.String_of n) = Some n.
Proof.
  destruct n as [|p|p]; [reflexivity | |].
  - unfold JS.String_of. cbn [Z.to_int NilZero.string_of_int].
    pose proof (DecimalPos.Unsigned.to_uint_nonnil p) as Hnil.
    rewrite string_of_uint_nonnil, parseInt_unsigned by assumption.
    now apply digits_to_uint.
  - unfold JS.String_of. cbn [Z.to_int NilZero.string_of_int].
    pose proof (DecimalPos.Unsigned.to_uint_nonnil p) as Hnil.
    rewrite string_of_uint_nonnil by assumption.
    change (JS.parseInt (String "-" (NilEmpty.string_of_uint (Pos.to_uint p))))
      with (Z.opp <$> JS.digits (NilEmpty.string_of_uint (Pos.to_uint p)) None).
    now rewrite digits_to_uint.
Qed.

Lemma String_of_inj (a b : Z) : JS.String_of a = JS.String_of b -> a = b.
Proof.
  intros H. apply (f_equal JS.parseInt) in H.
  rewrite !parseInt_String_of in H. congruence.
Qed.



(** ** Numbers that come with a product *)







(** What [String] and [parseInt] make of a stock that is no integer of at
    most 21 digits: 10^21 is printed "1e+21" and read back as 1; 0.5 is read
    back as 0 and 2.5 as 2. *)
Lemma stock_read_back :
  JS.Number_toString (JS.Finite false "1" 22) = "1e+21" /\
  JS.parseInt_or0 (Some (JS.Number_toString (JS.Finite false "1" 22))) = 1 /\
  JS.parseInt_or0 (Some (JS.Number_toString (JS.Finite false "5" 0))) = 0 /\
  JS.parseInt_or0 (Some (JS.Number_toString (JS.Finite false "25" 1))) = 2.
Proof. repeat split. Qed.

(** ** Rows of the page *)

Lemma rows_dom_writes (r : nat) (ws : list DomWrite) (s : State) :
  rows (dom_writes r ws s) = alter (apply_writes ws) r (rows s).
Proof. reflexivity. Qed.

Lemma rows_update_row (r : nat) (f : Row -> Row) (s : State) :
  rows (update_row r f s) = alter f r (rows s).
Proof. reflexivity. Qed.

Lemma lookup_dom_writes_eq (r : nat) (ws : list DomWrite) (s : State) (row : Row) :
  rows s !! r = Some row ->
  rows (dom_writes r ws s) !! r = Some (apply_writes ws row).
Proof. intros H. now rewrite rows_dom_writes, lookup_alter_eq, H. Qed.

Lemma lookup_update_row_eq (r : nat) (f : Row -> Row) (s : State) (row : Row) :
  rows s !! r = Some row -> rows (update_row r f s) !! r = Some (f row).
Proof. intros H. now rewrite rows_update_row, lookup_alter_eq, H. Qed.


Lemma set_box_set_box (b b' : SuggestBox) (row : Row) :
  set_box b (set_box b' row) = set_box b row.
Proof. reflexivity. Qed.

Lemma box_writes (ws : list DomWrite) (row : Row) :
  Forall (fun w => box_only w = true) ws ->
  apply_writes ws row = set_box (suggest_box (apply_writes ws row)) row.
Proof.
  intros Hws. revert row.
  induction Hws as [|w ws Hw Hws IH]; intros row.
  - now destruct row.
  - change (apply_writes (w :: ws) row)
      with (apply_writes ws (apply_write w row)).
    rewrite IH.
    assert (Hw' : apply_write w row = set_box (suggest_box (apply_write w row)) row)
      by (destruct w; try discriminate; reflexivity).
    rewrite Hw' at 2. apply set_box_set_box.
Qed.

Lemma box_only_renderMessage (message : string) :
  Forall (fun w => box_only w = true) (renderMessage message).
Proof. repeat constructor. Qed.

Lemma box_only_renderSuggestions (items : list Product) (limit : option nat)
    (emptyMessage : option string) :
  Forall (fun w => box_only w = true) (renderSuggestions items limit emptyMessage).
Proof.
  unfold renderSuggestions. constructor; [reflexivity |].
  destruct (JS.slice0 _ items) as [|p subset]; [apply box_only_renderMessage |].
  apply Forall_app. split; [| repeat constructor].
  generalize (p :: subset). intros l.
  induction l; cbn [map]; constructor; [reflexivity | assumption].
Qed.

Lemma localTimer_apply_writes (ws : list DomWrite) (row : Row) :
  localTimer (apply_writes ws row) = localTimer row /\
  hideTimer (apply_writes ws row) = hideTimer row.
Proof.
  revert row. induction ws as [|w ws IH]; intros row; [now split |].
  change (apply_writes (w :: ws) row) with (apply_writes ws (apply_write w row)).
  destruct (IH (apply_write w row)) as [-> ->]. now destruct w.
Qed.

(** ** Selection and the quantity bound *)




Lemma or_else_truthy (v : option string) (d : string) :
  JS.truthy d = true -> JS.truthy (JS.or_else v d) = true.
Proof.
  intros Hd. unfold JS.or_else. destruct v as [x|]; [| exact Hd].
  destruct (JS.truthy x) eqn:E; [exact E | exact Hd].
Qed.

Lemma or_else_Some_truthy (x d : string) :
  JS.truthy x = true -> JS.or_else (Some x) d = x.
Proof. intros H. unfold JS.or_else. now rewrite H. Qed.




(** ** Collecting the order lines *)

Lemma truthy_false_iff (x : string) : JS.truthy x = false <-> x = "".
Proof. destruct x; simpl; split; congruence. Qed.

Lemma truthy_true_iff (x : string) : JS.truthy x = true <-> x <> "".
Proof. destruct x; simpl; split; congruence. Qed.

(** The callback of [gatherItems] gives each row its verdict, a stored
    bound limiting the quantity when it is not zero. *)
Lemma gather_row_verdict (index : nat) (row : Row) :
  verdict (fun m => negb (m =? 0)) index row (gather_row index row).
Proof.
  unfold gather_row.
  destruct (JS.truthy (JS.trim (product_id_value row))) eqn:Epid; cbn [negb].
  - apply truthy_true_iff in Epid.
    destruct (Z.leb_spec (JS.parseInt_or0 (Some (qty_value row))) 0) as [Hq | Hq].
    + apply quantity_error; [assumption | lia].
    + destruct (negb (JS.parseInt_or0 (qty_maxQty row) =? 0)) eqn:Em;
        cbn [andb].
      * destruct (Z.ltb_spec (JS.parseInt_or0 (qty_maxQty row))
                    (JS.parseInt_or0 (Some (qty_value row)))) as [Hm | Hm].
        -- apply stock_error; (assumption || lia).
        -- apply accepted; [assumption | lia | right; lia].
      * apply accepted; [assumption | lia | left; assumption].
  - apply truthy_false_iff in Epid.
    destruct (Z.ltb_spec 0 (JS.parseInt_or0 (Some (qty_value row)))) as [Hq | Hq];
      cbn [orb].
    + apply unselected_error; [assumption | left; assumption].
    + destruct (JS.truthy (JS.trim (search_value row))) eqn:Es.
      * apply unselected_error; [assumption | right].
        now apply truthy_true_iff.
      * apply unselected_skipped; [assumption | lia |].
        now apply truthy_false_iff.
Qed.

Lemma push_result_items (g : Gather) (v : RowResult) :
  items (push_result g v) = items g ++ omap item_of [v].
Proof. destruct v; cbn; now rewrite ?app_nil_r. Qed.

Lemma push_result_errors (g : Gather) (v : RowResult) :
  errors (push_result g v) = errors g ++ omap error_of [v].
Proof. destruct v; cbn; now rewrite ?app_nil_r. Qed.

Lemma gather_from_spec (index : nat) (rows : list Row) (g : Gather) :
  exists vs,
    verdicts (fun m => negb (m =? 0)) index rows vs /\
    items (gather_from index rows g) = items g ++ omap item_of vs /\
    errors (gather_from index rows g) = errors g ++ omap error_of vs.
Proof.
  revert index g. induction rows as [|row rows IH]; intros index g.
  - exists []. cbn. rewrite !app_nil_r. repeat split. constructor.
  - destruct (IH (S index) (push_result g (gather_row index row)))
      as (vs & Hvs & Hi & He).
    exists (gather_row index row :: vs). split; [| split].
    + constructor; [apply gather_row_verdict | exact Hvs].
    + cbn [gather_from]. rewrite Hi, push_result_items, <- app_assoc.
      f_equal. cbn. now destruct (item_of (gather_row index row)).
    + cbn [gather_from]. rewrite He, push_result_errors, <- app_assoc.
      f_equal. cbn. now destruct (error_of (gather_row index row)).
Qed.



(** ** What a task adds to the effects *)

Lemma try_catch_search_not_thrown (c : SearchCall) (b : State * Completion) :
  snd (try_catch b (search_catch c)) <> Thrown.
Proof.
  destruct b as [s []]; cbn; try discriminate.
  unfold search_catch. destruct (stale c s); discriminate.
Qed.

Lemma try_catch_prefetch_not_thrown (b : State * Completion) :
  snd (try_catch b prefetch_catch) <> Thrown.
Proof. destruct b as [s []]; cbn; discriminate. Qed.

Lemma loadPrefetch_pending (s : State) :
  prefetchPromise s <> None -> loadPrefetch s = s.
Proof. unfold loadPrefetch. destruct (prefetchPromise s); congruence. Qed.

Lemma plain_renderMessage (message : string) : plain (renderMessage message).
Proof. repeat constructor. Qed.

Lemma plain_renderSuggestions (items : list Product) (limit : option nat)
    (emptyMessage : option string) :
  plain (renderSuggestions items limit emptyMessage).
Proof.
  unfold renderSuggestions. constructor; [reflexivity |].
  destruct (JS.slice0 _ items) as [|p subset]; [apply plain_renderMessage |].
  apply Forall_app. split; [| repeat constructor].
  generalize (p :: subset). intros l.
  induction l; cbn [map]; constructor; [reflexivity | assumption].
Qed.

Lemma plain_selectProduct (row : Row) (p : Product) : plain (selectProduct row p).
Proof.
  unfold selectProduct. destruct (JS.Number_truthy _).
  - destruct (negb (JS.truthy (qty_value row)) || _); repeat constructor.
  - repeat constructor.
Qed.

Lemma plain_updateAvailabilityMessage (row : Row) :
  plain (updateAvailabilityMessage row).
Proof.
  unfold updateAvailabilityMessage. destruct (negb _ && _); repeat constructor.
Qed.

Lemma plain_app (ws1 ws2 : list DomWrite) :
  plain ws1 -> plain ws2 -> plain (ws1 ++ ws2).
Proof. intros H1 H2. now apply Forall_app. Qed.

Lemma plain_nil : plain [].
Proof. constructor. Qed.

Lemma plain_cons (w : DomWrite) (ws : list DomWrite) :
  is_token_write w = false -> plain ws -> plain (w :: ws).
Proof. now constructor. Qed.

Create HintDb plain.
#[local] Hint Resolve plain_renderMessage plain_renderSuggestions
  plain_selectProduct plain_updateAvailabilityMessage plain_app plain_nil
  plain_cons : plain.

Ltac plain_writes := solve [auto 10 with plain].

Section Effects.

(** [P] holds of the effects a task may add once the prefetch has been
    started. *)
Variable P : Effect -> Prop.
Hypothesis P_dom : forall r w, is_token_write w = false -> P (EffDom r w).
Hypothesis P_set : forall id delay, P (EffSetTimeout id delay).
Hypothesis P_clear : forall id, P (EffClearTimeout id).
Hypothesis P_fulfilled : forall a, P (EffSettled a Fulfilled).
Hypothesis P_search :
  forall query, 2 <= JS.length query -> P (EffFetch (GetSearch query)).

Lemma adds_only_refl (s : State) : adds_only P s s.
Proof. exists []. now rewrite app_nil_r. Qed.

Lemma adds_only_same (s s' : State) : effects s' = effects s -> adds_only P s s'.
Proof. intros H. exists []. now rewrite app_nil_r. Qed.

Lemma adds_only_trans (s1 s2 s3 : State) :
  adds_only P s1 s2 -> adds_only P s2 s3 -> adds_only P s1 s3.
Proof.
  intros (n1 & E1 & F1) (n2 & E2 & F2). exists (n1 ++ n2). split.
  - now rewrite E2, E1, app_assoc.
  - now apply Forall_app.
Qed.

Lemma adds_only_emit (es : list Effect) (s : State) :
  Forall P es -> adds_only P s (emit es s).
Proof. intros H. now exists es. Qed.

Lemma adds_only_dom_writes (r : nat) (ws : list DomWrite) (s : State) :
  plain ws -> adds_only P s (dom_writes r ws s).
Proof.
  intros Hws. exists (map (EffDom r) ws). split; [reflexivity |].
  induction Hws as [|w ws Hw Hws IH]; cbn [map]; constructor;
    [now apply P_dom | exact IH].
Qed.

Ltac dom_trans :=
  match goal with
  | |- adds_only _ ?s ?t =>
      match t with
      | context [dom_writes ?r ?ws s] =>
          apply (adds_only_trans s (dom_writes r ws s));
          [apply adds_only_dom_writes; plain_writes |]
      end
  end.

Lemma adds_only_clearTimeout (id : positive) (s : State) :
  adds_only P s (clearTimeout id s).
Proof. exists [EffClearTimeout id]. split; [reflexivity | auto]. Qed.

Lemma adds_only_setTimeout (task : TimerTask) (delay : Z) (s : State) :
  adds_only P s (snd (setTimeout task delay s)).
Proof. exists [EffSetTimeout (next_timer s) delay]. split; [reflexivity | auto]. Qed.

Lemma adds_only_prefetch_then (r : nat) (s : State) :
  adds_only P s (prefetch_then r s).
Proof.
  unfold prefetch_then. destruct (bool_decide _).
  - (apply adds_only_dom_writes; plain_writes).
  - apply adds_only_refl.
Qed.

Lemma adds_only_waiters (ws : list nat) (s : State) :
  adds_only P s (fold_left (fun s r => prefetch_then r s) ws s).
Proof.
  revert s. induction ws as [|r ws IH]; intros s; cbn [fold_left].
  - apply adds_only_refl.
  - eapply adds_only_trans; [apply adds_only_prefetch_then | apply IH].
Qed.

Lemma adds_only_finish_prefetch (b : State * Completion) :
  snd b <> Thrown -> adds_only P (fst b) (finish_prefetch b).
Proof.
  destruct b as [s []]; cbn [fst snd finish_prefetch]; intros H.
  - eapply adds_only_trans; [| apply adds_only_waiters].
    exists [EffSettled PrefetchAsync Fulfilled]. split; [reflexivity | auto].
  - congruence.
  - now apply adds_only_same.
Qed.

Lemma adds_only_finish_search (id : positive) (c : SearchCall)
    (b : State * Completion) :
  snd b <> Thrown -> adds_only P (fst b) (finish_search id c b).
Proof.
  destruct b as [s []]; cbn [fst snd finish_search]; intros H.
  - exists [EffSettled (SearchAsync id) Fulfilled]. split; [reflexivity | auto].
  - congruence.
  - now apply adds_only_same.
Qed.

Lemma adds_only_search_after_fetch (c : SearchCall) (o : FetchOutcome)
    (s : State) :
  adds_only P s (fst (try_catch (search_after_fetch c o s) (search_catch c))).
Proof.
  unfold search_after_fetch, search_catch. destruct o as [|status]; cbn.
  - destruct (stale c s); cbn;
      [apply adds_only_refl | (apply adds_only_dom_writes; plain_writes)].
  - destruct (stale c s); cbn; [apply adds_only_refl |].
    destruct (ok status); cbn;
      [apply adds_only_refl | (apply adds_only_dom_writes; plain_writes)].
Qed.

Lemma adds_only_search_after_json (c : SearchCall) (o : JsonOutcome)
    (s : State) :
  adds_only P s (fst (try_catch (search_after_json c o s) (search_catch c))).
Proof.
  unfold search_after_json, search_catch.
  destruct o as [| |[[|p results]|]]; cbn; destruct (stale c s); cbn;
    (apply adds_only_refl || (apply adds_only_dom_writes; plain_writes)).
Qed.

Lemma adds_only_prefetch_after_fetch (o : FetchOutcome) (s : State) :
  adds_only P s (fst (try_catch (prefetch_after_fetch o s) prefetch_catch)).
Proof.
  unfold prefetch_after_fetch. destruct o as [|status]; cbn.
  - now apply adds_only_same.
  - destruct (ok status); cbn; now apply adds_only_same.
Qed.

Lemma adds_only_prefetch_after_json (o : JsonOutcome) (s : State) :
  adds_only P s (fst (try_catch (prefetch_after_json o s) prefetch_catch)).
Proof. destruct o; cbn; now apply adds_only_same. Qed.

Lemma adds_only_fetchRemoteProducts (query : string) (r : nat)
    (requestId : string) (s : State) :
  adds_only P s (fetchRemoteProducts query r requestId s).
Proof.
  unfold fetchRemoteProducts.
  destruct (Z.ltb_spec (JS.length query) 2) as [Hshort | Hlong].
  - exists [EffSettled (SearchAsync (next_call s)) Fulfilled].
    split; [reflexivity | auto].
  - exists [EffFetch (GetSearch query)]. split; [reflexivity |].
    constructor; [now apply P_search | constructor].
Qed.

Lemma adds_only_openPrefetch (r : nat) (s : State) :
  prefetchPromise s <> None -> adds_only P s (openPrefetch r s).
Proof.
  intros Hp. unfold openPrefetch. destruct (prefetchCache s).
  - rewrite loadPrefetch_pending by exact Hp.
    dom_trans.
    destruct (prefetchPromise _) as [[]|].
    + now apply adds_only_same.
    + apply adds_only_prefetch_then.
    + now apply adds_only_same.
  - (apply adds_only_dom_writes; plain_writes).
Qed.

Lemma adds_only_handleSearchInput (r : nat) (now : Z) (s : State) :
  P (EffDom r (SetRemoteRequestId (JS.String_of now))) ->
  adds_only P s (handleSearchInput r now s).
Proof.
  intros P_token.
  unfold handleSearchInput.
  destruct (rows s !! r) as [row|]; [| apply adds_only_refl].
  dom_trans.
  set (s1 := dom_writes r _ s).
  set (s2 := match localTimer row with
             | Some id => clearTimeout id s1
             | None => s1
             end).
  apply (adds_only_trans _ s2).
  { subst s2. destruct (localTimer row);
      [apply adds_only_clearTimeout | apply adds_only_refl]. }
  dom_trans.
  destruct (2 <=? _); [| apply adds_only_refl].
  unfold setTimeout. cbv beta iota zeta.
  exists [EffDom r (SetRemoteRequestId (JS.String_of now));
          EffSetTimeout (next_timer s2) 220].
  split; [| repeat constructor; auto].
  cbn [effects update_row set_rows emit set_timers dom_writes].
  now rewrite <- !app_assoc.
Qed.

Lemma adds_only_createRow (d : Defaults) (s : State) :
  adds_only P s (snd (createRow d s)).
Proof.
  unfold createRow. cbn [snd].
  set (s0 := set_next_row _ _).
  apply (adds_only_trans _ s0); [now apply adds_only_same |].
  set (s1 := match d_product d with Some p => _ | None => s0 end).
  apply (adds_only_trans _ s1).
  { subst s1. destruct (d_product d);
      [(apply adds_only_dom_writes; plain_writes) | apply adds_only_refl]. }
  set (s2 := match d_qty d with Undefined => s1 | Null => _ | Value q => _ end).
  apply (adds_only_trans _ s2).
  { subst s2. destruct (d_qty d);
      [apply adds_only_refl | (apply adds_only_dom_writes; plain_writes) ..]. }
  set (s3 := if JS.truthy (JS.or_else (d_expected_date d) "") then _ else s2).
  apply (adds_only_trans _ s3).
  { subst s3. destruct (JS.truthy (JS.or_else (d_expected_date d) ""));
      [(apply adds_only_dom_writes; plain_writes) | apply adds_only_refl]. }
  destruct (JS.truthy (JS.or_else (d_notes d) ""));
    [(apply adds_only_dom_writes; plain_writes) | apply adds_only_refl].
Qed.

(** One task adds only effects that satisfy [P]. *)
Lemma adds_only_step (s : State) (e : Event) :
  prefetchPromise s <> None ->
  (forall r text now,
      e = Input r text now ->
      P (EffDom r (SetRemoteRequestId (JS.String_of now)))) ->
  adds_only P s (step s e).
Proof.
  intros Hp P_token. destruct e as [d|r|r|r|r text now|r text|r i|id|id o|id o|o|o];
    cbn [step].
  - unfold addRow. pose proof (adds_only_createRow d s) as H.
    destruct (createRow d s) as [r s']. cbn [snd] in H.
    eapply adds_only_trans; [exact H | now apply adds_only_same].
  - destruct (bool_decide _); now apply adds_only_same.
  - destruct (rows s !! r) as [row0|] eqn:Er; [| apply adds_only_refl].
    unfold on_focus. cbn [rows set_activeElement]. rewrite Er.
    apply (adds_only_trans _ (set_activeElement (Some r) s));
      [now apply adds_only_same |].
    destruct (hideTimer row0).
    + eapply adds_only_trans; [apply adds_only_clearTimeout |].
      now apply adds_only_openPrefetch.
    + now apply adds_only_openPrefetch.
  - destruct (rows s !! r); [| apply adds_only_refl].
    unfold on_blur. destruct (bool_decide _);
      (eexists; split; [reflexivity | auto]).
  - eapply adds_only_trans;
      [| apply adds_only_handleSearchInput, (P_token r text now eq_refl)].
    now apply adds_only_same.
  - unfold on_qty_input. destruct (rows _ !! r).
    + eapply adds_only_trans; [| (apply adds_only_dom_writes; plain_writes)].
      now apply adds_only_same.
    + now apply adds_only_same.
  - destruct (rows s !! r) as [row|] eqn:Er; [| apply adds_only_refl].
    destruct (box_items _ !! i) as [[|p]|]; try apply adds_only_refl.
    unfold on_select. rewrite Er. (apply adds_only_dom_writes; plain_writes).
  - destruct (timers s !! id) as [[r q t|r]|]; [| | apply adds_only_refl].
    + eapply adds_only_trans; [| apply adds_only_fetchRemoteProducts].
      now apply adds_only_same.
    + eapply adds_only_trans; [| (apply adds_only_dom_writes; plain_writes)].
      now apply adds_only_same.
  - destruct (calls s !! id) as [c|]; [| apply adds_only_refl].
    destruct (call_stage c); [| apply adds_only_refl].
    eapply adds_only_trans; [apply (adds_only_search_after_fetch c o) |].
    apply adds_only_finish_search, try_catch_search_not_thrown.
  - destruct (calls s !! id) as [c|]; [| apply adds_only_refl].
    destruct (call_stage c); [apply adds_only_refl |].
    eapply adds_only_trans; [apply (adds_only_search_after_json c o) |].
    apply adds_only_finish_search, try_catch_search_not_thrown.
  - destruct (prefetchPromise s) as [[[]|]|]; try apply adds_only_refl.
    eapply adds_only_trans; [apply (adds_only_prefetch_after_fetch o) |].
    apply adds_only_finish_prefetch, try_catch_prefetch_not_thrown.
  - destruct (prefetchPromise s) as [[[]|]|]; try apply adds_only_refl.
    eapply adds_only_trans; [apply (adds_only_prefetch_after_json o) |].
    apply adds_only_finish_prefetch, try_catch_prefetch_not_thrown.
Qed.

End Effects.

(** ** The shared cache is touched by the prefetch only *)

Lemma same_prefetch_refl (s : State) : same_prefetch s s.
Proof. repeat split. Qed.

Lemma same_prefetch_trans (s1 s2 s3 : State) :
  same_prefetch s1 s2 -> same_prefetch s2 s3 -> same_prefetch s1 s3.
Proof. unfold same_prefetch. intros (? & ? & ?) (? & ? & ?). repeat split; congruence. Qed.

Lemma same_prefetch_finish_search (id : positive) (c : SearchCall)
    (b : State * Completion) :
  same_prefetch (fst b) (finish_search id c b).
Proof. destruct b as [s []]; repeat split. Qed.

Lemma same_prefetch_search_after_fetch (c : SearchCall) (o : FetchOutcome)
    (s : State) :
  same_prefetch s (fst (try_catch (search_after_fetch c o s) (search_catch c))).
Proof.
  unfold search_after_fetch, search_catch. destruct o as [|status]; cbn.
  - destruct (stale c s); repeat split.
  - destruct (stale c s); [repeat split |].
    destruct (ok status); repeat split.
Qed.

Lemma same_prefetch_search_after_json (c : SearchCall) (o : JsonOutcome)
    (s : State) :
  same_prefetch s (fst (try_catch (search_after_json c o s) (search_catch c))).
Proof.
  unfold search_after_json, search_catch.
  destruct o as [| |[[|p results]|]]; cbn; destruct (stale c s); repeat split.
Qed.

Lemma same_prefetch_fetchRemoteProducts (query : string) (r : nat)
    (requestId : string) (s : State) :
  same_prefetch s (fetchRemoteProducts query r requestId s).
Proof.
  unfold fetchRemoteProducts. destruct (JS.length query <? 2); repeat split.
Qed.

Lemma same_prefetch_handleSearchInput (r : nat) (now : Z) (s : State) :
  same_prefetch s (handleSearchInput r now s).
Proof.
  unfold handleSearchInput. destruct (rows s !! r) as [row|]; [| repeat split].
  destruct (localTimer row); destruct (2 <=? _); repeat split.
Qed.

Lemma same_prefetch_createRow (d : Defaults) (s : State) :
  same_prefetch s (snd (createRow d s)).
Proof.
  unfold createRow.
  destruct (d_product d), (d_qty d),
    (JS.truthy (JS.or_else (d_expected_date d) "")),
    (JS.truthy (JS.or_else (d_notes d) "")); repeat split.
Qed.

Lemma same_prefetch_step (s : State) (e : Event) :
  touches_prefetch e = false -> same_prefetch s (step s e).
Proof.
  destruct e as [d|r|r|r|r text now|r text|r i|id|id o|id o|o|o];
    cbn [touches_prefetch step]; intros H; try discriminate.
  - unfold addRow. pose proof (same_prefetch_createRow d s) as Hc.
    destruct (createRow d s) as [r s']. exact Hc.
  - destruct (bool_decide _); repeat split.
  - destruct (rows s !! r); [| repeat split].
    unfold on_blur. destruct (bool_decide _); repeat split.
  - eapply same_prefetch_trans; [| apply same_prefetch_handleSearchInput].
    repeat split.
  - unfold on_qty_input. destruct (rows _ !! r); repeat split.
  - destruct (rows s !! r) as [row|] eqn:Er; [| repeat split].
    destruct (box_items _ !! i) as [[|p]|]; try solve [repeat split].
    unfold on_select. rewrite Er. repeat split.
  - destruct (timers s !! id) as [[r q t|r]|]; [| repeat split ..].
    eapply same_prefetch_trans; [| apply same_prefetch_fetchRemoteProducts].
    repeat split.
  - destruct (calls s !! id) as [c|]; [| repeat split].
    destruct (call_stage c); [| repeat split].
    eapply same_prefetch_trans; [apply (same_prefetch_search_after_fetch c o) |].
    apply same_prefetch_finish_search.
  - destruct (calls s !! id) as [c|]; [| repeat split].
    destruct (call_stage c); [repeat split |].
    eapply same_prefetch_trans; [apply (same_prefetch_search_after_json c o) |].
    apply same_prefetch_finish_search.
Qed.

(** Once the prefetch has been started its promise is never null again. *)
Lemma promise_waiters (ws : list nat) (s : State) :
  prefetchPromise (fold_left (fun s r => prefetch_then r s) ws s) =
  prefetchPromise s /\
  prefetchCache (fold_left (fun s r => prefetch_then r s) ws s) =
  prefetchCache s.
Proof.
  revert s. induction ws as [|r ws IH]; intros s; cbn [fold_left].
  - split; reflexivity.
  - destruct (IH (prefetch_then r s)) as [-> ->].
    unfold prefetch_then. destruct (bool_decide _); split; reflexivity.
Qed.

Lemma finish_prefetch_promise (b : State * Completion) :
  prefetchPromise (finish_prefetch b) <> None.
Proof.
  destruct b as [s []]; cbn [finish_prefetch]; try discriminate.
  rewrite (proj1 (promise_waiters _ _)). discriminate.
Qed.

Lemma openPrefetch_promise (r : nat) (s : State) :
  prefetchPromise s <> None -> prefetchPromise (openPrefetch r s) <> None.
Proof.
  intros Hp. unfold openPrefetch. destruct (prefetchCache s); [| exact Hp].
  rewrite loadPrefetch_pending by exact Hp.
  cbn [prefetchPromise dom_writes emit set_rows].
  destruct (prefetchPromise s) as [[]|] eqn:E; try congruence.
  - cbn. rewrite E. discriminate.
  - unfold prefetch_then. destruct (bool_decide _); cbn; congruence.
Qed.

Lemma step_promise (s : State) (e : Event) :
  prefetchPromise s <> None -> prefetchPromise (step s e) <> None.
Proof.
  intros Hp. destruct (touches_prefetch e) eqn:Et.
  - destruct e; cbn in Et; try discriminate; cbn [step].
    + destruct (rows s !! r) as [row|] eqn:Er; [| exact Hp].
      unfold on_focus. cbn [rows set_activeElement]. rewrite Er.
      destruct (hideTimer row); apply openPrefetch_promise; exact Hp.
    + destruct (prefetchPromise s) as [[[]|]|] eqn:E; try congruence.
      apply finish_prefetch_promise.
    + destruct (prefetchPromise s) as [[[]|]|] eqn:E; try congruence.
      apply finish_prefetch_promise.
  - destruct (same_prefetch_step s e Et) as (_ & -> & _). exact Hp.
Qed.

Lemma run_app (s : State) (es1 es2 : list Event) :
  run s (es1 ++ es2) = run (run s es1) es2.
Proof. apply fold_left_app. Qed.

Lemma run_promise (s : State) (es : list Event) :
  prefetchPromise s <> None -> prefetchPromise (run s es) <> None.
Proof.
  revert s. induction es as [|e es IH]; intros s Hp; [exact Hp |].
  apply IH, step_promise, Hp.
Qed.

Lemma init_promise : prefetchPromise init <> None.
Proof. discriminate. Qed.

(** ** The prefetch is requested once *)

Lemma prefetch_requests_adds_only (s s' : State) :
  adds_only no_prefetch_request s s' ->
  prefetch_requests s' = prefetch_requests s.
Proof.
  intros (new & E & F). unfold prefetch_requests. rewrite E, List.filter_app.
  rewrite length_app.
  assert (H0 : List.filter is_prefetch_request new = []).
  { clear E. induction F as [|e new He F IH]; [reflexivity |].
    unfold no_prefetch_request in He. cbn [List.filter]. now rewrite He. }
  rewrite H0. cbn [length]. lia.
Qed.

Lemma step_prefetch_requests (s : State) (e : Event) :
  prefetchPromise s <> None ->
  prefetch_requests (step s e) = prefetch_requests s.
Proof.
  intros Hp. apply prefetch_requests_adds_only.
  apply adds_only_step; try exact Hp; intros; reflexivity.
Qed.

Lemma perform_all_once (s : State) (acts : list Action) :
  prefetchPromise s <> None ->
  prefetch_requests (perform_all s acts) = prefetch_requests s /\
  prefetchPromise (perform_all s acts) <> None.
Proof.
  revert s. induction acts as [|a acts IH]; intros s Hp; [now split |].
  change (perform_all s (a :: acts)) with (perform_all (perform s a) acts).
  destruct a as [|e]; cbn [perform].
  - rewrite loadPrefetch_pending by exact Hp. apply IH, Hp.
  - destruct (IH (step s e) (step_promise s e Hp)) as [Hn Hq].
    split; [| exact Hq]. rewrite Hn. now apply step_prefetch_requests.
Qed.

(** C3: however many times [loadPrefetch()] is called, one after the other
    or among any tasks of the page, exactly one request goes to the prefetch
    endpoint; a call made while the promise is set (pending or settled)
    changes nothing: it hands back the promise already there and sends no
    request. *)
Theorem loadPrefetch_once :
  (forall n, prefetch_requests (Nat.iter (S n) loadPrefetch empty_page) = 1%nat) /\
  (forall acts, prefetch_requests (perform_all init acts) = 1%nat) /\
  (forall s stage,
      prefetchPromise s = Some (LoadPending stage) -> loadPrefetch s = s).
Proof.
  split; [| split].
  - induction n as [|n IH]; [reflexivity |].
    change (Nat.iter (S (S n)) loadPrefetch empty_page)
      with (loadPrefetch (Nat.iter (S n) loadPrefetch empty_page)).
    rewrite loadPrefetch_pending; [exact IH |].
    clear IH. induction n as [|n IHn]; [discriminate |].
    change (Nat.iter (S (S n)) loadPrefetch empty_page)
      with (loadPrefetch (Nat.iter (S n) loadPrefetch empty_page)).
    now rewrite loadPrefetch_pending.
  - intros acts. now destruct (perform_all_once init acts init_promise) as [-> _].
  - intros s stage H. apply loadPrefetch_pending. congruence.
Qed.

Lemma loadPrefetch_once_witness : loadPrefetch init = init.
Proof.
  exact (proj2 (proj2 loadPrefetch_once) init AwaitFetch eq_refl).
Defined.

(** ** A failed prefetch *)

(** C4, as the specification words it, fails: after a failed prefetch a
    further call of [loadPrefetch()] finds the cache empty but sends no
    second request, because [prefetchPromise] still holds the settled
    promise. *)
Lemma loadPrefetch_no_retry :
  ~ (forall s e,
        prefetch_failure s e ->
        prefetchCache (step s e) = [] ->
        prefetch_requests (loadPrefetch (step s e)) =
        S (prefetch_requests (step s e))).
Proof.
  intros H.
  specialize (H init (PrefetchFetched FetchRejected)
                (prefetch_rejected init eq_refl) eq_refl).
  vm_compute in H. discriminate.
Qed.

Lemma finish_prefetch_returned (s : State) :
  let s' := finish_prefetch (s, Returned) in
  prefetchCache s' = prefetchCache s /\
  prefetchPromise s' = Some LoadSettled /\
  exists renders,
    effects s' = effects s ++ EffSettled PrefetchAsync Fulfilled :: renders /\
    Forall is_dom_write renders.
Proof.
  cbv zeta. cbn [finish_prefetch].
  set (s0 := emit _ _). set (s1 := set_waiters [] s0).
  destruct (promise_waiters (waiters s0) s1) as [Hp Hc].
  split; [now rewrite Hc |]. split; [now rewrite Hp |].
  destruct (adds_only_waiters is_dom_write
              ltac:(intros r w _; now exists r, w) (waiters s0) s1)
    as (renders & E & F).
  exists renders. split; [| exact F].
  rewrite E. subst s1 s0. cbn [effects set_waiters emit].
  now rewrite <- app_assoc.
Qed.

(** A failed prefetch leaves the cache empty; it was pending until then. *)
Lemma prefetch_failure_cache (s : State) (e : Event) :
  prefetch_failure s e ->
  prefetchCache (step s e) = [] /\
  exists stage, prefetchPromise s = Some (LoadPending stage).
Proof.
  intros Hfail.
  assert (Hstep : step s e = finish_prefetch (set_prefetchCache [] s, Returned)).
  { destruct Hfail as [Hp | status Hp Hok | Hp]; cbn [step]; rewrite Hp.
    - reflexivity.
    - cbn [prefetch_after_fetch]. now rewrite Hok.
    - reflexivity. }
  rewrite Hstep.
  destruct (finish_prefetch_returned (set_prefetchCache [] s)) as (Hc & _).
  split; [exact Hc |]. destruct Hfail; eauto.
Qed.

(** C4 (amended): when the prefetch fails, the error is swallowed (the
    promise is fulfilled, not rejected) and the cache is empty; the failure
    is not retried, neither by itself nor by a later call of
    [loadPrefetch()]: such a call hands back the settled promise and no
    further request goes to the prefetch endpoint, whatever happens on the
    page. *)
Theorem prefetch_failure_not_retried (s : State) (e : Event) :
  prefetch_failure s e ->
  let s' := step s e in
  prefetchCache s' = [] /\
  prefetchPromise s' = Some LoadSettled /\
  (exists renders,
      effects s' = effects s ++ EffSettled PrefetchAsync Fulfilled :: renders /\
      Forall is_dom_write renders) /\
  loadPrefetch s' = s' /\
  (forall acts,
      prefetch_requests (perform_all s' acts) = prefetch_requests s).
Proof.
  intros Hfail. cbv zeta.
  assert (Hstep : step s e = finish_prefetch (set_prefetchCache [] s, Returned)).
  { destruct Hfail as [Hp | status Hp Hok | Hp]; cbn [step]; rewrite Hp.
    - reflexivity.
    - cbn [prefetch_after_fetch]. now rewrite Hok.
    - reflexivity. }
  rewrite Hstep.
  destruct (finish_prefetch_returned (set_prefetchCache [] s))
    as (Hc & Hp & renders & E & F).
  cbv zeta in Hc, Hp, E. cbn [prefetchCache effects set_prefetchCache] in Hc, E.
  assert (Hset : prefetchPromise
                   (finish_prefetch (set_prefetchCache [] s, Returned)) <> None)
    by (rewrite Hp; discriminate).
  split; [exact Hc |]. split; [exact Hp |].
  split; [now exists renders |].
  split; [now apply loadPrefetch_pending |].
  intros acts.
  destruct (perform_all_once _ acts Hset) as [-> _].
  unfold prefetch_requests. rewrite E, List.filter_app, length_app.
  cbn [List.filter is_prefetch_request].
  assert (H0 : List.filter is_prefetch_request renders = []).
  { clear E. induction F as [|x renders (r & w & ->) F IH]; [reflexivity |].
    cbn [List.filter is_prefetch_request]. exact IH. }
  rewrite H0. cbn [length]. lia.
Qed.

Lemma prefetch_failure_not_retried_witness :
  prefetchCache (step init (PrefetchFetched FetchRejected)) = [] /\
  loadPrefetch (step init (PrefetchFetched FetchRejected)) =
  step init (PrefetchFetched FetchRejected).
Proof.
  destruct (prefetch_failure_not_retried init (PrefetchFetched FetchRejected)
              (prefetch_rejected init eq_refl))
    as (Hc & _ & _ & Hl & _).
  split; [exact Hc | exact Hl].
Defined.

(** ** A failed search *)

Lemma renderMessage_box (message : string) (row : Row) :
  JS.truthy message = true ->
  suggest_box (apply_writes (renderMessage message) row) =
  mkBox [MessageItem message] false.
Proof.
  intros H. unfold renderMessage. rewrite (or_else_Some_truthy _ _ H).
  reflexivity.
Qed.

Lemma stale_false_row (c : SearchCall) (s : State) :
  stale c s = false ->
  exists row, rows s !! call_row c = Some row /\
              remoteRequestId row = Some (call_requestId c).
Proof.
  unfold stale. destruct (rows s !! call_row c) as [row|]; [| discriminate].
  destruct (remoteRequestId row) as [current|] eqn:E; [| discriminate].
  intros H. apply negb_false_iff, String.eqb_eq in H. subst current.
  now exists row.
Qed.

(** No task of the page ever lets an exception out of an asynchronous
    function. *)
Lemma run_never_rejects (es : list Event) :
  Forall (fun e => ~ is_rejection e) (effects (run init es)).
Proof.
  assert (Hgen : forall es s,
             prefetchPromise s <> None ->
             Forall (fun e => ~ is_rejection e) (effects s) ->
             Forall (fun e => ~ is_rejection e) (effects (run s es))).
  { clear es. induction es as [|e es IH]; intros s Hp Hs; [exact Hs |].
    apply IH; [now apply step_promise |].
    assert (Hadd : adds_only (fun e => ~ is_rejection e) s (step s e)).
    { apply adds_only_step; try exact Hp;
        unfold is_rejection, not; intros;
        repeat match goal with H : ex _ |- _ => destruct H end;
        discriminate. }
    destruct Hadd as (new & E & F).
    rewrite E. now apply Forall_app. }
  apply Hgen; [apply init_promise |].
  repeat constructor. intros (a & Ha). discriminate.
Qed.

Lemma openPrefetch_prefetch (r : nat) (s : State) :
  prefetchPromise s <> None ->
  prefetchCache (openPrefetch r s) = prefetchCache s /\
  prefetchPromise (openPrefetch r s) = prefetchPromise s.
Proof.
  intros Hp. unfold openPrefetch. destruct (prefetchCache s) eqn:Ec.
  - rewrite loadPrefetch_pending by exact Hp.
    cbn [prefetchPromise dom_writes emit set_rows].
    destruct (prefetchPromise s) as [[]|] eqn:E; try congruence.
    + cbn. now rewrite Ec, E.
    + unfold prefetch_then. destruct (bool_decide _); cbn; now rewrite Ec, E.
  - cbn. now rewrite Ec.
Qed.

Lemma pending_empty_settled (s : State) :
  pending_empty (finish_prefetch (s, Returned)).
Proof.
  intros stage. destruct (finish_prefetch_returned s) as (_ & -> & _).
  discriminate.
Qed.

Lemma pending_empty_step (s : State) (e : Event) :
  prefetchPromise s <> None -> pending_empty s -> pending_empty (step s e).
Proof.
  intros Hp Hs. destruct (touches_prefetch e) eqn:Et.
  - destruct e; cbn in Et; try discriminate; cbn [step].
    + destruct (rows s !! r) as [row|] eqn:Er; [| exact Hs].
      unfold on_focus. cbn [rows set_activeElement]. rewrite Er.
      intros stage.
      destruct (hideTimer row);
        match goal with
        | |- context [openPrefetch r ?s0] =>
            destruct (openPrefetch_prefetch r s0 Hp) as [-> ->]
        end; apply Hs.
    + destruct (prefetchPromise s) as [[[]|]|] eqn:E; try exact Hs.
      destruct o as [|status].
      * apply pending_empty_settled.
      * unfold prefetch_after_fetch. destruct (ok status).
        -- intros stage _. now apply (Hs AwaitFetch).
        -- apply pending_empty_settled.
    + destruct (prefetchPromise s) as [[[]|]|] eqn:E; try exact Hs.
      destruct o as [| |results]; apply pending_empty_settled.
  - destruct (same_prefetch_step s e Et) as (Hc & Hq & _).
    intros stage. rewrite Hc, Hq. apply Hs.
Qed.

Lemma pending_empty_run (es : list Event) : pending_empty (run init es).
Proof.
  assert (Hgen : forall es s,
             prefetchPromise s <> None -> pending_empty s ->
             pending_empty (run s es)).
  { clear es. induction es as [|e es IH]; intros s Hp Hs; [exact Hs |].
    apply IH; [now apply step_promise | now apply pending_empty_step]. }
  apply Hgen; [apply init_promise | intros stage _; reflexivity].
Qed.

(** C6: when a search request fails (the fetch rejects, the status is not a
    success, or the body cannot be read) and its token is still the row's
    current token, the suggestion box shows the error placeholder; when the
    token is stale nothing is written to the row. Either way the call ends
    fulfilled, no task of the page ever ends in a rejection, and the
    prefetch cache and its promise are left as they were; a failure of the
    prefetch itself leaves the cache as it was too (empty). *)
Theorem search_failure_handled (s : State) (id : positive) (c : SearchCall)
    (e : Event) (message : string) :
  calls s !! id = Some c ->
  search_failure id c e message ->
  let s' := step s e in
  (stale c s = false ->
   exists row,
     rows s' !! call_row c = Some row /\
     suggest_box row = mkBox [MessageItem message] false /\
     effects s' =
     effects s ++ map (EffDom (call_row c)) (renderMessage message) ++
     [EffSettled (SearchAsync id) Fulfilled]) /\
  (stale c s = true ->
   rows s' = rows s /\
   effects s' = effects s ++ [EffSettled (SearchAsync id) Fulfilled]) /\
  calls s' !! id = None /\
  prefetchCache s' = prefetchCache s /\
  prefetchPromise s' = prefetchPromise s /\
  (forall es, Forall (fun x => ~ is_rejection x) (effects (run init es))) /\
  (forall es x,
      prefetch_failure (run init es) x ->
      prefetchCache (step (run init es) x) = prefetchCache (run init es)).
Proof.
  intros Hcall Hfail. cbv zeta.
  assert (Hmsg : JS.truthy message = true)
    by (destruct Hfail; reflexivity).
  assert (Hstep :
            step s e =
            finish_search id c
              (if stale c s then (s, Returned)
               else (dom_writes (call_row c) (renderMessage message) s,
                     Returned))).
  { destruct Hfail as [Hst | status Hst Hok | Hst];
      cbn [step]; rewrite Hcall, Hst.
    - reflexivity.
    - cbn [search_after_fetch]. rewrite Hok.
      destruct (stale c s); reflexivity.
    - reflexivity. }
  rewrite Hstep. clear Hstep.
  split; [| split; [| split; [| split; [| split; [| split]]]]].
  - intros Hcur. rewrite Hcur. cbn [finish_search].
    destruct (stale_false_row c s Hcur) as (row & Hrow & _).
    exists (apply_writes (renderMessage message) row).
    split; [| split].
    + cbn [rows emit set_calls]. now apply lookup_dom_writes_eq.
    + now apply renderMessage_box.
    + cbn [effects emit set_calls dom_writes set_rows].
      now rewrite <- app_assoc.
  - intros Hold. rewrite Hold. split; reflexivity.
  - destruct (stale c s); cbn [finish_search calls emit set_calls];
      apply lookup_delete_eq.
  - destruct (stale c s); reflexivity.
  - destruct (stale c s); reflexivity.
  - apply run_never_rejects.
  - intros es x Hx.
    destruct (prefetch_failure_cache (run init es) x Hx) as [-> [stage Hpend]].
    symmetry. exact (pending_empty_run es stage Hpend).
Qed.

Lemma search_failure_handled_witness :
  exists row,
    rows (step searching_page (SearchFetched 1 FetchRejected)) !! 0%nat
    = Some row /\
    suggest_box row = mkBox [MessageItem "Search failed"] false.
Proof.
  destruct (search_failure_handled searching_page 1
              (mkCall 0 "ab" "1000" AwaitFetch)
              (SearchFetched 1 FetchRejected) "Search failed"
              ltac:(vm_compute; reflexivity)
              (search_rejected 1 (mkCall 0 "ab" "1000" AwaitFetch) eq_refl))
    as (Hcur & _).
  destruct (Hcur ltac:(vm_compute; reflexivity)) as (row & Hrow & Hbox & _).
  exists row. split; [exact Hrow | exact Hbox].
Defined.

(** ** Search requests need two characters *)

Lemma search_requests_long (l : list Effect) :
  Forall long_enough l ->
  Forall (fun q => 2 <= JS.length q)
    (omap (fun e => match e with
                    | EffFetch (GetSearch q) => Some q
                    | _ => None
                    end) l).
Proof.
  induction 1 as [|e l He Hl IH]; cbn [omap]; [constructor |].
  destruct e as [| [q|] | | |]; cbn; try exact IH.
  constructor; [now apply He | exact IH].
Qed.

Lemma run_long_enough (es : list Event) (s : State) :
  prefetchPromise s <> None ->
  Forall long_enough (effects s) ->
  Forall long_enough (effects (run s es)).
Proof.
  revert s. induction es as [|e es IH]; intros s Hp Hs; [exact Hs |].
  apply IH; [now apply step_promise |].
  assert (Hadd : adds_only long_enough s (step s e)).
  { apply adds_only_step; try exact Hp; unfold long_enough; intros;
      try discriminate.
    match goal with H : EffFetch _ = EffFetch _ |- _ => injection H as <- end.
    assumption. }
  destruct Hadd as (new & E & F). rewrite E. now apply Forall_app.
Qed.

(** C9: every request to the search endpoint carries a query of at least
    2 characters: [fetchRemoteProducts] returns before its [fetch] for a
    shorter one, and this holds of every request of every run of the page. *)
Theorem search_needs_two_characters :
  (forall es, Forall (fun q => 2 <= JS.length q) (search_requests (run init es))) /\
  (forall query r requestId s,
      JS.length query < 2 ->
      search_requests (fetchRemoteProducts query r requestId s) =
      search_requests s).
Proof.
  split.
  - intros es. apply search_requests_long, run_long_enough.
    + apply init_promise.
    + repeat constructor. intros q Hq. discriminate.
  - intros query r requestId s Hshort. unfold fetchRemoteProducts.
    destruct (Z.ltb_spec (JS.length query) 2) as [_ | Hlong]; [| lia].
    unfold search_requests. cbn [finish_search effects emit set_calls].
    rewrite omap_app. cbn. apply app_nil_r.
Qed.

Lemma search_needs_two_characters_witness :
  search_requests (fetchRemoteProducts "a" 0 "1000" init) = search_requests init.
Proof.
  exact (proj2 search_needs_two_characters "a" 0%nat "1000" init
           ltac:(reflexivity)).
Defined.

(** ** A text change clears the selection first *)

(** Everything a text change does to the outside, in order. *)
Lemma input_effects (s : State) (r : nat) (row : Row) (text : string) (now : Z) :
  rows s !! r = Some row ->
  effects (step s (Input r text now)) =
  effects s ++
  [EffDom r (SetProductId ""); EffDom r (SetMaxQty ""); EffDom r RemoveMaxAttr] ++
  match localTimer row with
  | Some id => [EffClearTimeout id]
  | None => []
  end ++
  map (EffDom r)
    (renderSuggestions (filterLocalProducts (prefetchCache s) (JS.trim text)) None
       (Some (if JS.truthy (JS.trim text) then "No local matches"
              else "No products yet."))) ++
  (if 2 <=? JS.length (JS.trim text)
   then [EffDom r (SetRemoteRequestId (JS.String_of now));
         EffSetTimeout (next_timer s) 220]
   else []).
Proof.
  intros Hrow. cbn [step]. unfold handleSearchInput.
  erewrite lookup_update_row_eq by exact Hrow.
  cbn [search_value apply_write localTimer].
  destruct (localTimer row) as [id|];
    destruct (2 <=? JS.length (JS.trim text));
    cbn [effects update_row set_rows emit set_timers dom_writes clearTimeout
           setTimeout map prefetchCache next_timer];
    rewrite <- ?app_assoc; cbn [app]; rewrite ?app_nil_r; reflexivity.
Qed.

(** The row a text change leaves behind. *)
Lemma input_rows (s : State) (r : nat) (row : Row) (text : string) (now : Z) :
  rows s !! r = Some row ->
  let typed := apply_write (SetSearch text) row in
  let shown :=
    apply_writes
      (renderSuggestions (filterLocalProducts (prefetchCache s) (JS.trim text))
         None
         (Some (if JS.truthy (JS.trim text) then "No local matches"
                else "No products yet.")))
      (apply_writes [SetProductId ""; SetMaxQty ""; RemoveMaxAttr] typed) in
  rows (step s (Input r text now)) !! r =
  Some (if 2 <=? JS.length (JS.trim text)
        then set_localTimer (Some (next_timer s))
               (apply_writes [SetRemoteRequestId (JS.String_of now)] shown)
        else shown).
Proof.
  intros Hrow. cbv zeta. cbn [step]. unfold handleSearchInput.
  erewrite lookup_update_row_eq by exact Hrow.
  change (search_value (apply_write (SetSearch text) row)) with text.
  change (localTimer (apply_write (SetSearch text) row)) with (localTimer row).
  destruct (localTimer row) as [id|];
    destruct (2 <=? JS.length (JS.trim text));
    cbn [rows update_row set_rows emit set_timers dom_writes clearTimeout
           setTimeout prefetchCache next_timer];
    rewrite !lookup_alter_eq, Hrow; reflexivity.
Qed.

Lemma input_row (s : State) (r : nat) (row : Row) (text : string) (now : Z) :
  rows s !! r = Some row ->
  exists row',
    rows (step s (Input r text now)) !! r = Some row' /\
    product_id_value row' = "" /\ qty_maxQty row' = Some "" /\
    qty_max row' = None /\
    (2 <= JS.length (JS.trim text) ->
     remoteRequestId row' = Some (JS.String_of now) /\
     localTimer row' = Some (next_timer s)).
Proof.
  intros Hrow. eexists. split; [exact (input_rows s r row text now Hrow) |].
  cbv zeta. rewrite (box_writes _ _ (box_only_renderSuggestions _ _ _)).
  destruct (Z.leb_spec 2 (JS.length (JS.trim text))) as [Hlong | Hshort].
  - repeat split; reflexivity.
  - repeat split; try reflexivity; lia.
Qed.

(** C7: a text change on a row writes the empty product id, the empty
    [dataset.maxQty] and the removal of the [max] attribute before anything
    else: the cancellation of the pending timer, the rendering of the local
    filter's result and whatever follows come after these three writes, and
    the row ends with no product id and no bound. *)
Theorem text_change_clears_selection (s : State) (r : nat) (row : Row)
    (text : string) (now : Z) :
  rows s !! r = Some row ->
  let s' := step s (Input r text now) in
  let query := JS.trim text in
  (exists cancel rest,
      effects s' =
      effects s ++
      [EffDom r (SetProductId ""); EffDom r (SetMaxQty "");
       EffDom r RemoveMaxAttr] ++
      cancel ++
      map (EffDom r)
        (renderSuggestions (filterLocalProducts (prefetchCache s) query) None
           (Some (if JS.truthy query then "No local matches"
                  else "No products yet."))) ++
      rest /\
      cancel = match localTimer row with
               | Some id => [EffClearTimeout id]
               | None => []
               end) /\
  (exists row',
      rows s' !! r = Some row' /\
      product_id_value row' = "" /\
      qty_maxQty row' = Some "" /\
      qty_max row' = None).
Proof.
  intros Hrow. cbv zeta. split.
  - eexists _, _. split; [| reflexivity].
    now rewrite (input_effects s r row text now Hrow).
  - destruct (input_row s r row text now Hrow) as (row' & H1 & H2 & H3 & H4 & _).
    now exists row'.
Qed.

Lemma text_change_clears_selection_witness :
  exists row',
    rows (step selected_page (Input 0 "blue" 1000)) !! 0%nat = Some row' /\
    product_id_value row' = "" /\ qty_maxQty row' = Some "" /\
    qty_max row' = None.
Proof.
  exact (proj2 (text_change_clears_selection selected_page 0 selected_row
                  "blue" 1000 ltac:(vm_compute; reflexivity))).
Defined.

(** ** One debounce timer per row *)

Lemma quiet_refl (s : State) : quiet s s.
Proof. repeat split; auto. Qed.

Lemma quiet_trans (s1 s2 s3 : State) : quiet s1 s2 -> quiet s2 s3 -> quiet s1 s3.
Proof.
  intros (T1 & N1 & L1) (T2 & N2 & L2). repeat split.
  - intros id r q t H. now apply T1, T2.
  - congruence.
  - intros r. now rewrite L2, L1.
Qed.

(** A change that leaves timers, row counter and rows alone. *)
Lemma quiet_same (s s' : State) :
  timers s' = timers s -> next_row s' = next_row s -> rows s' = rows s ->
  quiet s s'.
Proof. intros Ht Hn Hr. repeat split; congruence. Qed.

Lemma quiet_alter (f : Row -> Row) (r : nat) (s s' : State) :
  (forall row, localTimer (f row) = localTimer row) ->
  timers s' = timers s -> next_row s' = next_row s ->
  rows s' = alter f r (rows s) ->
  quiet s s'.
Proof.
  intros Hf Ht Hn Hr. repeat split; [congruence | congruence |].
  intros r'. rewrite Hr, lookup_alter. destruct (decide (r = r')) as [<- |].
  - destruct (rows s !! r); cbn; [now rewrite Hf | reflexivity].
  - reflexivity.
Qed.

Lemma quiet_dom_writes (r : nat) (ws : list DomWrite) (s : State) :
  quiet s (dom_writes r ws s).
Proof.
  apply (quiet_alter (apply_writes ws) r); try reflexivity.
  intros row. apply localTimer_apply_writes.
Qed.

Lemma quiet_clearTimeout (id : positive) (s : State) : quiet s (clearTimeout id s).
Proof.
  repeat split; try reflexivity.
  intros id' r q t H. cbn [timers clearTimeout emit set_timers] in H.
  apply lookup_delete_Some in H. tauto.
Qed.

Lemma quiet_prefetch_then (r : nat) (s : State) : quiet s (prefetch_then r s).
Proof.
  unfold prefetch_then. destruct (bool_decide _);
    [apply quiet_dom_writes | apply quiet_refl].
Qed.

Lemma quiet_waiters (ws : list nat) (s : State) :
  quiet s (fold_left (fun s r => prefetch_then r s) ws s).
Proof.
  revert s. induction ws as [|r ws IH]; intros s; cbn [fold_left].
  - apply quiet_refl.
  - eapply quiet_trans; [apply quiet_prefetch_then | apply IH].
Qed.

Lemma quiet_finish_prefetch (b : State * Completion) :
  quiet (fst b) (finish_prefetch b).
Proof.
  destruct b as [s []]; cbn [fst finish_prefetch].
  - eapply quiet_trans; [| apply quiet_waiters]. now apply quiet_same.
  - now apply quiet_same.
  - now apply quiet_same.
Qed.

Lemma quiet_finish_search (id : positive) (c : SearchCall)
    (b : State * Completion) :
  quiet (fst b) (finish_search id c b).
Proof. destruct b as [s []]; now apply quiet_same. Qed.

Lemma quiet_search_after_fetch (c : SearchCall) (o : FetchOutcome) (s : State) :
  quiet s (fst (try_catch (search_after_fetch c o s) (search_catch c))).
Proof.
  unfold search_after_fetch, search_catch. destruct o as [|status]; cbn.
  - destruct (stale c s); cbn; [apply quiet_refl | apply quiet_dom_writes].
  - destruct (stale c s); cbn; [apply quiet_refl |].
    destruct (ok status); cbn; [apply quiet_refl | apply quiet_dom_writes].
Qed.

Lemma quiet_search_after_json (c : SearchCall) (o : JsonOutcome) (s : State) :
  quiet s (fst (try_catch (search_after_json c o s) (search_catch c))).
Proof.
  unfold search_after_json, search_catch.
  destruct o as [| |[[|p results]|]]; cbn; destruct (stale c s); cbn;
    (apply quiet_refl || apply quiet_dom_writes).
Qed.

Lemma quiet_prefetch_after (b : State * Completion) (s : State) :
  (fst b = s \/ fst b = set_prefetchCache [] s \/
   exists l, fst b = set_prefetchCache l s) ->
  quiet s (fst (try_catch b prefetch_catch)).
Proof.
  intros H. destruct b as [s0 []]; cbn in *;
    destruct H as [-> | [-> | [l ->]]]; now apply quiet_same.
Qed.

Lemma quiet_fetchRemoteProducts (query : string) (r : nat) (requestId : string)
    (s : State) :
  quiet s (fetchRemoteProducts query r requestId s).
Proof.
  unfold fetchRemoteProducts. destruct (JS.length query <? 2);
    now apply quiet_same.
Qed.

Lemma quiet_openPrefetch (r : nat) (s : State) : quiet s (openPrefetch r s).
Proof.
  unfold openPrefetch. destruct (prefetchCache s); [| apply quiet_dom_writes].
  set (s1 := dom_writes r _ s).
  apply (quiet_trans _ s1); [apply quiet_dom_writes |].
  assert (Hl : quiet s1 (loadPrefetch s1)).
  { unfold loadPrefetch. destruct (prefetchPromise s1);
      [apply quiet_refl | now apply quiet_same]. }
  apply (quiet_trans _ _ _ Hl).
  destruct (prefetchPromise (loadPrefetch s1)) as [[]|].
  - now apply quiet_same.
  - apply quiet_prefetch_then.
  - now apply quiet_same.
Qed.

(** Every task but a new row and a text change is quiet. *)
Lemma quiet_step (s : State) (e : Event) :
  match e with AddRow _ | Input _ _ _ => False | _ => True end ->
  quiet s (step s e).
Proof.
  destruct e as [d|r|r|r|r text now|r text|r i|id|id o|id o|o|o];
    cbn [step]; intros H; try contradiction.
  - destruct (bool_decide _); now apply quiet_same.
  - destruct (rows s !! r) as [row0|] eqn:Er; [| apply quiet_refl].
    unfold on_focus. cbn [rows set_activeElement]. rewrite Er.
    apply (quiet_trans _ (set_activeElement (Some r) s));
      [now apply quiet_same |].
    destruct (hideTimer row0).
    + eapply quiet_trans; [apply quiet_clearTimeout | apply quiet_openPrefetch].
    + apply quiet_openPrefetch.
  - destruct (rows s !! r); [| apply quiet_refl].
    set (s0 := if bool_decide _ then _ else s).
    apply (quiet_trans _ s0).
    { subst s0. destruct (bool_decide _); now apply quiet_same. }
    unfold on_blur, setTimeout. cbv beta iota zeta. repeat split.
    + intros id r' q t Hid.
      cbn [timers update_row set_rows emit set_timers] in Hid.
      apply lookup_insert_Some in Hid as [[_ Hid] | [_ Hid]];
        [discriminate | exact Hid].
    + intros r'. cbn [rows update_row set_rows emit set_timers].
      rewrite lookup_alter. destruct (decide (r = r')) as [<- |]; [| reflexivity].
      now destruct (rows s0 !! r).
  - unfold on_qty_input.
    set (s0 := update_row r (apply_write (SetQty text)) s).
    assert (H0 : quiet s s0)
      by (apply (quiet_alter (apply_write (SetQty text)) r); reflexivity).
    destruct (rows s0 !! r); [| exact H0].
    eapply quiet_trans; [exact H0 | apply quiet_dom_writes].
  - destruct (rows s !! r) as [row|] eqn:Er; [| apply quiet_refl].
    destruct (box_items _ !! i) as [[|p]|]; try apply quiet_refl.
    unfold on_select. rewrite Er. apply quiet_dom_writes.
  - destruct (timers s !! id) as [task|] eqn:Et; [| apply quiet_refl].
    set (s0 := set_timers (delete id (timers s)) (next_timer s) s).
    assert (H0 : quiet s s0).
    { repeat split. intros id' r q t Hid.
      cbn [timers s0 set_timers] in Hid. apply lookup_delete_Some in Hid. tauto. }
    apply (quiet_trans _ _ _ H0). destruct task as [r q t|r]; cbn [run_timer].
    + apply quiet_fetchRemoteProducts.
    + apply quiet_dom_writes.
  - destruct (calls s !! id) as [c|]; [| apply quiet_refl].
    destruct (call_stage c); [| apply quiet_refl].
    eapply quiet_trans; [apply (quiet_search_after_fetch c o) |].
    apply quiet_finish_search.
  - destruct (calls s !! id) as [c|]; [| apply quiet_refl].
    destruct (call_stage c); [apply quiet_refl |].
    eapply quiet_trans; [apply (quiet_search_after_json c o) |].
    apply quiet_finish_search.
  - destruct (prefetchPromise s) as [[[]|]|]; try apply quiet_refl.
    eapply quiet_trans; [| apply quiet_finish_prefetch].
    apply quiet_prefetch_after. destruct o as [|status]; cbn; [now left |].
    destruct (ok status); now left.
  - destruct (prefetchPromise s) as [[[]|]|]; try apply quiet_refl.
    eapply quiet_trans; [| apply quiet_finish_prefetch].
    apply quiet_prefetch_after. destruct o as [| |results]; cbn;
      [now left | right; now left | right; right; now eexists].
Qed.

Lemma quiet_tracked (s s' : State) :
  timers_tracked s -> quiet s s' -> timers_tracked s'.
Proof.
  intros [Hfresh Htimer] (Ht & Hn & Hl). split.
  - intros r row' Hrow'. rewrite Hn. specialize (Hl r). rewrite Hrow' in Hl.
    destruct (rows s !! r) as [row|] eqn:Er; [| discriminate].
    now apply (Hfresh r row).
  - intros id r q t Hid. apply Ht, Htimer in Hid as (row & Hrow & Hlt).
    specialize (Hl r). rewrite Hrow in Hl.
    destruct (rows s' !! r) as [row'|]; [| discriminate].
    exists row'. split; [reflexivity |]. cbn in Hl. congruence.
Qed.

Lemma tracked_addRow (d : Defaults) (s : State) :
  timers_tracked s -> timers_tracked (addRow d s).
Proof.
  intros [Hfresh Htimer].
  set (s0 := set_next_row (S (next_row s))
               (set_rows (<[next_row s := blank_row]> (rows s)) s)).
  assert (T0 : timers_tracked s0).
  { split.
    - intros r row Hrow. cbn [rows next_row s0 set_next_row set_rows] in *.
      apply lookup_insert_Some in Hrow as [[<- _] | [_ Hrow]]; [lia |].
      apply Hfresh in Hrow. lia.
    - intros id r q t Hid. destruct (Htimer id r q t Hid) as (row & Hrow & Hl).
      exists row. split; [| exact Hl].
      cbn [rows s0 set_next_row set_rows].
      rewrite lookup_insert_ne; [exact Hrow |].
      apply Hfresh in Hrow. lia. }
  apply (quiet_tracked s0); [exact T0 |].
  unfold addRow, createRow. fold s0.
  set (s1 := match d_product d with Some p => _ | None => s0 end).
  assert (Q1 : quiet s0 s1)
    by (subst s1; destruct (d_product d);
        [apply quiet_dom_writes | apply quiet_refl]).
  set (s2 := match d_qty d with Undefined => s1 | Null => _ | Value q => _ end).
  assert (Q2 : quiet s1 s2)
    by (subst s2; destruct (d_qty d);
        [apply quiet_refl | apply quiet_dom_writes ..]).
  set (s3 := if JS.truthy (JS.or_else (d_expected_date d) "") then _ else s2).
  assert (Q3 : quiet s2 s3)
    by (subst s3; destruct (JS.truthy (JS.or_else (d_expected_date d) ""));
        [apply quiet_dom_writes | apply quiet_refl]).
  set (s4 := if JS.truthy (JS.or_else (d_notes d) "") then _ else s3).
  assert (Q4 : quiet s3 s4)
    by (subst s4; destruct (JS.truthy (JS.or_else (d_notes d) ""));
        [apply quiet_dom_writes | apply quiet_refl]).
  apply (quiet_trans _ s4); [| now apply quiet_same].
  eauto using quiet_trans.
Qed.

Lemma tracked_input (r : nat) (text : string) (now : Z) (s : State) :
  timers_tracked s -> timers_tracked (step s (Input r text now)).
Proof.
  intros T. cbn [step].
  set (s0 := update_row r (apply_write (SetSearch text)) s).
  assert (Q0 : quiet s s0)
    by (apply (quiet_alter (apply_write (SetSearch text)) r); reflexivity).
  assert (T0 : timers_tracked s0) by (apply (quiet_tracked s); assumption).
  unfold handleSearchInput.
  destruct (rows s0 !! r) as [row|] eqn:Er; [| exact T0].
  set (s1 := dom_writes r [SetProductId ""; SetMaxQty ""; RemoveMaxAttr] s0).
  assert (Q1 : quiet s0 s1) by apply quiet_dom_writes.
  assert (T1 : timers_tracked s1) by (apply (quiet_tracked s0); assumption).
  set (s2 := match localTimer row with
             | Some id => clearTimeout id s1
             | None => s1
             end).
  assert (Q2 : quiet s1 s2)
    by (subst s2; destruct (localTimer row);
        [apply quiet_clearTimeout | apply quiet_refl]).
  assert (L1 : localTimer <$> rows s1 !! r = Some (localTimer row)).
  { destruct Q1 as (_ & _ & Hl). now rewrite Hl, Er. }
  assert (Hnone : forall id q t, timers s2 !! id <> Some (Debounce r q t)).
  { intros id q t Hid. subst s2. destruct (localTimer row) as [id0|] eqn:El.
    - cbn [timers clearTimeout emit set_timers] in Hid.
      apply lookup_delete_Some in Hid as [Hne Hid].
      destruct T1 as [_ Htimer].
      destruct (Htimer id r q t Hid) as (row1 & Hrow1 & Hl1).
      rewrite Hrow1 in L1. cbn in L1. congruence.
    - destruct T1 as [_ Htimer].
      destruct (Htimer id r q t Hid) as (row1 & Hrow1 & Hl1).
      rewrite Hrow1 in L1. cbn in L1. congruence. }
  set (s3 := dom_writes r (renderSuggestions _ _ _) s2).
  assert (Q3 : quiet s2 s3) by apply quiet_dom_writes.
  assert (Q03 : quiet s0 s3) by eauto using quiet_trans.
  destruct (2 <=? JS.length (JS.trim (search_value row)));
    [| apply (quiet_tracked s0); assumption].
  set (s4 := dom_writes r [SetRemoteRequestId (JS.String_of now)] s3).
  assert (Q4 : quiet s3 s4) by apply quiet_dom_writes.
  assert (Q24 : quiet s2 s4) by eauto using quiet_trans.
  assert (T4 : timers_tracked s4)
    by (apply (quiet_tracked s0); eauto using quiet_trans).
  unfold setTimeout. cbv beta iota zeta.
  destruct T4 as [Hfresh Htimer]. split.
  - intros r' row' Hrow'.
    cbn [rows next_row update_row set_rows emit set_timers] in *.
    rewrite lookup_alter in Hrow'.
    destruct (decide (r = r')) as [<- |]; [| now apply (Hfresh r' row')].
    destruct (rows s4 !! r) as [row4|] eqn:E4; [| discriminate].
    now apply (Hfresh r row4).
  - intros id r' q t Hid.
    cbn [timers rows update_row set_rows emit set_timers] in *.
    rewrite lookup_alter.
    apply lookup_insert_Some in Hid as [[<- Htask] | [Hne Hid]].
    + injection Htask as <- _ _.
      rewrite decide_True by reflexivity.
      assert (L4 : localTimer <$> rows s4 !! r = Some (localTimer row)).
      { destruct Q03 as (_ & _ & Hl3). destruct Q4 as (_ & _ & Hl4).
        now rewrite Hl4, Hl3, Er. }
      destruct (rows s4 !! r) as [row4|]; [| discriminate].
      eexists. split; reflexivity.
    + destruct (decide (r = r')) as [<- | Hr].
      * exfalso. destruct Q24 as (Ht & _ & _).
        now apply (Hnone id q t), Ht.
      * now apply (Htimer id r' q t).
Qed.

Lemma tracked_step (s : State) (e : Event) :
  timers_tracked s -> timers_tracked (step s e).
Proof.
  intros T. destruct e as [d|r|r|r|r text now|r text|r i|id|id o|id o|o|o];
    try (apply (quiet_tracked s); [exact T | now apply quiet_step]).
  - now apply tracked_addRow.
  - now apply tracked_input.
Qed.

Lemma tracked_run (s : State) (es : list Event) :
  timers_tracked s -> timers_tracked (run s es).
Proof.
  revert s. induction es as [|e es IH]; intros s T; [exact T |].
  apply IH, tracked_step, T.
Qed.

Lemma tracked_init : timers_tracked init.
Proof. split; intros *; cbn; rewrite lookup_empty; discriminate. Qed.

(** At most one debounce timer is pending for a row. *)
Lemma one_debounce (s : State) (r : nat) (id1 id2 : positive) :
  timers_tracked s ->
  pending_debounce s r id1 -> pending_debounce s r id2 -> id1 = id2.
Proof.
  intros [_ Htimer] (q1 & t1 & H1) (q2 & t2 & H2).
  destruct (Htimer _ _ _ _ H1) as (row1 & Hr1 & Hl1).
  destruct (Htimer _ _ _ _ H2) as (row2 & Hr2 & Hl2).
  congruence.
Qed.

(** ** Request tokens *)

Lemma tokens_plain (r r' : nat) (ws : list DomWrite) :
  plain ws -> omap (token_written r) (map (EffDom r') ws) = [].
Proof.
  induction 1 as [|w ws Hw Hws IH]; [reflexivity |].
  destruct w; try discriminate Hw; exact IH.
Qed.

(** A text change of at least 2 characters gives the row one more token:
    the decimal digits of the clock reading. *)
Lemma input_tokens (s : State) (r : nat) (row : Row) (text : string) (now : Z) :
  rows s !! r = Some row ->
  2 <= JS.length (JS.trim text) ->
  tokens_of r (step s (Input r text now)) = tokens_of r s ++ [JS.String_of now].
Proof.
  intros Hrow Hlong. unfold tokens_of.
  rewrite (input_effects s r row text now Hrow), !omap_app.
  rewrite tokens_plain by apply plain_renderSuggestions.
  destruct (Z.leb_spec 2 (JS.length (JS.trim text))); [| lia].
  destruct (localTimer row); cbn; rewrite bool_decide_eq_true_2 by reflexivity;
    reflexivity.
Qed.

Lemma token_from_mono (r : nat) (R R' : list Z) (e : Effect) :
  token_from r R e -> token_from r (R ++ R') e.
Proof.
  intros H t Ht. destruct (H t Ht) as (z & Hz & ->).
  exists z. split; [apply in_or_app; now left | reflexivity].
Qed.

Lemma run_token_from (r : nat) (es : list Event) (s : State) (R : list Z) :
  prefetchPromise s <> None ->
  Forall (token_from r R) (effects s) ->
  Forall (token_from r (R ++ readings_of r es)) (effects (run s es)).
Proof.
  revert s R. induction es as [|e es IH]; intros s R Hp Hs.
  - cbn. now rewrite app_nil_r.
  - replace (readings_of r (e :: es))
      with (readings_of r [e] ++ readings_of r es)
      by (unfold readings_of; now rewrite <- omap_app).
    rewrite app_assoc. apply IH; [now apply step_promise |].
    assert (Hadd : adds_only (token_from r (R ++ readings_of r [e])) s (step s e)).
    { apply adds_only_step; try exact Hp; unfold token_from.
      - intros r' w Hw t Ht. destruct w; cbn in *; discriminate.
      - intros id delay t Ht. discriminate.
      - intros id t Ht. discriminate.
      - intros a t Ht. discriminate.
      - intros q _ t Ht. discriminate.
      - intros r' text now -> t Ht. cbn in Ht |- *.
        destruct (bool_decide (r' = r)); [| discriminate].
        injection Ht as <-. exists now. split; [| reflexivity].
        apply in_or_app. right. now left. }
    destruct Hadd as (new & E & F). rewrite E. apply Forall_app. split.
    + eapply Forall_impl; [exact Hs |]. intros x. apply token_from_mono.
    + exact F.
Qed.

Lemma tokens_are_readings (r : nat) (es : list Event) (old : string) :
  In old (tokens_of r (run init es)) ->
  exists z, In z (readings_of r es) /\ old = JS.String_of z.
Proof.
  intros Hold. apply list_elem_of_In, list_elem_of_omap in Hold
    as (e & He & Ht).
  assert (H : Forall (token_from r ([] ++ readings_of r es))
                (effects (run init es))).
  { apply run_token_from; [apply init_promise |].
    repeat constructor. intros t H. discriminate. }
  rewrite List.Forall_forall in H. apply list_elem_of_In in He.
  exact (H e He old Ht).
Qed.

(** C8, as the specification words it, fails: the token is the clock
    reading in milliseconds, so two text changes at the same reading get the
    same token. After "ab" typed at reading 1000, "abc" typed at reading 1000
    gets the token "1000" again, which is not greater than the first. *)
Lemma token_repeats_at_same_reading :
  ~ (forall es r text now old,
        is_Some (rows (run init es) !! r) ->
        2 <= JS.length (JS.trim text) ->
        In old (tokens_of r (run init es)) ->
        exists tok a b,
          remoteRequestId <$> rows (step (run init es) (Input r text now)) !! r
          = Some (Some tok) /\
          JS.parseInt old = Some a /\ JS.parseInt tok = Some b /\ a < b).
Proof.
  intros H.
  destruct (H [AddRow no_defaults; Input 0%nat "ab" 1000] 0%nat "abc" 1000
              "1000" ltac:(vm_compute; eauto) ltac:(vm_compute; discriminate)
              ltac:(vm_compute; left; reflexivity))
    as (tok & a & b & Htok & Ha & Hb & Hlt).
  vm_compute in Htok, Ha. injection Htok as <-. injection Ha as <-.
  vm_compute in Hb. injection Hb as <-. lia.
Qed.

(** C8 (amended): on a text change whose trimmed query has at least 2
    characters the row's token becomes the decimal digits of the clock
    reading; it is strictly greater than every token the row had before
    when the reading is greater than the readings of the row's earlier text
    changes. The timer the row's [localTimer] names is cleared and a new
    timeout of 220 ms is set, which on firing sends the lookup for the query
    tagged with the new token. At any time at most one debounce timer is
    pending for a row. *)
Theorem text_change_token_and_timer (es : list Event) (r : nat) (row : Row)
    (text : string) (now : Z) :
  let s := run init es in
  let s' := step s (Input r text now) in
  let query := JS.trim text in
  rows s !! r = Some row ->
  2 <= JS.length query ->
  (exists row',
      rows s' !! r = Some row' /\
      remoteRequestId row' = Some (JS.String_of now) /\
      localTimer row' = Some (next_timer s)) /\
  tokens_of r s' = tokens_of r s ++ [JS.String_of now] /\
  JS.parseInt (JS.String_of now) = Some now /\
  ((forall t, In t (readings_of r es) -> t < now) ->
   forall old, In old (tokens_of r s) ->
               exists a, JS.parseInt old = Some a /\ a < now) /\
  timers s' =
  <[next_timer s := Debounce r query (JS.String_of now)]>
    (match localTimer row with
     | Some id => delete id (timers s)
     | None => timers s
     end) /\
  (exists before, effects s' = before ++ [EffSetTimeout (next_timer s) 220]) /\
  (let fired := step s' (Timer (next_timer s)) in
   search_requests fired = search_requests s' ++ [query] /\
   calls fired !! next_call s' =
   Some (mkCall r query (JS.String_of now) AwaitFetch)) /\
  (forall es' r' id1 id2,
      pending_debounce (run init es') r' id1 ->
      pending_debounce (run init es') r' id2 -> id1 = id2).
Proof.
  intros s s' query Hrow Hlong.
  assert (Htimers :
            timers s' =
            <[next_timer s := Debounce r query (JS.String_of now)]>
              (match localTimer row with
               | Some id => delete id (timers s)
               | None => timers s
               end)).
  { subst s' query. cbn [step]. unfold handleSearchInput.
    erewrite lookup_update_row_eq by exact Hrow.
    cbn [search_value apply_write localTimer].
    destruct (Z.leb_spec 2 (JS.length (JS.trim text))); [| lia].
    destruct (localTimer row); reflexivity. }
  assert (Hcalls : calls s' = calls s /\ next_call s' = next_call s).
  { subst s'. cbn [step]. unfold handleSearchInput.
    erewrite lookup_update_row_eq by exact Hrow.
    cbn [search_value apply_write localTimer].
    destruct (2 <=? JS.length (JS.trim text)); destruct (localTimer row);
      split; reflexivity. }
  split; [| split; [| split; [| split; [| split; [| split; [| split]]]]]].
  - destruct (input_row s r row text now Hrow)
      as (row' & H1 & _ & _ & _ & H5).
    exists row'. destruct (H5 Hlong). now repeat split.
  - now apply (input_tokens s r row).
  - apply parseInt_String_of.
  - intros Hclock old Hold.
    destruct (tokens_are_readings r es old Hold) as (z & Hz & ->).
    exists z. split; [apply parseInt_String_of | now apply Hclock].
  - exact Htimers.
  - subst s'. rewrite (input_effects s r row text now Hrow).
    fold query. destruct (Z.leb_spec 2 (JS.length query)); [| lia].
    eexists. rewrite !app_assoc.
    change [EffDom r (SetRemoteRequestId (JS.String_of now));
            EffSetTimeout (next_timer s) 220]
      with ([EffDom r (SetRemoteRequestId (JS.String_of now))] ++
            [EffSetTimeout (next_timer s) 220]).
    rewrite app_assoc. reflexivity.
  - cbv zeta. cbn [step]. rewrite Htimers, lookup_insert_eq.
    cbn [run_timer]. unfold fetchRemoteProducts.
    destruct (Z.ltb_spec (JS.length query) 2); [lia |].
    split.
    + unfold search_requests.
      cbn [finish_search effects emit set_calls set_timers].
      now rewrite omap_app.
    + cbn [finish_search calls set_calls emit set_timers next_call].
      apply lookup_insert_eq.
  - intros es' r' id1 id2. apply one_debounce, tracked_run, tracked_init.
Qed.

Lemma text_change_token_and_timer_witness :
  tokens_of 0 (step typed_page (Input 0 "abc" 2000)) = ["1000"; "2000"].
Proof.
  exact (proj1 (proj2 (text_change_token_and_timer
                         [AddRow no_defaults; Input 0%nat "ab" 1000] 0
                         typed_row "abc" 2000
                         ltac:(vm_compute; reflexivity)
                         ltac:(vm_compute; discriminate)))).
Defined.

(** ** Responses that arrive late *)

(** A response whose token is not the row's current token writes nothing
    to the row. *)
Lemma stale_response_discarded (s : State) (id : positive) (c : SearchCall)
    (o : FetchOutcome) (j : JsonOutcome) :
  calls s !! id = Some c ->
  stale c s = true ->
  rows (step s (SearchFetched id o)) = rows s /\
  rows (step s (SearchParsed id j)) = rows s.
Proof.
  intros Hcall Hstale. cbn [step]. rewrite Hcall. split.
  - destruct (call_stage c); [| reflexivity].
    unfold search_after_fetch, search_catch. destruct o; cbn [try_catch];
      rewrite Hstale; reflexivity.
  - destruct (call_stage c); [reflexivity |].
    unfold search_after_json, search_catch.
    destruct j as [| |results]; cbn [try_catch]; rewrite Hstale; reflexivity.
Qed.

(** A text change of at least 2 characters at another clock reading makes
    the row's earlier lookups stale. *)
Lemma longer_query_supersedes (s : State) (r : nat) (row : Row) (text : string)
    (now : Z) (c : SearchCall) :
  rows s !! r = Some row ->
  call_row c = r ->
  2 <= JS.length (JS.trim text) ->
  call_requestId c <> JS.String_of now ->
  stale c (step s (Input r text now)) = true.
Proof.
  intros Hrow Hr Hlong Hne.
  destruct (input_row s r row text now Hrow) as (row' & Hrow' & _ & _ & _ & H).
  destruct (H Hlong) as [Htok _].
  unfold stale. rewrite Hr, Hrow', Htok.
  apply negb_true_iff, String.eqb_neq, Hne.
Qed.

(** A text change shorter than 2 characters leaves the row's token as it
    is, so a lookup in flight stays current. *)
Lemma shorter_query_keeps_token (s : State) (r : nat) (row : Row)
    (text : string) (now : Z) :
  rows s !! r = Some row ->
  JS.length (JS.trim text) < 2 ->
  remoteRequestId <$> rows (step s (Input r text now)) !! r =
  Some (remoteRequestId row).
Proof.
  intros Hrow Hshort. rewrite (input_rows s r row text now Hrow). cbv zeta.
  destruct (Z.leb_spec 2 (JS.length (JS.trim text))); [lia |].
  cbn [fmap option_fmap option_map]. f_equal.
  now rewrite (box_writes _ _ (box_only_renderSuggestions _ _ _)).
Qed.

(** C1 fails on the code. The lookup for "pe" is in flight when the text is
    replaced by "r"; a query of one character gets no new token, so the late
    response for "pe" is still current and is rendered: the box ends with
    the remote result of "pe" while the query is "r", whose own result (the
    local match "Red Pen") it has overwritten. *)
Theorem late_response_after_short_query :
  exists before after,
    rows (run init (firstn 6 late_response)) !! 0%nat = Some before /\
    rows (run init late_response) !! 0%nat = Some after /\
    search_value before = "r" /\
    suggest_box before = mkBox [SuggestionItem red_pen] false /\
    remoteRequestId before = Some "1000" /\
    search_value after = "r" /\
    suggest_box after = mkBox [SuggestionItem pencil] false /\
    search_requests (run init late_response) = ["pe"].
Proof. vm_compute. eexists _, _. repeat split. Qed.

(** * Further properties of the code *)

(** ** More on the local filter *)

Lemma sublist_List_filter {A} (f : A -> bool) (l : list A) :
  sublist (List.filter f l) l.
Proof.
  induction l as [|a l IH]; cbn [List.filter]; [constructor |].
  destruct (f a); now constructor.
Qed.

(** The local filter returns entries of the cache, each at most once per
    occurrence and in the order of the cache. *)
Lemma filterLocalProducts_sublist (cache : list Product) (x : string) :
  sublist (filterLocalProducts cache x) cache.
Proof.
  destruct x as [|c x].
  - rewrite filterLocalProducts_empty. apply sublist_take.
  - rewrite filterLocalProducts_nonempty by discriminate.
    etransitivity; [apply sublist_take | apply sublist_List_filter].
Qed.

Lemma lower_char_idem (c : ascii) :
  JS.lower_char (JS.lower_char c) = JS.lower_char c.
Proof. destruct c as [[] [] [] [] [] [] [] []]; reflexivity. Qed.

Lemma toLowerCase_idem (x : string) :
  JS.toLowerCase (JS.toLowerCase x) = JS.toLowerCase x.
Proof.
  induction x as [|c x IH]; cbn [JS.toLowerCase]; [reflexivity |].
  now rewrite lower_char_idem, IH.
Qed.

Lemma truthy_toLowerCase (x : string) :
  JS.truthy (JS.toLowerCase x) = JS.truthy x.
Proof. now destruct x. Qed.

(** X1: The case of the query does not matter: two queries that differ in case
    only get the same result, and so does a query and its lower-cased
    form. *)
Theorem filterLocalProducts_query_case (cache : list Product) (x y : string) :
  (JS.toLowerCase x = JS.toLowerCase y ->
   filterLocalProducts cache x = filterLocalProducts cache y) /\
  filterLocalProducts cache (JS.toLowerCase x) = filterLocalProducts cache x.
Proof.
  assert (H : forall a b, JS.toLowerCase a = JS.toLowerCase b ->
                          filterLocalProducts cache a = filterLocalProducts cache b).
  { intros a b Hab. unfold filterLocalProducts.
    rewrite <- (truthy_toLowerCase a), <- (truthy_toLowerCase b), Hab.
    reflexivity. }
  split; [apply H |]. apply H, toLowerCase_idem.
Qed.

Lemma filterLocalProducts_query_case_witness :
  filterLocalProducts pens "PEN" = filterLocalProducts pens "pen".
Proof.
  exact (proj1 (filterLocalProducts_query_case pens "PEN" "pen") eq_refl).
Defined.

Lemma In_firstn_elim {A} (n : nat) (l : list A) (x : A) :
  In x (firstn n l) -> In x l.
Proof.
  revert n. induction l as [|a l IH]; intros [|n]; cbn; try tauto.
  intros [-> | H]; [now left | right; eauto].
Qed.

Lemma filterLocalProducts_In (cache : list Product) (x : string) (p : Product) :
  In p (filterLocalProducts cache x) -> In p cache /\ matches_query x p = true.
Proof.
  destruct x as [|c x].
  - rewrite filterLocalProducts_empty. intros H.
    split; [| apply includes_spec; now exists "", (combined p)].
    now apply In_firstn_elim in H.
  - rewrite filterLocalProducts_nonempty by discriminate. intros H.
    apply In_firstn_elim in H. now apply filter_In in H.
Qed.

(** X2: Typing more never brings in a product the shorter text did not
    match, as long as the longer text is lower-cased piece by piece: when
    the lower case of [x] followed by [y] is the lower case of [x] followed
    by the lower case of [y], every product the filter returns for [x]
    followed by [y] matches [x] and matches [y]. (Lower-casing is not always
    piecewise: a capital sigma at the end of a word has a lower case of its
    own, so that a text ending in it is outside this statement.) *)
Theorem filterLocalProducts_refines (cache : list Product) (x y : string)
    (p : Product) :
  JS.toLowerCase (x +:+ y) = JS.toLowerCase x +:+ JS.toLowerCase y ->
  In p (filterLocalProducts cache (x +:+ y)) ->
  In p (List.filter (matches_query x) cache) /\
  In p (List.filter (matches_query y) cache).
Proof.
  intros Hlower H. apply filterLocalProducts_In in H as [Hin Hm].
  unfold matches_query in Hm. rewrite Hlower in Hm.
  apply includes_spec in Hm as (pre & post & Hc).
  split; apply filter_In; (split; [exact Hin |]);
    unfold matches_query; apply includes_spec.
  - exists pre, (JS.toLowerCase y +:+ post). now rewrite Hc, !append_assoc.
  - exists (pre +:+ JS.toLowerCase x), post. now rewrite Hc, !append_assoc.
Qed.

Lemma filterLocalProducts_refines_witness :
  In blue_pen (List.filter (matches_query "bl") pens) /\
  In blue_pen (List.filter (matches_query "ue") pens).
Proof.
  apply (filterLocalProducts_refines pens "bl" "ue" blue_pen).
  - reflexivity.
  - vm_compute. left. reflexivity.
Defined.

(** ** Rendering *)

Lemma append_suggestions_box (l : list Product) (row : Row) :
  suggest_box
    (apply_writes (map (fun p => AppendBox (SuggestionItem p)) l ++ [ShowBox]) row)
  = mkBox (box_items (suggest_box row) ++ map SuggestionItem l) false.
Proof.
  revert row. induction l as [|p l IH]; intros row.
  - cbn. now rewrite app_nil_r.
  - change (apply_writes (map _ (p :: l) ++ [ShowBox]) row)
      with (apply_writes (map (fun p => AppendBox (SuggestionItem p)) l ++ [ShowBox])
              (apply_write (AppendBox (SuggestionItem p)) row)).
    rewrite IH. cbn. now rewrite <- app_assoc.
Qed.

(** The box [renderSuggestions] leaves behind, whatever it held before. *)
Lemma renderSuggestions_shows (items : list Product) (limit : option nat)
    (emptyMessage : option string) (row : Row) :
  suggest_box (apply_writes (renderSuggestions items limit emptyMessage) row) =
  mkBox
    match firstn (match limit with Some (S n) => S n | _ => DISPLAY_LIMIT end)
            items with
    | [] => [MessageItem (JS.or_else emptyMessage "No products found.")]
    | l => map SuggestionItem l
    end false.
Proof.
  unfold renderSuggestions, JS.slice0.
  change (apply_writes (ClearBox :: ?ws) row)
    with (apply_writes ws (apply_write ClearBox row)).
  destruct (firstn _ items) as [|p l].
  - apply renderMessage_box. now apply or_else_truthy.
  - now rewrite append_suggestions_box.
Qed.

(** X3: Whatever the suggestion box held, after [renderSuggestions] it is
    visible and holds either the first [limit] items (30 when no limit is
    given) as suggestions, or, for no items, one message: the given empty
    message or "No products found.". It never stays empty and never holds
    more than the limit. *)
Theorem renderSuggestions_box (items : list Product) (limit : option nat)
    (emptyMessage : option string) (row : Row) :
  let cap := match limit with Some (S n) => S n | _ => DISPLAY_LIMIT end in
  let box :=
    suggest_box (apply_writes (renderSuggestions items limit emptyMessage) row) in
  box_hidden box = false /\
  box_items box <> [] /\
  (length (box_items box) <= cap)%nat /\
  (items <> [] -> box_items box = map SuggestionItem (firstn cap items)) /\
  (items = [] ->
   box_items box =
   [MessageItem (JS.or_else emptyMessage "No products found.")]).
Proof.
  cbv zeta. unfold renderSuggestions.
  set (cap := match limit with Some (S n) => S n | _ => DISPLAY_LIMIT end).
  assert (Hcap : (1 <= cap)%nat)
    by (subst cap; destruct limit as [[|n]|]; unfold DISPLAY_LIMIT; lia).
  assert (Hmsg : JS.truthy (JS.or_else emptyMessage "No products found.") = true)
    by now apply or_else_truthy.
  change (apply_writes (ClearBox :: ?ws) row)
    with (apply_writes ws (apply_write ClearBox row)).
  destruct items as [|p items].
  - assert (E : JS.slice0 cap (@nil Product) = []) by now destruct cap.
    rewrite E. rewrite renderMessage_box by exact Hmsg. cbn [box_hidden box_items length].
    repeat split; try congruence; lia.
  - destruct cap as [|cap]; [lia |].
    cbn [JS.slice0 firstn]. rewrite append_suggestions_box.
    cbn [box_hidden box_items suggest_box apply_write set_box app].
    repeat split; try congruence.
    + discriminate.
    + change (p :: firstn cap items) with (firstn (S cap) (p :: items)).
      rewrite List.length_map, length_firstn. lia.
Qed.

Lemma renderSuggestions_box_witness :
  box_items
    (suggest_box (apply_writes (renderSuggestions pens None None) blank_row))
  = map SuggestionItem (firstn DISPLAY_LIMIT pens).
Proof.
  exact (proj1 (proj2 (proj2 (proj2
           (renderSuggestions_box pens None None blank_row))))
           ltac:(discriminate)).
Defined.

(** ** Selection, quantity and the order line *)

(** X4: Selecting a product that has a nonzero available quantity puts 1 into
    an empty quantity field and in place of a quantity below 1; a quantity
    that is at least 1, or that is not a number, stays; selecting a product
    with no (or zero) available quantity never changes the quantity field. *)
Theorem selectProduct_quantity (row : Row) (p : Product) :
  let q := JS.or_zero (qty_available p) in
  let row' := apply_writes (selectProduct row p) row in
  (q = JS.Zero -> qty_value row' = qty_value row) /\
  (q <> JS.Zero -> qty_value row = "" -> qty_value row' = "1") /\
  (q <> JS.Zero ->
   forall n, JS.parseInt (qty_value row) = Some n -> n < 1 ->
             qty_value row' = "1") /\
  (q <> JS.Zero -> qty_value row <> "" ->
   (forall n, JS.parseInt (qty_value row) = Some n -> 1 <= n) ->
   qty_value row' = qty_value row).
Proof.
  cbv zeta. unfold selectProduct.
  destruct (JS.or_zero (qty_available p)) as [|neg ds pt];
    cbn [JS.Number_truthy].
  - repeat split; intros; (reflexivity || congruence).
  - destruct (JS.truthy (qty_value row)) eqn:Et; cbn [negb orb].
    + assert (Hne : qty_value row <> "") by now apply truthy_true_iff.
      destruct (JS.parseInt (qty_value row)) as [n|] eqn:Ep.
      * destruct (Z.ltb_spec n 1) as [Hlt | Hge].
        -- repeat split; intros; try reflexivity; try congruence.
           match goal with H : forall _, Some _ = Some _ -> _ |- _ =>
             specialize (H n eq_refl); lia end.
        -- repeat split; intros; try reflexivity; try congruence.
           match goal with H : Some _ = Some _ |- _ => injection H as <- end.
           lia.
      * repeat split; intros; try reflexivity; congruence.
    + apply truthy_false_iff in Et.
      repeat split; intros; try reflexivity; congruence.
Qed.

Lemma selectProduct_quantity_witness :
  qty_value (apply_writes (selectProduct (apply_write (SetQty "0") blank_row) blue_pen)
               (apply_write (SetQty "0") blank_row)) = "1".
Proof.
  exact (proj1 (proj2 (proj2 (selectProduct_quantity
                                (apply_write (SetQty "0") blank_row) blue_pen)))
           ltac:(vm_compute; discriminate) 0 eq_refl ltac:(reflexivity)).
Defined.

Lemma same_form_refl (a : Row) : same_form a a.
Proof. repeat split. Qed.

Lemma same_form_trans (a b c : Row) :
  same_form a b -> same_form b c -> same_form a c.
Proof.
  unfold same_form. intros (? & ? & ? & ? & ? & ?) (? & ? & ? & ? & ? & ?).
  repeat split; congruence.
Qed.

Lemma same_form_apply_writes (ws : list DomWrite) (row : Row) :
  Forall (fun w => form_write w = false) ws ->
  same_form row (apply_writes ws row).
Proof.
  intros Hws. revert row. induction Hws as [|w ws Hw Hws IH]; intros row.
  - apply same_form_refl.
  - change (apply_writes (w :: ws) row)
      with (apply_writes ws (apply_write w row)).
    eapply same_form_trans; [| apply IH].
    destruct w; try discriminate Hw; repeat split.
Qed.

Lemma gather_row_same_form (index : nat) (a b : Row) :
  same_form a b -> gather_row index a = gather_row index b.
Proof.
  intros (Hs & Hp & Hq & Hm & He & Hn). unfold gather_row.
  now rewrite Hs, Hp, Hq, Hm, He, Hn.
Qed.

Lemma no_form_renderMessage (message : string) :
  Forall (fun w => form_write w = false) (renderMessage message).
Proof. repeat constructor. Qed.

Lemma no_form_renderSuggestions (items : list Product) (limit : option nat)
    (emptyMessage : option string) :
  Forall (fun w => form_write w = false)
    (renderSuggestions items limit emptyMessage).
Proof.
  eapply Forall_impl; [apply box_only_renderSuggestions |].
  intros w Hw. now destruct w.
Qed.


(** X5: After a text change the row is no order line any more: [gatherItems]
    returns no item for it until a product is selected again, and an error
    as long as the trimmed text is not empty or the quantity is positive. *)
Theorem text_change_unselects (s : State) (r : nat) (row : Row) (text : string)
    (now : Z) (index : nat) :
  rows s !! r = Some row ->
  exists row',
    rows (step s (Input r text now)) !! r = Some row' /\
    (forall item, gather_row index row' <> Gathered item) /\
    (JS.trim text <> "" \/ 0 < JS.parseInt_or0 (Some (qty_value row)) ->
     gather_row index row' =
     Error ("Row " +:+ JS.String_of (Z.of_nat index + 1) +:+
            ": select a warehouse product.")).
Proof.
  intros Hrow. eexists. split; [exact (input_rows s r row text now Hrow) |].
  cbv zeta.
  set (shown := apply_writes (renderSuggestions _ _ _) _).
  set (row' := if 2 <=? JS.length (JS.trim text) then _ else shown).
  assert (Hpid : product_id_value row' = "").
  { subst row' shown. rewrite (box_writes _ _ (box_only_renderSuggestions _ _ _)).
    now destruct (2 <=? _). }
  assert (Hqty : qty_value row' = qty_value row).
  { subst row' shown. rewrite (box_writes _ _ (box_only_renderSuggestions _ _ _)).
    now destruct (2 <=? _). }
  assert (Hsearch : search_value row' = text).
  { subst row' shown. rewrite (box_writes _ _ (box_only_renderSuggestions _ _ _)).
    now destruct (2 <=? _). }
  unfold gather_row. rewrite Hpid, Hqty, Hsearch.
  change (JS.truthy (JS.trim "")) with false. cbn [negb]. split.
  - intros item. destruct (_ || _); discriminate.
  - intros [Ht | Hq].
    + apply truthy_true_iff in Ht. rewrite Ht, orb_true_r. reflexivity.
    + apply Z.ltb_lt in Hq. rewrite Hq. reflexivity.
Qed.

Lemma text_change_unselects_witness :
  exists row',
    rows (step selected_page (Input 0 "blue" 1000)) !! 0%nat = Some row' /\
    gather_row 0 row' = Error "Row 1: select a warehouse product.".
Proof.
  destruct (text_change_unselects selected_page 0 selected_row "blue" 1000 0
              ltac:(vm_compute; reflexivity)) as (row' & Hrow' & _ & Herr).
  exists row'. split; [exact Hrow' |].
  rewrite Herr by (left; vm_compute; discriminate).
  vm_compute. reflexivity.
Defined.




(** ** Typing, the debounce timer and the network *)

(** The timers a text change leaves behind. *)
Lemma input_timers (s : State) (r : nat) (row : Row) (text : string) (now : Z) :
  rows s !! r = Some row ->
  let cleared := match localTimer row with
                 | Some id => delete id (timers s)
                 | None => timers s
                 end in
  timers (step s (Input r text now)) =
  (if 2 <=? JS.length (JS.trim text)
   then <[next_timer s := Debounce r (JS.trim text) (JS.String_of now)]> cleared
   else cleared) /\
  next_timer (step s (Input r text now)) =
  (if 2 <=? JS.length (JS.trim text) then Pos.succ (next_timer s)
   else next_timer s) /\
  calls (step s (Input r text now)) = calls s /\
  next_call (step s (Input r text now)) = next_call s.
Proof.
  intros Hrow. cbv zeta. cbn [step]. unfold handleSearchInput.
  erewrite lookup_update_row_eq by exact Hrow.
  change (search_value (apply_write (SetSearch text) row)) with text.
  change (localTimer (apply_write (SetSearch text) row)) with (localTimer row).
  destruct (localTimer row); destruct (2 <=? JS.length (JS.trim text));
    repeat split.
Qed.

(** A text change sends nothing. *)
Lemma input_requests (s : State) (r : nat) (text : string) (now : Z) :
  search_requests (step s (Input r text now)) = search_requests s /\
  prefetch_requests (step s (Input r text now)) = prefetch_requests s.
Proof.
  destruct (rows s !! r) as [row|] eqn:Hrow.
  - unfold search_requests, prefetch_requests.
    rewrite (input_effects s r row text now Hrow).
    rewrite !omap_app, !List.filter_app, !length_app.
    assert (H1 : forall ws,
               omap (fun e => match e with
                              | EffFetch (GetSearch q) => Some q
                              | _ => None
                              end) (map (EffDom r) ws) = []).
    { induction ws as [|w ws IH]; [reflexivity | exact IH]. }
    assert (H2 : forall ws,
               List.filter is_prefetch_request (map (EffDom r) ws) = []).
    { induction ws as [|w ws IH]; [reflexivity | exact IH]. }
    rewrite H1, H2.
    destruct (localTimer row); destruct (2 <=? JS.length (JS.trim text));
      cbn; rewrite ?app_nil_r; split; (reflexivity || lia).
  - cbn [step]. unfold handleSearchInput, update_row.
    cbn [rows set_rows]. rewrite lookup_alter_eq, Hrow. split; reflexivity.
Qed.

(** X7: Debounce: a second text change before the timer of the first has fired
    clears that timer, so the lookup for the first text is never sent: if
    its timeout is delivered all the same, nothing happens. When the second
    text has at least 2 characters its own timer sends the lookup for it. *)
Theorem debounce_restarts (s : State) (r : nat) (row : Row)
    (text1 text2 : string) (now1 now2 : Z) :
  rows s !! r = Some row ->
  2 <= JS.length (JS.trim text1) ->
  let id1 := next_timer s in
  let s1 := step s (Input r text1 now1) in
  let s2 := step s1 (Input r text2 now2) in
  timers s1 !! id1 = Some (Debounce r (JS.trim text1) (JS.String_of now1)) /\
  timers s2 !! id1 = None /\
  step s2 (Timer id1) = s2 /\
  search_requests s2 = search_requests s /\
  (2 <= JS.length (JS.trim text2) ->
   search_requests (step s2 (Timer (Pos.succ id1))) =
   search_requests s ++ [JS.trim text2]).
Proof.
  intros Hrow Hlong1 id1 s1 s2.
  destruct (input_timers s r row text1 now1 Hrow) as (Ht1 & Hn1 & _).
  cbv zeta in Ht1, Hn1.
  destruct (Z.leb_spec 2 (JS.length (JS.trim text1))); [| lia].
  destruct (input_row s r row text1 now1 Hrow)
    as (row1 & Hrow1 & _ & _ & _ & Hl1).
  destruct (Hl1 Hlong1) as [_ Hlocal].
  destruct (input_timers s1 r row1 text2 now2 Hrow1) as (Ht2 & _).
  cbv zeta in Ht2. rewrite Hlocal in Ht2. fold s2 in Ht2.
  fold s1 in Ht1, Hn1. fold id1 in Ht1, Hn1, Ht2.
  assert (Hgone : timers s2 !! id1 = None).
  { rewrite Ht2, Hn1. destruct (2 <=? JS.length (JS.trim text2)).
    - rewrite lookup_insert_ne by lia. apply lookup_delete_eq.
    - apply lookup_delete_eq. }
  assert (Hreq : search_requests s2 = search_requests s).
  { subst s2 s1.
    rewrite (proj1 (input_requests _ r text2 now2)).
    apply (input_requests s r text1 now1). }
  split; [rewrite Ht1; apply lookup_insert_eq |].
  split; [exact Hgone |].
  split; [cbn [step]; now rewrite Hgone |].
  split; [exact Hreq |].
  intros Hlong2. cbn [step]. rewrite Ht2, Hn1.
  destruct (Z.leb_spec 2 (JS.length (JS.trim text2))); [| lia].
  rewrite lookup_insert_eq. cbn [run_timer]. unfold fetchRemoteProducts.
  destruct (Z.ltb_spec (JS.length (JS.trim text2)) 2); [lia |].
  rewrite <- Hreq. unfold search_requests.
  cbn [finish_search effects emit set_calls set_timers].
  now rewrite omap_app.
Qed.

Lemma debounce_restarts_witness :
  search_requests
    (step (step typed_page (Input 0 "abc" 1100)) (Timer 2)) = ["abc"].
Proof.
  destruct (debounce_restarts (run init [AddRow no_defaults]) 0 blank_row
              "ab" "abc" 1000 1100 ltac:(vm_compute; reflexivity)
              ltac:(vm_compute; discriminate)) as (_ & _ & _ & _ & H).
  exact (H ltac:(vm_compute; discriminate)).
Defined.

(** ** What a task leaves alone *)

Lemma option_same_form_refl (o : option Row) : option_Forall2 same_form o o.
Proof. destruct o; constructor. apply same_form_refl. Qed.

Lemma only_box_same (r : option nat) (s s' : State) :
  rows s' = rows s -> container s' = container s -> only_box r s s'.
Proof.
  intros Hr Hc. split; [exact Hc |]. rewrite Hr.
  split; [reflexivity | intros; apply option_same_form_refl].
Qed.

Lemma only_box_refl (r : option nat) (s : State) : only_box r s s.
Proof. now apply only_box_same. Qed.

Lemma only_box_trans (r : option nat) (s1 s2 s3 : State) :
  only_box r s1 s2 -> only_box r s2 s3 -> only_box r s1 s3.
Proof.
  intros (Hc1 & Ho1 & Hf1) (Hc2 & Ho2 & Hf2). split; [congruence |]. split.
  - intros r' Hr'. now rewrite Ho2, Ho1.
  - intros r'. specialize (Hf1 r'). specialize (Hf2 r').
    destruct Hf1; inversion Hf2; subst; constructor.
    eapply same_form_trans; eassumption.
Qed.

Lemma only_box_alter (r : nat) (f : Row -> Row) (s s' : State) :
  (forall row, same_form row (f row)) ->
  rows s' = alter f r (rows s) -> container s' = container s ->
  only_box (Some r) s s'.
Proof.
  intros Hf Hr Hc. split; [exact Hc |]. rewrite Hr. split.
  - intros r' Hr'. apply lookup_alter_ne. congruence.
  - intros r'. destruct (decide (r = r')) as [<-|Hne].
    + rewrite lookup_alter_eq. destruct (rows s !! r); constructor. apply Hf.
    + rewrite lookup_alter_ne by exact Hne. apply option_same_form_refl.
Qed.

Lemma only_box_dom_writes (r : nat) (ws : list DomWrite) (s : State) :
  Forall (fun w => form_write w = false) ws ->
  only_box (Some r) s (dom_writes r ws s).
Proof.
  intros Hws. apply (only_box_alter r (apply_writes ws)).
  - intros row. now apply same_form_apply_writes.
  - reflexivity.
  - reflexivity.
Qed.

Lemma only_box_prefetch_then (r w : nat) (s : State) :
  activeElement s = Some w -> activeElement s = Some r ->
  only_box (Some r) s (prefetch_then w s).
Proof.
  intros Hw Hr. unfold prefetch_then.
  destruct (bool_decide _); [| apply only_box_refl].
  assert (w = r) as -> by congruence.
  apply only_box_dom_writes, no_form_renderSuggestions.
Qed.

Lemma activeElement_prefetch_then (w : nat) (s : State) :
  activeElement (prefetch_then w s) = activeElement s.
Proof. unfold prefetch_then. now destruct (bool_decide _). Qed.

Lemma only_box_waiters (ws : list nat) (s : State) :
  only_box (activeElement s) s
    (fold_left (fun s r => prefetch_then r s) ws s).
Proof.
  revert s. induction ws as [|w ws IH]; intros s; [apply only_box_refl |].
  cbn [fold_left]. eapply only_box_trans; [| rewrite <- (activeElement_prefetch_then w); apply IH].
  unfold prefetch_then. destruct (bool_decide_reflect (activeElement s = Some w)) as [E|E];
    [| apply only_box_refl].
  rewrite E. apply only_box_dom_writes, no_form_renderSuggestions.
Qed.

Lemma only_box_finish_prefetch (b : State * Completion) :
  only_box (activeElement (fst b)) (fst b) (finish_prefetch b).
Proof.
  destruct b as [s [| |st]]; cbn [fst finish_prefetch].
  - match goal with
    | |- only_box ?o ?s0 (fold_left _ ?ws ?mid) =>
        apply (only_box_trans o s0 mid);
          [now apply only_box_same | apply (only_box_waiters ws mid)]
    end.
  - now apply only_box_same.
  - now apply only_box_same.
Qed.

Lemma only_box_finish_search (r : option nat) (id : positive) (c : SearchCall)
    (b : State * Completion) :
  only_box r (fst b) (finish_search id c b).
Proof. destruct b as [s [| |st]]; now apply only_box_same. Qed.

Lemma only_box_search_catch (c : SearchCall) (s : State) :
  only_box (Some (call_row c)) s (fst (search_catch c s)).
Proof.
  unfold search_catch. destruct (stale c s); [apply only_box_refl |].
  apply only_box_dom_writes, no_form_renderMessage.
Qed.

Lemma only_box_try_catch (c : SearchCall) (s : State) (b : State * Completion) :
  only_box (Some (call_row c)) s (fst b) ->
  only_box (Some (call_row c)) s (fst (try_catch b (search_catch c))).
Proof.
  intros H. destruct b as [s' [| |st]]; cbn [try_catch]; try exact H.
  eapply only_box_trans; [exact H | apply only_box_search_catch].
Qed.

Lemma only_box_search_after_fetch (c : SearchCall) (o : FetchOutcome) (s : State) :
  only_box (Some (call_row c)) s (fst (search_after_fetch c o s)).
Proof.
  unfold search_after_fetch. destruct o as [|status]; [apply only_box_refl |].
  destruct (stale c s); [apply only_box_refl |].
  destruct (negb (ok status)); [| apply only_box_refl].
  apply only_box_dom_writes, no_form_renderMessage.
Qed.

Lemma only_box_search_after_json (c : SearchCall) (o : JsonOutcome) (s : State) :
  only_box (Some (call_row c)) s (fst (search_after_json c o s)).
Proof.
  unfold search_after_json. destruct o as [| |results]; try apply only_box_refl.
  destruct (stale c s); [apply only_box_refl |].
  destruct (default [] results).
  - apply only_box_dom_writes, no_form_renderMessage.
  - apply only_box_dom_writes, no_form_renderSuggestions.
Qed.

Lemma only_box_prefetch_stretch (s : State) (b : State * Completion) :
  rows (fst b) = rows s -> container (fst b) = container s ->
  activeElement (fst b) = activeElement s ->
  only_box (activeElement s) s
    (finish_prefetch (try_catch b prefetch_catch)).
Proof.
  intros Hr Hc Ha.
  assert (H : only_box (activeElement s) s (fst (try_catch b prefetch_catch)) /\
              activeElement (fst (try_catch b prefetch_catch)) = activeElement s).
  { destruct b as [s' [| |st]]; cbn [try_catch fst] in *; split;
      try assumption; now apply only_box_same. }
  destruct H as [H1 H2].
  eapply only_box_trans; [exact H1 |]. rewrite <- H2.
  apply only_box_finish_prefetch.
Qed.

Lemma only_box_fetchRemoteProducts (o : option nat) (query : string) (r : nat)
    (requestId : string) (s : State) :
  only_box o s (fetchRemoteProducts query r requestId s).
Proof.
  unfold fetchRemoteProducts. destruct (JS.length query <? 2);
    now apply only_box_same.
Qed.

Lemma only_box_openPrefetch (r : nat) (s : State) :
  only_box (Some r) s (openPrefetch r s).
Proof.
  unfold openPrefetch. destruct (prefetchCache s).
  - set (s1 := dom_writes r (renderMessage "Loading warehouse products...") s).
    apply (only_box_trans _ s s1);
      [apply (only_box_dom_writes r), no_form_renderMessage |].
    apply (only_box_trans _ s1 (loadPrefetch s1)).
    { unfold loadPrefetch. destruct (prefetchPromise s1);
        [apply only_box_refl | now apply only_box_same]. }
    destruct (prefetchPromise (loadPrefetch s1)) as [[|]|];
      try now apply only_box_same.
    unfold prefetch_then. destruct (bool_decide _); [| apply only_box_refl].
    apply only_box_dom_writes, no_form_renderSuggestions.
  - apply only_box_dom_writes, no_form_renderSuggestions.
Qed.

Lemma same_form_set_hideTimer (v : option positive) (row : Row) :
  same_form row (set_hideTimer v row).
Proof. repeat split. Qed.

(** A task that is no edit of the user, and that is not the prefetch
    settling, writes to its own row only, and there to nothing an order
    line is read from; the prefetch settling does so to the focused row. *)
Lemma only_box_step (s : State) (e : Event) :
  user_edit e = false -> only_box (touched s e) s (step s e).
Proof.
  intros He. destruct e as [d|r|r|r|r text now|r text|r i|id|id o|id o|o|o];
    try discriminate He; cbn [step touched].
  - (* Focus *)
    destruct (rows s !! r) as [row|] eqn:Hrow; [| apply only_box_refl].
    unfold on_focus. cbn [rows set_activeElement]. rewrite Hrow.
    eapply only_box_trans with (s2 := set_activeElement (Some r) s);
      [now apply only_box_same |].
    destruct (hideTimer row) as [t|].
    + eapply only_box_trans; [| apply only_box_openPrefetch].
      now apply only_box_same.
    + apply only_box_openPrefetch.
  - (* Blur *)
    destruct (rows s !! r) as [row|] eqn:Hrow; [| apply only_box_refl].
    unfold on_blur, setTimeout.
    apply (only_box_alter r (set_hideTimer (Some (next_timer
             (if bool_decide (activeElement s = Some r)
              then set_activeElement None s else s))))).
    + intros row'. apply same_form_set_hideTimer.
    + now destruct (bool_decide _).
    + now destruct (bool_decide _).
  - (* Timer *)
    destruct (timers s !! id) as [[r q t|r]|] eqn:Ht; [| | apply only_box_refl].
    + cbn [run_timer].
      eapply only_box_trans; [| apply only_box_fetchRemoteProducts].
      now apply only_box_same.
    + cbn [run_timer].
      eapply only_box_trans with (s2 := set_timers (delete id (timers s)) (next_timer s) s);
        [now apply only_box_same |].
      apply only_box_dom_writes. repeat constructor.
  - (* SearchFetched *)
    destruct (calls s !! id) as [c|] eqn:Hc; [| apply only_box_refl].
    cbn [fmap option_fmap option_map].
    destruct (call_stage c); [| apply only_box_refl].
    eapply only_box_trans; [| apply only_box_finish_search].
    apply only_box_try_catch, only_box_search_after_fetch.
  - (* SearchParsed *)
    destruct (calls s !! id) as [c|] eqn:Hc; [| apply only_box_refl].
    cbn [fmap option_fmap option_map].
    destruct (call_stage c); [apply only_box_refl |].
    eapply only_box_trans; [| apply only_box_finish_search].
    apply only_box_try_catch, only_box_search_after_json.
  - (* PrefetchFetched *)
    destruct (prefetchPromise s) as [[[|]|]|]; try apply only_box_refl.
    apply only_box_prefetch_stretch;
      destruct o as [|status]; cbn [prefetch_after_fetch]; try reflexivity;
      now destruct (negb (ok status)).
  - (* PrefetchParsed *)
    destruct (prefetchPromise s) as [[[|]|]|]; try apply only_box_refl.
    apply only_box_prefetch_stretch; now destruct o.
Qed.

Lemma container_rows_same_form (o : option nat) (s s' : State) :
  only_box o s s' -> Forall2 same_form (container_rows s) (container_rows s').
Proof.
  intros (Hc & _ & Hf). unfold container_rows. rewrite Hc. clear Hc.
  induction (container s) as [|r l IH]; [constructor |].
  cbn [omap list_omap]. specialize (Hf r).
  destruct Hf as [a b Hab|]; [constructor; [exact Hab | exact IH] | exact IH].
Qed.

Lemma gather_from_same_form (l l' : list Row) :
  Forall2 same_form l l' ->
  forall index g, gather_from index l g = gather_from index l' g.
Proof.
  induction 1 as [|a b l l' Hab Hl IH]; intros index g; [reflexivity |].
  cbn [gather_from]. rewrite (gather_row_same_form index a b Hab). apply IH.
Qed.

(** X10: What [gatherItems] returns is changed by the user's edits only: a
    focus or blur, a timeout, a response to a search or to the prefetch,
    in any number and order, leave it as it is. *)
Theorem background_keeps_order (s : State) (es : list Event) :
  Forall (fun e => user_edit e = false) es ->
  gatherItems (container_rows (run s es)) = gatherItems (container_rows s).
Proof.
  intros Hes. revert s. induction Hes as [|e es He Hes IH]; intros s;
    [reflexivity |].
  change (run s (e :: es)) with (run (step s e) es). rewrite IH.
  unfold gatherItems. symmetry. apply gather_from_same_form.
  exact (container_rows_same_form _ _ _ (only_box_step s e He)).
Qed.

Lemma background_keeps_order_witness :
  gatherItems
    (container_rows
       (run selected_page
          [Blur 0; Timer 1; Focus 0; PrefetchFetched (FetchResponse 500)])) =
  gatherItems (container_rows selected_page).
Proof.
  apply background_keeps_order. repeat constructor.
Defined.

Lemma rows_handleSearchInput_ne (r r' : nat) (now : Z) (s : State) :
  r' <> r -> rows (handleSearchInput r now s) !! r' = rows s !! r'.
Proof.
  intros Hne. unfold handleSearchInput.
  destruct (rows s !! r) as [row|]; [| reflexivity].
  destruct (localTimer row); destruct (2 <=? JS.length _);
    cbn [rows update_row set_rows emit set_timers dom_writes clearTimeout
         setTimeout prefetchCache next_timer];
    rewrite ?lookup_alter_ne by congruence; reflexivity.
Qed.

Lemma rows_createRow_ne (d : Defaults) (r' : nat) (s : State) :
  r' <> next_row s -> rows (snd (createRow d s)) !! r' = rows s !! r'.
Proof.
  intros Hne. unfold createRow. cbn [snd].
  destruct (d_product d); destruct (d_qty d);
    destruct (JS.truthy (JS.or_else (d_expected_date d) ""));
    destruct (JS.truthy (JS.or_else (d_notes d) ""));
    cbn [rows dom_writes emit set_rows set_next_row];
    rewrite ?lookup_alter_ne by congruence;
    now rewrite lookup_insert_ne by congruence.
Qed.

(** X11: A task writes to one row at most: the row it creates, the row whose
    listener, timer or search response it is, or, when the prefetch
    settles, the row that has the focus. Every other row is as before. *)
Theorem other_rows_untouched (s : State) (e : Event) (r : nat) :
  touched s e <> Some r -> rows (step s e) !! r = rows s !! r.
Proof.
  intros Hr. destruct (user_edit e) eqn:He.
  - destruct e as [d|x|x|x|x text now|x text|x i|id|id o|id o|o|o];
      try discriminate He; cbn [touched] in Hr; cbn [step].
    + unfold addRow.
      assert (H := rows_createRow_ne d r s ltac:(congruence)).
      destruct (createRow d s) as [x s']. exact H.
    + now destruct (bool_decide _).
    + rewrite rows_handleSearchInput_ne by congruence.
      apply lookup_alter_ne. congruence.
    + unfold on_qty_input.
      destruct (rows (update_row x _ s) !! x);
        cbn [rows dom_writes update_row emit set_rows];
        now rewrite ?lookup_alter_ne by congruence.
    + destruct (rows s !! x) as [row|]; [| reflexivity].
      destruct (box_items (suggest_box row) !! i) as [[p|m]|]; try reflexivity.
      unfold on_select. destruct (rows s !! x); [| reflexivity].
      cbn [rows dom_writes emit set_rows]. apply lookup_alter_ne. congruence.
  - destruct (only_box_step s e He) as (_ & H & _). now apply H.
Qed.

Lemma other_rows_untouched_witness :
  rows (step (run init [AddRow no_defaults; AddRow no_defaults])
          (Input 0 "pen" 1000)) !! 1%nat = Some blank_row.
Proof.
  rewrite other_rows_untouched by (vm_compute; discriminate).
  vm_compute. reflexivity.
Defined.

(** ** The prefetched catalogue *)

Lemma settled_step (s : State) (e : Event) :
  prefetchPromise s = Some LoadSettled ->
  prefetchCache (step s e) = prefetchCache s /\
  prefetchPromise (step s e) = Some LoadSettled.
Proof.
  intros Hp. destruct (touches_prefetch e) eqn:Et.
  - destruct e; try discriminate Et; cbn [step].
    + destruct (rows s !! r) as [row|] eqn:Er; [| now split].
      unfold on_focus. cbn [rows set_activeElement]. rewrite Er.
      destruct (hideTimer row);
        match goal with
        | |- context [openPrefetch r ?X] =>
            destruct (openPrefetch_prefetch r X ltac:(cbn; congruence))
              as [Hc Hq];
            rewrite Hc, Hq; split; [reflexivity | exact Hp]
        end.
    + rewrite Hp. now split.
    + rewrite Hp. now split.
  - destruct (same_prefetch_step s e Et) as (Hc & Hq & _).
    split; congruence.
Qed.

(** X12: The catalogue is written once: when the prefetch has settled, with
    products or after a failure, whatever happens on the page leaves the
    cache as it is. *)
Theorem cache_written_once (s : State) (es : list Event) :
  prefetchPromise s = Some LoadSettled ->
  prefetchCache (run s es) = prefetchCache s /\
  prefetchPromise (run s es) = Some LoadSettled.
Proof.
  revert s. induction es as [|e es IH]; intros s Hp; [now split |].
  change (run s (e :: es)) with (run (step s e) es).
  destruct (settled_step s e Hp) as [Hc Hp'].
  destruct (IH _ Hp') as [Hc' Hp'']. split; congruence.
Qed.

Lemma cache_written_once_witness :
  prefetchCache
    (run focused_page
       [PrefetchParsed (JsonObject (Some [pencil])); Input 0 "pencil" 1000;
        Blur 0; Focus 0]) = pens.
Proof.
  apply (cache_written_once focused_page). vm_compute. reflexivity.
Defined.

Lemma waiters_keep (ws : list nat) (s : State) :
  let s' := fold_left (fun s r => prefetch_then r s) ws s in
  activeElement s' = activeElement s /\ prefetchCache s' = prefetchCache s /\
  waiters s' = waiters s.
Proof.
  cbv zeta. revert s. induction ws as [|w ws IH]; intros s; [now split |].
  cbn [fold_left]. destruct (IH (prefetch_then w s)) as (Ha & Hc & Hw).
  rewrite Ha, Hc, Hw. unfold prefetch_then. now destruct (bool_decide _).
Qed.

(** The rows after the callbacks waiting for the prefetch have run: the
    focused row, if it waits, shows the catalogue; no other row changes. *)
Lemma waiters_rows (ws : list nat) (s : State) (r : nat) :
  rows (fold_left (fun s r => prefetch_then r s) ws s) !! r =
  (if bool_decide (activeElement s = Some r /\ r ∈ ws)
   then apply_writes
          (renderSuggestions (JS.slice0 DISPLAY_LIMIT (prefetchCache s)) None
             (Some "No products loaded yet."))
   else id) <$> rows s !! r.
Proof.
  induction ws as [|w ws IH] using rev_ind.
  - rewrite bool_decide_eq_false_2 by (intros [_ H]; inversion H).
    cbn [fold_left]. now destruct (rows s !! r).
  - rewrite fold_left_app. cbn [fold_left].
    destruct (waiters_keep ws s) as (Ha & Hc & _). cbv zeta in Ha, Hc.
    set (S1 := fold_left _ ws s) in *.
    unfold prefetch_then. rewrite Ha, Hc.
    destruct (bool_decide_reflect (activeElement s = Some w)) as [Ew|Ew].
    + rewrite rows_dom_writes. destruct (decide (w = r)) as [->|Hne].
      * rewrite lookup_alter_eq, IH.
        rewrite (bool_decide_eq_true_2 (_ /\ r ∈ ws ++ [r]))
          by (split; [exact Ew | apply elem_of_app; right; constructor]).
        destruct (rows s !! r) as [row|]; [| now destruct (bool_decide _)].
        destruct (bool_decide _); cbn [fmap option_fmap option_map id];
          [| reflexivity].
        f_equal.
        rewrite (box_writes _ (apply_writes _ row))
          by apply box_only_renderSuggestions.
        rewrite (box_writes _ row) by apply box_only_renderSuggestions.
        rewrite set_box_set_box. f_equal.
        rewrite !renderSuggestions_shows. reflexivity.
      * rewrite lookup_alter_ne by exact Hne. rewrite IH.
        rewrite !bool_decide_eq_false_2; [reflexivity | |]; intros [H _];
          congruence.
    + rewrite IH. destruct (decide (w = r)) as [->|Hne].
      * rewrite !bool_decide_eq_false_2; [reflexivity | |]; intros [H _];
          congruence.
      * apply (f_equal (fun b : bool => (if b then _ else id) <$> rows s !! r)).
        apply bool_decide_ext. rewrite elem_of_app, list_elem_of_singleton.
        intuition congruence.
Qed.

(** The parsed catalogue becomes the cache and settles the prefetch; of
    the rows that wait for it, the one whose search box has the focus is
    rendered, and no other row changes. *)
Lemma prefetch_parsed (s : State) (results : option (list Product)) :
  prefetchPromise s = Some (LoadPending AwaitJson) ->
  let s' := step s (PrefetchParsed (JsonObject results)) in
  prefetchCache s' = default [] results /\
  prefetchPromise s' = Some LoadSettled /\
  waiters s' = [] /\
  (forall r row,
      activeElement s = Some r -> r ∈ waiters s -> rows s !! r = Some row ->
      rows s' !! r =
      Some (set_box
              (mkBox match firstn DISPLAY_LIMIT (default [] results) with
                     | [] => [MessageItem "No products loaded yet."]
                     | l => map SuggestionItem l
                     end false) row)) /\
  (forall r, activeElement s <> Some r \/ r ∉ waiters s ->
             rows s' !! r = rows s !! r).
Proof.
  intros Hp. cbv zeta. cbn [step]. rewrite Hp.
  cbn [prefetch_after_json try_catch finish_prefetch].
  match goal with
  | |- context [fold_left ?f ?ws ?s0] =>
      pose proof (waiters_keep ws s0) as Hk;
      pose proof (waiters_rows ws s0) as Hr;
      pose proof (proj1 (promise_waiters ws s0)) as Hq;
      set (s' := fold_left f ws s0) in *
  end.
  cbv zeta in Hk. destruct Hk as (Ha & Hc & Hw).
  cbn [activeElement prefetchCache set_waiters emit set_prefetchPromise
       set_prefetchCache waiters rows] in Ha, Hc, Hw, Hr.
  split; [exact Hc |]. split; [exact Hq |]. split; [exact Hw |]. split.
  - intros r row Hact Hin Hrow. rewrite Hr, Hrow.
    rewrite bool_decide_eq_true_2 by now split.
    cbn [fmap option_fmap option_map]. f_equal.
    rewrite (box_writes _ _ (box_only_renderSuggestions _ _ _)). f_equal.
    rewrite renderSuggestions_shows.
    rewrite (or_else_Some_truthy "No products loaded yet." _ eq_refl).
    unfold JS.slice0. now rewrite firstn_firstn, Nat.min_id.
  - intros r Hno. rewrite Hr. rewrite bool_decide_eq_false_2 by tauto.
    now destruct (rows s !! r).
Qed.

(** ** What the suggestion box shows *)

Lemma firstn_filterLocalProducts (cache : list Product) (x : string) :
  firstn DISPLAY_LIMIT (filterLocalProducts cache x) = filterLocalProducts cache x.
Proof.
  destruct (String.string_dec x "") as [->|Hx].
  - rewrite filterLocalProducts_empty. now rewrite firstn_firstn, Nat.min_id.
  - rewrite filterLocalProducts_nonempty by exact Hx.
    now rewrite firstn_firstn, Nat.min_id.
Qed.

(** X8: A text change shows the local matches at once, without the network: the
    box lists what [filterLocalProducts] finds in the cache for the trimmed
    text, or says "No local matches" (for an empty text: "No products
    yet."); no request is sent and no call is started by the change
    itself. *)
Theorem text_change_shows_local (s : State) (r : nat) (row : Row)
    (text : string) (now : Z) :
  rows s !! r = Some row ->
  let query := JS.trim text in
  let s' := step s (Input r text now) in
  exists row',
    rows s' !! r = Some row' /\
    search_value row' = text /\
    suggest_box row' =
    mkBox match filterLocalProducts (prefetchCache s) query with
          | [] => [MessageItem (if JS.truthy query then "No local matches"
                                else "No products yet.")]
          | l => map SuggestionItem l
          end false /\
    search_requests s' = search_requests s /\
    prefetch_requests s' = prefetch_requests s /\
    calls s' = calls s.
Proof.
  intros Hrow. cbv zeta. eexists.
  split; [exact (input_rows s r row text now Hrow) |].
  destruct (input_requests s r text now) as [Hs Hp].
  destruct (input_timers s r row text now Hrow) as (_ & _ & Hc & _).
  repeat split; try assumption.
  - cbv zeta. rewrite (box_writes _ _ (box_only_renderSuggestions _ _ _)).
    now destruct (2 <=? JS.length (JS.trim text)).
  - cbv zeta. rewrite (box_writes _ _ (box_only_renderSuggestions _ _ _)).
    assert (Hbox : forall b row0,
               suggest_box
                 (if 2 <=? JS.length (JS.trim text)
                  then set_localTimer (Some (next_timer s))
                         (apply_writes [SetRemoteRequestId (JS.String_of now)]
                            (set_box b row0))
                  else set_box b row0) = b)
      by (intros; now destruct (2 <=? JS.length (JS.trim text))).
    rewrite Hbox, renderSuggestions_shows, firstn_filterLocalProducts.
    destruct (filterLocalProducts _ _); [| reflexivity].
    now destruct (JS.truthy (JS.trim text)).
Qed.

Lemma text_change_shows_local_witness :
  exists row',
    rows (step focused_page (Input 0 "red" 1000)) !! 0%nat = Some row' /\
    box_items (suggest_box row') = [SuggestionItem red_pen].
Proof.
  destruct (text_change_shows_local focused_page 0 focused_row "red" 1000
              ltac:(vm_compute; reflexivity))
    as (row' & Hrow' & _ & Hbox & _).
  exists row'. split; [exact Hrow' |]. rewrite Hbox. vm_compute. reflexivity.
Defined.

(** X9: The answer to a lookup that is still the latest of its row replaces the
    content of the box: the first 30 results, or "No products found" when
    there are none or the answer has no result list. Nothing else in the
    row changes, and the call is over. *)
Theorem search_response_shown (s : State) (id : positive) (c : SearchCall)
    (results : option (list Product)) :
  calls s !! id = Some c ->
  call_stage c = AwaitJson ->
  stale c s = false ->
  let s' := step s (SearchParsed id (JsonObject results)) in
  exists row,
    rows s !! call_row c = Some row /\
    rows s' !! call_row c =
    Some (set_box
            (mkBox match default [] results with
                   | [] => [MessageItem "No products found"]
                   | l => map SuggestionItem (firstn DISPLAY_LIMIT l)
                   end false) row) /\
    calls s' !! id = None /\
    search_requests s' = search_requests s.
Proof.
  intros Hc Hstage Hfresh. cbv zeta.
  destruct (stale_false_row c s Hfresh) as (row & Hrow & _).
  exists row. split; [exact Hrow |].
  cbn [step]. rewrite Hc, Hstage. cbn [search_after_json]. rewrite Hfresh.
  destruct (default [] results) as [|p l] eqn:Er;
    cbn [try_catch finish_search rows calls emit set_calls effects].
  - split; [| split].
    + erewrite lookup_dom_writes_eq by exact Hrow. reflexivity.
    + apply lookup_delete_eq.
    + unfold search_requests. cbn [effects emit dom_writes set_rows set_calls].
      rewrite <- app_assoc, omap_app.
      rewrite <- (app_nil_r (omap _ (effects s))) at 2. f_equal.
  - split; [| split].
    + erewrite lookup_dom_writes_eq by exact Hrow. f_equal.
      rewrite (box_writes _ _ (box_only_renderSuggestions _ _ _)). f_equal.
      rewrite renderSuggestions_shows. reflexivity.
    + apply lookup_delete_eq.
    + unfold search_requests. cbn [effects emit dom_writes set_rows set_calls].
      rewrite <- app_assoc, omap_app.
      rewrite <- (app_nil_r (omap _ (effects s))) at 2. f_equal.
      rewrite omap_app. cbn [omap list_omap app].
      rewrite app_nil_r.
      generalize (renderSuggestions (p :: l) (Some DISPLAY_LIMIT) None).
      intros ws. induction ws as [|w ws IH]; [reflexivity | exact IH].
Qed.

Lemma search_response_shown_witness :
  exists row,
    rows (run searching_page
            [SearchFetched 1 (FetchResponse 200);
             SearchParsed 1 (JsonObject (Some [pencil]))]) !! 0%nat =
    Some (set_box (mkBox [SuggestionItem pencil] false) row).
Proof.
  destruct (search_response_shown
              (step searching_page (SearchFetched 1 (FetchResponse 200)))
              1 (mkCall 0 "ab" "1000" AwaitJson) (Some [pencil])
              ltac:(vm_compute; reflexivity) eq_refl
              ltac:(vm_compute; reflexivity))
    as (row & _ & H & _).
  exists row. exact H.
Defined.

(** ** Leaving and entering the search box *)

Lemma blur_state (s : State) (r : nat) (row : Row) :
  rows s !! r = Some row ->
  timers (step s (Blur r)) = <[next_timer s := HideSuggest r]> (timers s) /\
  rows (step s (Blur r)) !! r =
  Some (set_hideTimer (Some (next_timer s)) row).
Proof.
  intros Hrow. cbn [step]. rewrite Hrow. unfold on_blur, setTimeout.
  destruct (bool_decide _);
    cbn [timers rows update_row emit set_timers set_rows set_activeElement
         next_timer];
    now rewrite lookup_alter_eq, Hrow.
Qed.

Lemma openPrefetch_visible (r : nat) (s : State) (row : Row) :
  activeElement s = Some r ->
  rows s !! r = Some row ->
  timers (openPrefetch r s) = timers s /\
  exists row', rows (openPrefetch r s) !! r = Some row' /\
               box_hidden (suggest_box row') = false.
Proof.
  intros Hact Hrow. unfold openPrefetch. destruct (prefetchCache s) eqn:Ec.
  - set (s1 := dom_writes r (renderMessage "Loading warehouse products...") s).
    assert (Hrow1 : rows (loadPrefetch s1) !! r =
                    Some (apply_writes
                            (renderMessage "Loading warehouse products...") row)).
    { unfold loadPrefetch.
      destruct (prefetchPromise s1); cbn [rows emit set_prefetchPromise];
        now apply lookup_dom_writes_eq. }
    assert (Ht1 : timers (loadPrefetch s1) = timers s)
      by (unfold loadPrefetch; now destruct (prefetchPromise s1)).
    assert (Ha1 : activeElement (loadPrefetch s1) = Some r)
      by (unfold loadPrefetch; now destruct (prefetchPromise s1)).
    destruct (prefetchPromise (loadPrefetch s1)) as [[st|]|].
    + split; [exact Ht1 |]. eexists. split; [exact Hrow1 | reflexivity].
    + unfold prefetch_then. rewrite bool_decide_eq_true_2 by exact Ha1.
      split; [exact Ht1 |]. eexists.
      split; [apply lookup_dom_writes_eq, Hrow1 |].
      now rewrite renderSuggestions_shows.
    + split; [exact Ht1 |]. eexists. split; [exact Hrow1 | reflexivity].
  - split; [reflexivity |]. eexists.
    split; [apply lookup_dom_writes_eq, Hrow |].
    now rewrite renderSuggestions_shows.
Qed.

(** X14: Leaving the search box sets a timeout that hides the suggestion box,
    keeping its content; coming back before it fires clears that timeout, so
    that nothing hides the box the focus has just opened. *)
Theorem blur_hides_unless_refocused (s : State) (r : nat) (row : Row) :
  rows s !! r = Some row ->
  let id := next_timer s in
  let s1 := step s (Blur r) in
  let s2 := step s1 (Focus r) in
  timers s1 !! id = Some (HideSuggest r) /\
  rows (step s1 (Timer id)) !! r =
  Some (set_box (mkBox (box_items (suggest_box row)) true)
          (set_hideTimer (Some id) row)) /\
  timers s2 !! id = None /\
  step s2 (Timer id) = s2 /\
  exists row2, rows s2 !! r = Some row2 /\
               box_hidden (suggest_box row2) = false.
Proof.
  intros Hrow id s1 s2.
  destruct (blur_state s r row Hrow) as [Ht1 Hrow1].
  fold s1 in Ht1, Hrow1. fold id in Ht1, Hrow1.
  assert (Hid : timers s1 !! id = Some (HideSuggest r))
    by (rewrite Ht1; apply lookup_insert_eq).
  split; [exact Hid |]. split.
  { cbn [step]. rewrite Hid. cbn [run_timer].
    erewrite lookup_dom_writes_eq by exact Hrow1. reflexivity. }
  assert (H2 : timers s2 !! id = None /\
               exists row2, rows s2 !! r = Some row2 /\
                            box_hidden (suggest_box row2) = false).
  { subst s2. cbn [step]. rewrite Hrow1. unfold on_focus.
    cbn [rows set_activeElement]. rewrite Hrow1.
    cbn [hideTimer set_hideTimer].
    destruct (openPrefetch_visible r
                (clearTimeout id (set_activeElement (Some r) s1))
                (set_hideTimer (Some id) row) eq_refl Hrow1)
      as (Ht & row2 & Hrow2 & Hvis).
    split; [| now exists row2].
    rewrite Ht. cbn [timers clearTimeout emit set_timers set_activeElement].
    apply lookup_delete_eq. }
  destruct H2 as [Hgone Hvis].
  split; [exact Hgone |]. split; [| exact Hvis].
  cbn [step]. now rewrite Hgone.
Qed.

Lemma blur_hides_unless_refocused_witness :
  exists row2,
    rows (run focused_page [Blur 0; Focus 0]) !! 0%nat = Some row2 /\
    box_hidden (suggest_box row2) = false.
Proof.
  exact (proj2 (proj2 (proj2 (proj2
           (blur_hides_unless_refocused focused_page 0 focused_row
              ltac:(vm_compute; reflexivity)))))).
Defined.

(** ** Adding a row *)

Lemma createRow_state (d : Defaults) (s : State) :
  fst (createRow d s) = next_row s /\
  next_row (snd (createRow d s)) = S (next_row s) /\
  container (snd (createRow d s)) = container s /\
  rows (snd (createRow d s)) !! next_row s = Some (created_row d).
Proof.
  unfold createRow, created_row. cbn [fst snd].
  destruct (d_product d); destruct (d_qty d);
    destruct (JS.truthy (JS.or_else (d_expected_date d) ""));
    destruct (JS.truthy (JS.or_else (d_notes d) ""));
    cbn [rows next_row container dom_writes emit set_rows set_next_row];
    rewrite ?lookup_alter_eq, lookup_insert_eq; repeat split.
Qed.

Lemma attached_known_step (s : State) (e : Event) :
  attached_known s -> attached_known (step s e).
Proof.
  intros Hk.
  assert (Hsame : container (step s e) = container s ->
                  next_row (step s e) = next_row s ->
                  attached_known (step s e)).
  { intros Hc Hn r. rewrite Hc, Hn. apply Hk. }
  destruct e as [d|x|x|x|x text now|x text|x i|id|id o|id o|o|o];
    try (match goal with
         | |- attached_known (step s ?e) =>
             apply Hsame;
               [exact (proj1 (only_box_step s e eq_refl))
               | exact (proj1 (proj2 (quiet_step s e I)))]
         end).
  - clear Hsame. cbn [step]. unfold addRow.
    destruct (createRow_state d s) as (_ & Hn & Hc & _).
    destruct (createRow d s) as [r0 s0] eqn:E. cbn [snd] in Hn, Hc.
    intros r. cbn [container next_row set_container]. rewrite Hn, Hc.
    rewrite elem_of_app, list_elem_of_singleton.
    intros [Hin | ->].
    + apply Hk in Hin. lia.
    + assert (r0 = next_row s)
        by (unfold createRow in E; now inversion E).
      lia.
  - clear Hsame. cbn [step]. intros r.
    assert (Hin : r ∈ container
                    (set_container (filter (fun y => y ≠ x) (container s)) s) ->
                  r ∈ container s)
      by (cbn [container set_container]; rewrite list_elem_of_filter; tauto).
    destruct (bool_decide _); cbn [container next_row set_activeElement] in *;
      intros H; apply Hk, Hin, H.
  - apply Hsame; cbn [step]; unfold handleSearchInput;
      destruct (rows _ !! x) as [row|]; try reflexivity;
      destruct (localTimer row); destruct (2 <=? JS.length _); reflexivity.
  - apply Hsame; [| exact (proj1 (proj2 (quiet_step s (QtyInput x text) I)))].
    cbn [step]. unfold on_qty_input. now destruct (rows _ !! x).
  - apply Hsame; [| exact (proj1 (proj2 (quiet_step s (Click x i) I)))].
    cbn [step]. destruct (rows s !! x) as [row|]; [| reflexivity].
    destruct (box_items (suggest_box row) !! i) as [[p|m]|]; try reflexivity.
    unfold on_select. now destruct (rows s !! x).
Qed.

Lemma attached_known_run (es : list Event) : attached_known (run init es).
Proof.
  assert (H : forall s, attached_known s -> attached_known (run s es)).
  { induction es as [|e es IH]; intros s Hs; [exact Hs |].
    apply IH, attached_known_step, Hs. }
  apply H. intros r Hr. inversion Hr.
Qed.

(** What the fields of a new row make of the defaults: a quantity that is
    no number and a date that is no date leave their fields empty, a null
    quantity empties the field, a missing one keeps the 1 of the markup,
    and the notes lose their line breaks. *)
Lemma created_row_fields :
  let nl := String (ascii_of_N 10) "" in
  qty_value (created_row (mkDefaults None (Value "abc") (Some "tomorrow") None))
  = "" /\
  expected_date_value
    (created_row (mkDefaults None (Value "abc") (Some "tomorrow") None)) = "" /\
  qty_value (created_row (mkDefaults None Null None None)) = "" /\
  qty_value (created_row no_defaults) = "1" /\
  qty_value (created_row (mkDefaults None (Value "12") (Some "2025-02-28")
                            (Some ("a" +:+ nl +:+ "b")))) = "12" /\
  expected_date_value
    (created_row (mkDefaults None (Value "12") (Some "2025-02-28")
                    (Some ("a" +:+ nl +:+ "b")))) = "2025-02-28" /\
  notes_value
    (created_row (mkDefaults None (Value "12") (Some "2025-02-28")
                    (Some ("a" +:+ nl +:+ "b")))) = "ab".
Proof. repeat split. Qed.

(** X15: On the page as the script and any sequence of tasks leave it,
    [addRow] puts one row after the rows of the table, which stay as they
    are: the row of the markup with the product of the defaults selected
    into it, then the quantity unless it is undefined, the expected date
    and the notes, each as its field keeps it. *)
Theorem addRow_appends (es : list Event) (d : Defaults) :
  container_rows (step (run init es) (AddRow d)) =
  container_rows (run init es) ++ [created_row d].
Proof.
  pose proof (attached_known_run es) as Hk. set (s := run init es) in *.
  cbn [step]. unfold addRow.
  destruct (createRow_state d s) as (Hr & _ & Hc & Hnew).
  pose proof (fun r' => rows_createRow_ne d r' s) as Hold.
  destruct (createRow d s) as [r0 s0]. cbn [fst snd] in *. subst r0.
  unfold container_rows. cbn [container rows set_container].
  rewrite Hc, omap_app. cbn [omap list_omap]. rewrite Hnew. f_equal.
  clear Hc Hnew. unfold attached_known in Hk. revert Hk.
  generalize (container s). intros l Hk.
  induction l as [|x l IH]; [reflexivity |].
  cbn [omap list_omap].
  rewrite Hold by (specialize (Hk x ltac:(left)); lia).
  rewrite IH; [reflexivity |]. intros y Hy. apply Hk. now right.
Qed.

(** ** Opening a row while the catalogue is on its way *)

(** A focus while the prefetch is pending shows "Loading warehouse
    products..." in the row and registers the row for the arrival. *)
Lemma focus_while_pending (s : State) (r : nat) (row : Row) (stage : Stage) :
  prefetchPromise s = Some (LoadPending stage) ->
  prefetchCache s = [] ->
  rows s !! r = Some row ->
  let s1 := step s (Focus r) in
  activeElement s1 = Some r /\
  r ∈ waiters s1 /\
  prefetchPromise s1 = Some (LoadPending stage) /\
  rows s1 !! r =
  Some (set_box (mkBox [MessageItem "Loading warehouse products..."] false) row) /\
  (forall r', r' <> r -> rows s1 !! r' = rows s !! r').
Proof.
  intros Hp Hc Hrow. cbv zeta. cbn [step]. rewrite Hrow. unfold on_focus.
  cbn [rows set_activeElement]. rewrite Hrow.
  assert (H : forall X,
             prefetchPromise X = Some (LoadPending stage) ->
             prefetchCache X = [] -> activeElement X = Some r ->
             rows X = rows s ->
             activeElement (openPrefetch r X) = Some r /\
             r ∈ waiters (openPrefetch r X) /\
             prefetchPromise (openPrefetch r X) = Some (LoadPending stage) /\
             rows (openPrefetch r X) !! r =
             Some (set_box
                     (mkBox [MessageItem "Loading warehouse products..."] false)
                     row) /\
             (forall r', r' <> r -> rows (openPrefetch r X) !! r' = rows s !! r')).
  { intros X Xp Xc Xa Xr. unfold openPrefetch. rewrite Xc.
    rewrite loadPrefetch_pending
      by (cbn [prefetchPromise dom_writes emit set_rows]; congruence).
    cbn [prefetchPromise dom_writes emit set_rows]. rewrite Xp.
    cbn [activeElement waiters prefetchPromise rows set_waiters emit set_rows].
    rewrite rows_dom_writes, Xr. repeat split.
    - exact Xa.
    - apply elem_of_app. right. constructor.
    - exact Xp.
    - now rewrite lookup_alter_eq, Hrow.
    - intros r' Hne. apply lookup_alter_ne. congruence. }
  destruct (hideTimer row); apply H; (reflexivity || assumption).
Qed.

(** X13: On any page the script and its tasks lead to, while the catalogue
    is still being parsed: a focus on a row shows "Loading warehouse
    products..." there; when the catalogue then arrives it becomes the cache,
    the prefetch is settled, that row shows the first 30 products, or "No
    products loaded yet." when there are none, and every other row is as it
    was before the focus. If the row loses the focus before the catalogue
    arrives, the arrival leaves its box as it is. *)
Theorem prefetch_arrival (es : list Event) (r : nat) (row : Row)
    (results : option (list Product)) :
  let s := run init es in
  prefetchPromise s = Some (LoadPending AwaitJson) ->
  rows s !! r = Some row ->
  let loading := mkBox [MessageItem "Loading warehouse products..."] false in
  let shown :=
    mkBox match firstn DISPLAY_LIMIT (default [] results) with
          | [] => [MessageItem "No products loaded yet."]
          | l => map SuggestionItem l
          end false in
  let arrival := PrefetchParsed (JsonObject results) in
  let s1 := step s (Focus r) in
  let s2 := step s1 arrival in
  let s3 := step (step s1 (Blur r)) arrival in
  rows s1 !! r = Some (set_box loading row) /\
  prefetchCache s2 = default [] results /\
  prefetchPromise s2 = Some LoadSettled /\
  rows s2 !! r = Some (set_box shown row) /\
  (forall r', r' <> r -> rows s2 !! r' = rows s !! r') /\
  prefetchCache s3 = default [] results /\
  exists row3, rows s3 !! r = Some row3 /\ suggest_box row3 = loading.
Proof.
  intros s Hp Hrow loading shown arrival s1 s2 s3.
  assert (Hc : prefetchCache s = []) by exact (pending_empty_run es _ Hp).
  destruct (focus_while_pending s r row AwaitJson Hp Hc Hrow)
    as (Ha1 & Hw1 & Hp1 & Hrow1 & Hother1).
  fold s1 in Ha1, Hw1, Hp1, Hrow1, Hother1.
  destruct (prefetch_parsed s1 results Hp1) as (Hc2 & Hp2 & _ & Hr2 & Ho2).
  fold arrival s2 in Hc2, Hp2, Hr2, Ho2.
  split; [exact Hrow1 |]. split; [exact Hc2 |]. split; [exact Hp2 |].
  split; [| split].
  - rewrite (Hr2 r _ Ha1 Hw1 Hrow1). reflexivity.
  - intros r' Hne. rewrite Ho2 by (left; congruence). now apply Hother1.
  - set (sb := step s1 (Blur r)) in *.
    assert (Hpb : prefetchPromise sb = Some (LoadPending AwaitJson)).
    { destruct (same_prefetch_step s1 (Blur r) eq_refl) as (_ & Hq & _).
      fold sb in Hq. congruence. }
    assert (Hab : activeElement sb = None).
    { subst sb. cbn [step]. rewrite Hrow1, Ha1.
      rewrite bool_decide_eq_true_2 by reflexivity. reflexivity. }
    destruct (blur_state s1 r _ Hrow1) as [_ Hrowb]. fold sb in Hrowb.
    destruct (prefetch_parsed sb results Hpb) as (Hc3 & _ & _ & _ & Ho3).
    fold arrival s3 in Hc3, Ho3.
    split; [exact Hc3 |]. eexists.
    split; [rewrite Ho3 by (left; congruence); exact Hrowb | reflexivity].
Qed.

Lemma prefetch_arrival_witness :
  rows (run init [AddRow no_defaults; PrefetchFetched (FetchResponse 200);
                  Focus 0; PrefetchParsed (JsonObject (Some pens))]) !! 0%nat =
  Some (set_box (mkBox (map SuggestionItem pens) false) blank_row).
Proof.
  exact (proj1 (proj2 (proj2 (proj2
           (prefetch_arrival
              [AddRow no_defaults; PrefetchFetched (FetchResponse 200)]
              0 blank_row (Some pens)
              ltac:(vm_compute; reflexivity)
              ltac:(vm_compute; reflexivity)))))).
Defined.

(** ** Submitting the order *)

Lemma gather_row_line (index : nat) (row : Row) :
  is_line row = true -> gather_row index row = Gathered (line_of row).
Proof.
  unfold is_line, gather_row, line_of. intros H.
  apply andb_true_iff in H as [H Hmax]. apply andb_true_iff in H as [Hpid Hqty].
  rewrite Hpid. cbn [negb].
  apply Z.leb_le in Hqty.
  destruct (Z.leb_spec (JS.parseInt_or0 (Some (qty_value row))) 0); [lia |].
  apply orb_true_iff in Hmax as [Hmax | Hmax].
  - now rewrite Hmax.
  - apply Z.leb_le in Hmax.
    destruct (Z.ltb_spec (JS.parseInt_or0 (qty_maxQty row))
                (JS.parseInt_or0 (Some (qty_value row)))); [lia |].
    now rewrite andb_false_r.
Qed.

Lemma gather_row_blank (index : nat) (row : Row) :
  is_blank row = true -> gather_row index row = Skipped.
Proof.
  unfold is_blank, gather_row. intros H.
  apply andb_true_iff in H as [H Hqty]. apply andb_true_iff in H as [Hpid Hs].
  rewrite Hpid. apply negb_true_iff in Hs. rewrite Hs.
  apply Z.leb_le in Hqty.
  destruct (Z.ltb_spec 0 (JS.parseInt_or0 (Some (qty_value row)))); [lia |].
  reflexivity.
Qed.


Lemma line_not_blank (row : Row) : is_line row = true -> is_blank row = false.
Proof.
  unfold is_line, is_blank. intros H.
  apply andb_true_iff in H as [H _]. apply andb_true_iff in H as [-> _].
  reflexivity.
Qed.




Lemma gather_from_errors_prefix (rows : list Row) (index : nat) (g : Gather) :
  exists rest, errors (gather_from index rows g) = errors g ++ rest.
Proof.
  destruct (gather_from_spec index rows g) as (vs & _ & _ & He).
  now exists (omap error_of vs).
Qed.

Lemma gather_from_first_error (pre : list Row) (row : Row) (post : list Row)
    (index : nat) (g : Gather) (e : string) :
  errors g = [] ->
  forallb (fun row => is_blank row || is_line row) pre = true ->
  gather_row (index + length pre) row = Error e ->
  exists rest, errors (gather_from index (pre ++ row :: post) g) = e :: rest.
Proof.
  revert index g. induction pre as [|a pre IH]; intros index g Hg Hpre Hrow.
  - cbn [length app gather_from] in *. rewrite Nat.add_0_r in Hrow. rewrite Hrow.
    destruct (gather_from_errors_prefix post (S index) (push_result g (Error e)))
      as [rest ->].
    cbn [push_result errors]. rewrite Hg. now exists rest.
  - cbn [forallb] in Hpre. apply andb_true_iff in Hpre as [Ha Hpre].
    cbn [length app gather_from].
    apply IH; [| exact Hpre | now rewrite Nat.add_succ_comm].
    destruct (is_line a) eqn:El.
    + now rewrite (gather_row_line index a El).
    + rewrite orb_false_r in Ha. now rewrite (gather_row_blank index a Ha).
Qed.

(** X17: A row without a product blocks the order as long as it holds a search
    text or a positive quantity, as a row just added does with its quantity
    of 1: when the rows above it are blank or order lines, nothing is posted
    and the alert names that row. *)
Theorem row_without_product_blocks (p : OrderPage) (k : nat) (row : Row) :
  let table := container_rows (picker p) in
  table !! k = Some row ->
  JS.trim (product_id_value row) = "" ->
  is_blank row = false ->
  forallb (fun row => is_blank row || is_line row) (take k table) = true ->
  submitWarehouseOrder p =
  showMessage
    ("Row " +:+ JS.String_of (Z.of_nat k + 1) +:+ ": select a warehouse product.")
    "danger" p.
Proof.
  cbv zeta. intros Hk Hpid Hblank Hpre.
  assert (Hrow : gather_row k row =
                 Error ("Row " +:+ JS.String_of (Z.of_nat k + 1) +:+
                        ": select a warehouse product.")).
  { unfold is_blank in Hblank. unfold gather_row. rewrite Hpid in *.
    cbn [JS.truthy negb andb] in *.
    destruct (JS.truthy (JS.trim (search_value row)));
      [now rewrite orb_true_r |].
    cbn [negb andb] in Hblank. apply Z.leb_gt in Hblank.
    destruct (Z.ltb_spec 0 (JS.parseInt_or0 (Some (qty_value row)))); [| lia].
    reflexivity. }
  unfold submitWarehouseOrder, gatherItems.
  rewrite <- (take_drop_middle _ _ _ Hk).
  assert (Hlen : length (take k (container_rows (picker p))) = k).
  { apply length_take_le. apply lookup_lt_Some in Hk. lia. }
  destruct (gather_from_first_error (take k (container_rows (picker p))) row
              (drop (S k) (container_rows (picker p))) 0 (mkGather [] [])
              _ eq_refl Hpre ltac:(rewrite Hlen; exact Hrow)) as [rest ->].
  reflexivity.
Qed.

Lemma row_without_product_blocks_witness :
  submitWarehouseOrder (order_page (mkAlert "" "" false)) =
  showMessage "Row 1: select a warehouse product." "danger"
    (order_page (mkAlert "" "" false)).
Proof.
  exact (row_without_product_blocks (order_page (mkAlert "" "" false)) 0
           blank_row eq_refl eq_refl eq_refl eq_refl).
Defined.

(** X18: When the server accepts the order, the table is emptied and gets one
    new row, the notes are cleared and the success alert is shown; the
    catalogue stays loaded. Submitting that page again posts nothing: its
    one row has quantity 1 and no product. *)
Theorem accepted_order_resets_page (p : OrderPage) (message : option string) :
  let p' := submit_settled (PostAnswered true message) p in
  container_rows (picker p') = [blank_row] /\
  notes_field p' = "" /\
  alert p' =
  mkAlert "alert alert-success"
    "Order submitted successfully and sent to Inventory." true /\
  posts p' = posts p /\
  prefetchCache (picker p') = prefetchCache (picker p) /\
  posts (submitWarehouseOrder p') = posts p.
Proof.
  cbv zeta.
  assert (Hrows : container_rows
                    (addRow no_defaults (clear_rows (picker p))) = [blank_row]).
  { unfold container_rows, addRow, createRow, clear_rows.
    cbn [d_product d_qty d_expected_date d_notes no_defaults JS.or_else
         JS.truthy container rows next_row set_container set_next_row set_rows
         set_activeElement app omap list_omap].
    now rewrite lookup_insert_eq. }
  repeat split; try exact Hrows.
  set (p' := submit_settled (PostAnswered true message) p).
  change (container_rows (picker p') = [blank_row]) in Hrows.
  unfold submitWarehouseOrder. rewrite Hrows. reflexivity.
Qed.

Lemma submit_after_showMessage (msg type : string) (p : OrderPage) :
  posts (submitWarehouseOrder (showMessage msg type p)) =
  posts (submitWarehouseOrder p).
Proof.
  unfold submitWarehouseOrder. cbn [picker showMessage notes_field posts].
  destruct (errors _); [| reflexivity]. now destruct (items _).
Qed.

(** X19: When the request fails or the server refuses the order, a danger alert
    with a message that is never empty is shown, and the rows, the notes
    and the orders posted stay as they are, so that submitting again sends
    the same order. The fallback "Failed to submit order." is shown only
    for an exception without message. *)
Theorem refused_order_keeps_page (p : OrderPage) (o : PostOutcome) :
  match o with PostAnswered true _ => False | _ => True end ->
  let p' := submit_settled o p in
  picker p' = picker p /\ notes_field p' = notes_field p /\
  posts p' = posts p /\
  alert_class (alert p') = "alert alert-danger" /\
  alert_visible (alert p') = true /\
  alert_text (alert p') =
  match o with
  | PostFailed m => if JS.truthy m then m else "Failed to submit order."
  | PostAnswered _ m => JS.or_else m "Failed to create order."
  end /\
  alert_text (alert p') <> "" /\
  posts (submitWarehouseOrder p') = posts (submitWarehouseOrder p).
Proof.
  intros Ho. cbv zeta.
  assert (Htext : alert_text (alert (submit_settled o p)) =
                  match o with
                  | PostFailed m =>
                      if JS.truthy m then m else "Failed to submit order."
                  | PostAnswered _ m => JS.or_else m "Failed to create order."
                  end).
  { destruct o as [m|[] m]; [reflexivity | contradiction |].
    cbn [submit_settled showMessage alert alert_text].
    apply or_else_Some_truthy. now apply or_else_truthy. }
  assert (Hne : alert_text (alert (submit_settled o p)) <> "").
  { rewrite Htext. apply truthy_true_iff.
    destruct o as [m|b m]; [| now apply or_else_truthy].
    now destruct (JS.truthy m) eqn:E. }
  destruct o as [m|[] m]; try contradiction;
    (repeat split;
     try exact Htext; try exact Hne; apply submit_after_showMessage).
Qed.

Lemma refused_order_keeps_page_witness :
  alert_text
    (alert (submit_settled (PostAnswered false None)
              (page_with selected_page ""))) = "Failed to create order.".
Proof.
  exact (proj1 (proj2 (proj2 (proj2 (proj2 (proj2
           (refused_order_keeps_page (page_with selected_page "")
              (PostAnswered false None) I))))))).
Defined.

(** X20: The timeout of an alert is never cleared: when two alerts follow each
    other, the timeout of the first hides the second before its own 4
    seconds are over. *)
Theorem earlier_timeout_hides_later_alert (p : OrderPage)
    (msg1 type1 msg2 type2 : string) :
  let p' := hide_alert (showMessage msg2 type2 (showMessage msg1 type1 p)) in
  alert p' = mkAlert ("alert alert-" +:+ type2) msg2 false /\
  alert_timeouts p' = S (alert_timeouts p).
Proof. split; reflexivity. Qed.

(** ** The meta line of a product *)

Lemma append_eq_nil (a b : string) : a +:+ b = "" -> a = "".
Proof. destruct a; [reflexivity |]. rewrite append_cons. discriminate. Qed.

(** X21: The meta line is empty exactly for a product without available
    quantity, tag and SKU; a known quantity, also 0, comes first. *)
Theorem formatMetaText_shape (p : Product) :
  (formatMetaText p = "" <->
   qty_available p = None /\ JS.or_else (tag p) "" = "" /\
   JS.or_else (sku p) "" = "") /\
  (forall q, qty_available p = Some q ->
             exists rest,
               formatMetaText p =
               "Available: " +:+ JS.Number_toString q +:+ rest).
Proof.
  unfold formatMetaText.
  destruct (qty_available p) as [q|].
  - split.
    + split; [| intros [H _]; discriminate H].
      intros H. exfalso.
      destruct (JS.truthy (JS.or_else (tag p) ""));
        destruct (JS.truthy (JS.or_else (sku p) ""));
        cbn [app JS.join] in H;
        repeat apply append_eq_nil in H; discriminate H.
    + intros q' Hq. injection Hq as <-.
      destruct (JS.truthy (JS.or_else (tag p) ""));
        destruct (JS.truthy (JS.or_else (sku p) ""));
        cbn [app JS.join]; rewrite ?append_assoc;
        first [ eexists; reflexivity
              | exists ""; now rewrite append_nil_r ].
  - split; [| intros q' Hq; discriminate Hq].
    destruct (JS.truthy (JS.or_else (tag p) "")) eqn:Et;
      destruct (JS.truthy (JS.or_else (sku p) "")) eqn:Es;
      cbn [app JS.join];
      try apply truthy_true_iff in Et; try apply truthy_false_iff in Et;
      try apply truthy_true_iff in Es; try apply truthy_false_iff in Es.
    + split; [| tauto]. intros H. now apply append_eq_nil in H.
    + split; [| tauto]. intros H. contradiction.
    + split; [| tauto]. intros H. rewrite append_cons in H. discriminate H.
    + tauto.
Qed.

Lemma formatMetaText_shape_witness :
  exists rest,
    formatMetaText blue_pen = "Available: " +:+ "5" +:+ rest.
Proof.
  exact (proj2 (formatMetaText_shape blue_pen) (JS.of_Z 5) eq_refl).
Defined.
